(** * HubSpot CRM integration: field mapping, validation and provisioning

    A shallow embedding of the services, route handlers and configuration
    loader of the integration layer, and the properties the specification
    states about them.

    - JavaScript values are an inductive type; objects are insertion-ordered
      association lists (the order [Object.keys] and [Object.entries] see).
      Numbers are the integer-valued ones, rounded and printed as
      binary64 values; [NaN] is kept apart as the [None] of [parseInt].
    - Strings are sequences of UTF-16 code units.
    - The remote CRM is an oracle carried by the world: it answers a request
      from the history of the requests made so far.  Every call made through
      the HTTP client is appended to that history.
    - [throw] / [try ... catch] are an error monad over the world.
    - Console output is left out, except the warning lines of the
      configuration loader; the pause between two property creations only
      takes time and is left out too. *)

From Stdlib Require Import ZArith NArith List String Ascii Lia Bool.
From stdpp Require Import base tactics option list pretty.

Import ListNotations.
Set Warnings "-register-all".
Open Scope string_scope.
Open Scope Z_scope.
Open Scope list_scope.

(* ================================================================== *)
(** * Strings *)

(** A JavaScript string: its UTF-16 code units. *)
Definition jsstring : Type := list N.

(** A source-code string literal (ASCII) as a JavaScript string. *)
Definition lit (s : string) : jsstring :=
  map N_of_ascii (list_ascii_of_string s).

(** [Array.prototype.join] on already converted elements. *)
Fixpoint join (sep : jsstring) (parts : list jsstring) : jsstring :=
  match parts with
  | [] => []
  | [p] => p
  | p :: rest => p ++ sep ++ join sep rest
  end.

(** [String.prototype.startsWith]. *)
Fixpoint startsWith (s prefix : jsstring) : bool :=
  match prefix, s with
  | [], _ => true
  | _ :: _, [] => false
  | p :: prefix', c :: s' => N.eqb c p && startsWith s' prefix'
  end.

(** The code units matched by [\s] in a regular expression without the
    [u] flag, which are also the ones [parseInt] skips: WhiteSpace and
    LineTerminator of the language grammar. *)
Definition is_space (c : N) : bool :=
  (N.leb 9 c && N.leb c 13)          (* \t \n \v \f \r *)
  || N.eqb c 32                      (* space *)
  || N.eqb c 160                     (* U+00A0 *)
  || N.eqb c 5760                    (* U+1680 *)
  || (N.leb 8192 c && N.leb c 8202)  (* U+2000 .. U+200A *)
  || N.eqb c 8232 || N.eqb c 8233    (* U+2028, U+2029 *)
  || N.eqb c 8239                    (* U+202F *)
  || N.eqb c 8287                    (* U+205F *)
  || N.eqb c 12288                   (* U+3000 *)
  || N.eqb c 65279.                  (* U+FEFF *)

(* ================================================================== *)
(** * Regular expressions *)

(** The fragment of regular expressions the source uses, matched with
    derivatives.  A pattern anchored with [^] and [$] and run with
    [RegExp.prototype.test] accepts a string when the whole string is in
    the language. *)
Inductive regex : Type :=
  | RNone
  | REps
  | RClass (p : N -> bool)
  | RCat (r1 r2 : regex)
  | RAlt (r1 r2 : regex)
  | RStar (r : regex).

(** [r+] *)
Definition RPlus (r : regex) : regex := RCat r (RStar r).

(** A literal character. *)
Definition RChar (a : ascii) : regex := RClass (N.eqb (N_of_ascii a)).

Fixpoint nullable (r : regex) : bool :=
  match r with
  | RNone => false
  | REps => true
  | RClass _ => false
  | RCat r1 r2 => nullable r1 && nullable r2
  | RAlt r1 r2 => nullable r1 || nullable r2
  | RStar _ => true
  end.

Fixpoint deriv (c : N) (r : regex) : regex :=
  match r with
  | RNone => RNone
  | REps => RNone
  | RClass p => if p c then REps else RNone
  | RCat r1 r2 =>
      if nullable r1
      then RAlt (RCat (deriv c r1) r2) (deriv c r2)
      else RCat (deriv c r1) r2
  | RAlt r1 r2 => RAlt (deriv c r1) (deriv c r2)
  | RStar r1 => RCat (deriv c r1) (RStar r1)
  end.

Fixpoint regex_test (r : regex) (s : jsstring) : bool :=
  match s with
  | [] => nullable r
  | c :: s' => regex_test (deriv c r) s'
  end.

(** [[^\s@]] *)
Definition not_space_or_at (c : N) : bool :=
  negb (is_space c || N.eqb c (N_of_ascii "@")).

(** [/^[^\s@]+@[^\s@]+\.[^\s@]+$/] *)
Definition emailRegex : regex :=
  RCat (RPlus (RClass not_space_or_at))
    (RCat (RChar "@")
       (RCat (RPlus (RClass not_space_or_at))
          (RCat (RChar ".")
             (RPlus (RClass not_space_or_at))))).

(* ================================================================== *)
(** * Values *)

(** JavaScript values as they arrive from JSON bodies and query strings
    and as the code builds them.  Numbers are the integer-valued ones
    (a JSON integer, an array length, a parsed limit): [JNum n] is the
    Number value of [n], see [to_double]; [NaN] only arises from
    [parseInt] and is kept apart there. *)
Inductive jsval : Type :=
  | JUndefined
  | JNull
  | JBool (b : bool)
  | JNum (n : Z)
  | JStr (s : jsstring)
  | JArr (items : list jsval)
  | JObj (fields : list (string * jsval)).

Definition obj : Type := list (string * jsval).

(** Own-property lookup: the first binding of the key. *)
Fixpoint obj_lookup (o : obj) (k : string) : option jsval :=
  match o with
  | [] => None
  | (k', v) :: o' => if String.eqb k' k then Some v else obj_lookup o' k
  end.

(** [o.k] on an object: [undefined] when the key is missing. *)
Definition obj_get (o : obj) (k : string) : jsval :=
  match obj_lookup o k with
  | Some v => v
  | None => JUndefined
  end.

(** [o.k = v]: overwrite in place, or append a new key at the end. *)
Fixpoint obj_set (o : obj) (k : string) (v : jsval) : obj :=
  match o with
  | [] => [(k, v)]
  | (k', v') :: o' =>
      if String.eqb k' k then (k', v) :: o' else (k', v') :: obj_set o' k v
  end.

(** [delete o.k] *)
Fixpoint obj_delete (o : obj) (k : string) : obj :=
  match o with
  | [] => []
  | (k', v') :: o' =>
      if String.eqb k' k then obj_delete o' k else (k', v') :: obj_delete o' k
  end.

(** [Object.entries(o)] *)
Definition obj_entries (o : obj) : list (string * jsval) := o.

(** [Object.keys(o)] *)
Definition obj_keys (o : obj) : list string := map fst o.

(** ToBoolean. *)
Definition truthy (v : jsval) : bool :=
  match v with
  | JUndefined | JNull => false
  | JBool b => b
  | JNum n => negb (Z.eqb n 0)
  | JStr s => match s with [] => false | _ => true end
  | JArr _ | JObj _ => true
  end.

Definition is_undefined (v : jsval) : bool :=
  match v with JUndefined => true | _ => false end.

Definition is_null (v : jsval) : bool :=
  match v with JNull => true | _ => false end.

(** [v === ''] *)
Definition is_empty_string (v : jsval) : bool :=
  match v with JStr [] => true | _ => false end.

(** [a || b] *)
Definition js_or (a b : jsval) : jsval := if truthy a then a else b.

(** [Array.isArray(v)] *)
Definition is_array (v : jsval) : bool :=
  match v with JArr _ => true | _ => false end.

(* ================================================================== *)
(** * Numbers *)

(** The Number value of a natural number: the nearest binary64 value,
    ties to the even significand. *)
Definition round_to_double (m : Z) : Z :=
  if m <? 2 ^ 53 then m
  else
    let e := Z.log2 m - 52 in
    let q := Z.shiftr m e in
    let r := m - Z.shiftl q e in
    let half := Z.shiftl 1 (e - 1) in
    let q := if (half <? r) || ((r =? half) && Z.odd q) then q + 1 else q in
    Z.shiftl q e.

(** The Number value of an integer.  An integer-valued Number is its own
    value; [2 ^ 1024] and its opposite stand for [Infinity] and
    [-Infinity]. *)
Definition to_double (n : Z) : Z :=
  let v := round_to_double (Z.abs n) in
  Z.sgn n * (if 2 ^ 1024 <=? v then 2 ^ 1024 else v).

(** The candidates [s * 10 ^ (n - k)] with [k] digits that denote the
    Number [m], each with its distance to [m]. *)
Definition digit_candidates (m k n : Z) : list (Z * Z * Z) :=
  let scale := 10 ^ (n - k) in
  let s := m / scale in
  List.filter
    (fun c : Z * Z * Z =>
       let '(s, n, _) := c in
       (10 ^ (k - 1) <=? s) && (s <? 10 ^ k)
       && (to_double (s * scale) =? m))
    [ (s, n, Z.abs (s * scale - m));
      (s + 1, n, Z.abs ((s + 1) * scale - m)) ].

(** Of the candidates, the closest; of two equally close, the even one. *)
Fixpoint closest (cs : list (Z * Z * Z)) : option (Z * Z * Z) :=
  match cs with
  | [] => None
  | c :: cs' =>
      match closest cs' with
      | None => Some c
      | Some c' =>
          let '(s, _, d) := c in
          let '(_, _, d') := c' in
          if (d <? d') || ((d =? d') && Z.even s) then Some c else Some c'
      end
  end.

(** The digits [s], their number [k] and the exponent [n] that
    Number::toString prints for a finite Number [m] of [len] decimal
    digits: [k] is the least number of digits for which
    [s * 10 ^ (n - k)] denotes [m]. *)
Fixpoint shortest_digits (m len : Z) (ks : list Z) : Z * Z * Z :=
  match ks with
  | [] => (m, len, len)
  | k :: ks' =>
      match closest (digit_candidates m k len
                       ++ digit_candidates m k (len + 1)) with
      | Some (s, n, _) => (s, k, n)
      | None => shortest_digits m len ks'
      end
  end.

(** Number::toString on an integer-valued Number: the decimal digits
    below [2 ^ 53]; above, the shortest digits that denote the Number,
    followed by zeros up to 21 digits and in exponent form
    ([1.5e+21]) beyond. *)
Definition number_text (x : Z) : jsstring :=
  let m := Z.abs (to_double x) in
  let sign := if x <? 0 then lit "-" else [] in
  if m <? 2 ^ 53 then lit (pretty (to_double x))
  else if 2 ^ 1024 <=? m then sign ++ lit "Infinity"
  else
    let len := Z.of_nat (String.length (pretty m)) in
    let '(s, k, n) :=
      shortest_digits m len
        (List.filter (fun k => k <=? len)
           [1; 2; 3; 4; 5; 6; 7; 8; 9; 10; 11; 12; 13; 14; 15; 16; 17]) in
    let digits := lit (pretty s) in
    if n <=? 21
    then sign ++ digits ++ repeat (N_of_ascii "0") (Z.to_nat (n - k))
    else
      sign ++ firstn 1 digits
      ++ (if k =? 1 then [] else lit "." ++ skipn 1 digits)
      ++ lit "e+" ++ lit (pretty (n - 1)).

(* ================================================================== *)
(** * parseInt *)

(** The value of a code unit as a digit in radix 10 or 16. *)
Definition digit_value (radix : Z) (c : N) : option Z :=
  let c := Z.of_N c in
  if (48 <=? c) && (c <=? 57) then Some (c - 48)
  else if (radix =? 16) && (97 <=? c) && (c <=? 102) then Some (c - 87)
  else if (radix =? 16) && (65 <=? c) && (c <=? 70) then Some (c - 55)
  else None.

(** Reads the longest run of digits; [None] when there is no digit. *)
Fixpoint parse_digits (radix : Z) (acc : option Z) (s : jsstring) : option Z :=
  match s with
  | [] => acc
  | c :: s' =>
      match digit_value radix c with
      | Some d =>
          parse_digits radix
            (Some (radix * match acc with Some a => a | None => 0 end + d)) s'
      | None => acc
      end
  end.

Fixpoint skip_spaces (s : jsstring) : jsstring :=
  match s with
  | c :: s' => if is_space c then skip_spaces s' else s
  | [] => []
  end.

(** [parseInt(s)] without a radix argument; [None] is [NaN].  The result
    is the Number value of the integer read ([-0] is [0]). *)
Definition parseInt (s : jsstring) : option Z :=
  let s := skip_spaces s in
  let '(sign, s) :=
    match s with
    | c :: s' =>
        if N.eqb c (N_of_ascii "-") then (-1, s')
        else if N.eqb c (N_of_ascii "+") then (1, s')
        else (1, s)
    | [] => (1, s)
    end in
  let '(radix, s) :=
    match s with
    | c0 :: c1 :: s' =>
        if N.eqb c0 (N_of_ascii "0")
           && (N.eqb c1 (N_of_ascii "x") || N.eqb c1 (N_of_ascii "X"))
        then (16, s') else (10, s)
    | _ => (10, s)
    end in
  match parse_digits radix None s with
  | Some n => Some (to_double (sign * n))
  | None => None
  end.

(* ================================================================== *)
(** * The remote service, exceptions and the effect monad *)

Inductive http_method : Type := GET | POST | PATCH | DELETE.

(** A call made through the HTTP client.  The headers are the same on
    every call and are left out. *)
Record request : Type := mkRequest {
  rq_method : http_method;
  rq_url : jsstring;
  rq_body : jsval
}.

(** [response.status] and [response.data] *)
Record http_response : Type := mkResponse {
  rs_status : Z;
  rs_data : jsval
}.

(** The error the HTTP client rejects with: [error.message], and
    [error.response] when the remote side answered at all. *)
Record axios_error : Type := mkAxiosError {
  ae_message : jsstring;
  ae_response : option http_response
}.

Inductive outcome : Type :=
  | Resolved (r : http_response)
  | Rejected (e : axios_error).

(** What the code can throw. *)
Inductive exn : Type :=
  | EAxios (e : axios_error)
      (** a rejected HTTP call *)
  | EService (error details : jsval)
      (** the plain object [{success: false, error, details}] the contact
          service throws *)
  | ETypeError (message : jsstring)
      (** reading a property of [null] or [undefined], calling a
          non-function *)
  | EError (message : jsstring).
      (** [new Error(message)] *)

(** [error.message] *)
Definition exn_message (e : exn) : jsval :=
  match e with
  | EAxios a => JStr (ae_message a)
  | EService _ _ => JUndefined
  | ETypeError m => JStr m
  | EError m => JStr m
  end.

(** [error.response?.status] *)
Definition exn_status (e : exn) : option Z :=
  match e with
  | EAxios a => option_map rs_status (ae_response a)
  | _ => None
  end.

(** [error.response?.data] *)
Definition exn_response_data (e : exn) : jsval :=
  match e with
  | EAxios a =>
      match ae_response a with
      | Some r => rs_data r
      | None => JUndefined
      end
  | _ => JUndefined
  end.

(** [error.error] *)
Definition exn_error (e : exn) : jsval :=
  match e with
  | EService error _ => error
  | _ => JUndefined
  end.

(** [error.details] *)
Definition exn_details (e : exn) : jsval :=
  match e with
  | EService _ details => details
  | _ => JUndefined
  end.

(** The process as far as the code can tell: the base URL the services
    were constructed with, the remote service (it answers a request from
    the requests made before it), and the requests made so far. *)
Record world : Type := mkWorld {
  baseUrl : jsval;
  remote : list request -> request -> outcome;
  calls : list request
}.

Inductive result (A : Type) : Type :=
  | Ok (a : A)
  | Throw (e : exn).
Arguments Ok {A} a.
Arguments Throw {A} e.

Definition M (A : Type) : Type := world -> result A * world.

Definition ret {A} (a : A) : M A := fun w => (Ok a, w).

Definition throw {A} (e : exn) : M A := fun w => (Throw e, w).

Definition bind {A B} (m : M A) (k : A -> M B) : M B :=
  fun w =>
    match m w with
    | (Ok a, w') => k a w'
    | (Throw e, w') => (Throw e, w')
    end.

(** [try { body } catch (error) { handler }] *)
Definition try_catch {A} (body : M A) (handler : exn -> M A) : M A :=
  fun w =>
    match body w with
    | (Ok a, w') => (Ok a, w')
    | (Throw e, w') => handler e w'
    end.

(** A computation that reads nothing and calls nothing. *)
Definition lift {A} (r : result A) : M A := fun w => (r, w).

Definition get_baseUrl : M jsval := fun w => (Ok (baseUrl w), w).

(** The world once a request has been made. *)
Definition record_call (w : world) (rq : request) : world :=
  mkWorld (baseUrl w) (remote w) (calls w ++ [rq]).

(** [await axios.<method>(url, body)]: the request is recorded, the
    remote side answers, a rejection is thrown. *)
Definition axios (rq : request) : M http_response :=
  fun w =>
    match remote w (calls w) rq with
    | Resolved r => (Ok r, record_call w rq)
    | Rejected e => (Throw (EAxios e), record_call w rq)
    end.

Declare Scope js_scope.
Delimit Scope js_scope with js.
Notation "x <- m ;; k" := (bind m (fun x => k))
  (at level 100, m at next level, right associativity) : js_scope.
Notation "m ;;; k" := (bind m (fun _ => k))
  (at level 100, right associativity) : js_scope.
Open Scope js_scope.

(** [array.map(f)] with a callback that can throw. *)
Definition mapM {A B} (f : A -> result B) : list A -> result (list B) :=
  fix go (l : list A) : result (list B) :=
    match l with
    | [] => Ok []
    | a :: l' =>
        match f a with
        | Throw e => Throw e
        | Ok b =>
            match go l' with
            | Throw e => Throw e
            | Ok bs => Ok (b :: bs)
            end
        end
    end.

(** ToString, as template literals, [RegExp.prototype.test], [parseInt],
    [join] and [toString()] apply it.  Values come from JSON or a query
    string, so a property is never a function: an object with an own
    [toString] key cannot be converted (TypeError), any other object
    prints through [Object.prototype.toString].  Inside an array, [null]
    and [undefined] elements print as the empty string.  A number prints
    as Number::toString prints it. *)
Fixpoint to_string (v : jsval) : result jsstring :=
  match v with
  | JUndefined => Ok (lit "undefined")
  | JNull => Ok (lit "null")
  | JBool true => Ok (lit "true")
  | JBool false => Ok (lit "false")
  | JNum n => Ok (number_text n)
  | JStr s => Ok s
  | JArr items =>
      match mapM (fun e =>
                    match e with
                    | JUndefined | JNull => Ok []
                    | _ => to_string e
                    end) items with
      | Ok parts => Ok (join (lit ",") parts)
      | Throw e => Throw e
      end
  | JObj o =>
      match obj_lookup o "toString" with
      | Some _ =>
          Throw (ETypeError (lit "Cannot convert object to primitive value"))
      | None => Ok (lit "[object Object]")
      end
  end.

(** [emailRegex.test(v)] *)
Definition email_ok (v : jsval) : result bool :=
  match to_string v with
  | Ok s => Ok (regex_test emailRegex s)
  | Throw e => Throw e
  end.

(** [parseInt(v)] on a value: the argument is converted with ToString. *)
Definition parseInt_val (v : jsval) : result (option Z) :=
  match to_string v with
  | Ok s => Ok (parseInt s)
  | Throw e => Throw e
  end.

(** [isNaN(n)] on the result of [parseInt]. *)
Definition isNaN (n : option Z) : bool :=
  match n with None => true | Some _ => false end.

(** [v.k] for a property name [k] that no built-in prototype defines:
    a TypeError on [null] and [undefined], the own property on an object,
    [undefined] on anything else.  The code also reads [length], and
    only to log it: there the value is not used, only whether the read
    throws.  The message is Node's. *)
Definition get_field (v : jsval) (k : string) : result jsval :=
  match v with
  | JUndefined =>
      Throw (ETypeError (lit "Cannot read properties of undefined (reading '"
                         ++ lit k ++ lit "')"))
  | JNull =>
      Throw (ETypeError (lit "Cannot read properties of null (reading '"
                         ++ lit k ++ lit "')"))
  | JObj o => Ok (obj_get o k)
  | _ => Ok JUndefined
  end.

(** [v.k] and a template literal inside a computation. *)
Notation "v .[ k ]" := (lift (get_field v k))
  (at level 1, left associativity, format "v .[ k ]") : js_scope.

Definition text (v : jsval) : M jsstring := lift (to_string v).

(* ================================================================== *)
(** * Configuration: the endpoint table *)

Definition endpoints_contacts : jsstring := lit "/crm/v3/objects/contacts".
Definition endpoints_contactsSearch : jsstring :=
  lit "/crm/v3/objects/contacts/search".
Definition endpoints_contactsBatch : jsstring :=
  lit "/crm/v3/objects/contacts/batch".
Definition endpoints_properties : jsstring := lit "/crm/v3/properties/contacts".

(* ================================================================== *)
(** * HubSpotService *)

(** The object thrown by every catch block of the contact service:
    [{success: false, error: error.message,
      details: error.response?.data || null}]. *)
Definition service_failure (error : exn) : exn :=
  EService (exn_message error) (js_or (exn_response_data error) JNull).

(** The loop of [createContact] that removes empty properties:
    [Object.keys(properties).forEach(key => { if (properties[key] ===
    undefined || properties[key] === null || properties[key] === '')
    delete properties[key]; })]. *)
Definition strip_step (properties : obj) (key : string) : obj :=
  if is_undefined (obj_get properties key)
     || is_null (obj_get properties key)
     || is_empty_string (obj_get properties key)
  then obj_delete properties key
  else properties.

Definition strip_empty (properties : obj) : obj :=
  fold_left strip_step (obj_keys properties) properties.

(** The object literal of [createContact]: all nine keys, whatever the
    values. *)
Definition mapped_literal (contactData : jsval) : M obj :=
  firstName <- contactData.["firstName"] ;;
  lastName <- contactData.["lastName"] ;;
  email <- contactData.["email"] ;;
  phone <- contactData.["phone"] ;;
  ownerId <- contactData.["ownerId"] ;;
  candidateExperience <- contactData.["candidateExperience"] ;;
  candidateDateOfJoining <- contactData.["candidateDateOfJoining"] ;;
  candidateName <- contactData.["candidateName"] ;;
  candidatePastCompany <- contactData.["candidatePastCompany"] ;;
  ret [ ("firstname", firstName);
        ("lastname", lastName);
        ("email", email);
        ("phone", phone);
        ("hubspot_owner_id", ownerId);
        ("candidate_experience", candidateExperience);
        ("candidate_date_of_joining", candidateDateOfJoining);
        ("candidate_name", candidateName);
        ("candidate_past_company", candidatePastCompany) ].

(** The [properties] object [createContact] puts in its payload. *)
Definition createContact_properties (contactData : jsval) : M obj :=
  properties <- mapped_literal contactData ;;
  ret (strip_empty properties).

Definition createContact (contactData : jsval) : M obj :=
  try_catch
    (properties <- createContact_properties contactData ;;
     let payload := JObj [("properties", JObj properties)] in
     base <- get_baseUrl ;;
     url0 <- text base ;;
     response <- axios (mkRequest POST (url0 ++ endpoints_contacts) payload) ;;
     id <- (rs_data response).["id"] ;;
     _ <- (rs_data response).["properties"] ;;
     ret [ ("success", JBool true);
           ("contact", rs_data response);
           ("contactId", id) ])
    (fun error => throw (service_failure error)).

(** One line of [updateContact]:
    [if (updateData.from !== undefined) properties.to = updateData.from;] *)
Definition copy_if_defined (updateData : jsval) (from to : string)
    (properties : obj) : M obj :=
  v <- updateData.[from] ;;
  ret (if is_undefined v then properties else obj_set properties to v).

(** The [properties] object [updateContact] puts in its payload. *)
Definition updateContact_properties (updateData : jsval) : M obj :=
  let properties : obj := [] in
  properties <- copy_if_defined updateData "firstName" "firstname" properties ;;
  properties <- copy_if_defined updateData "lastName" "lastname" properties ;;
  properties <- copy_if_defined updateData "email" "email" properties ;;
  properties <- copy_if_defined updateData "phone" "phone" properties ;;
  properties <-
    copy_if_defined updateData "ownerId" "hubspot_owner_id" properties ;;
  properties <-
    copy_if_defined updateData "candidateExperience" "candidate_experience"
      properties ;;
  properties <-
    copy_if_defined updateData "candidateDateOfJoining"
      "candidate_date_of_joining" properties ;;
  properties <-
    copy_if_defined updateData "candidateName" "candidate_name" properties ;;
  properties <-
    copy_if_defined updateData "candidatePastCompany" "candidate_past_company"
      properties ;;
  ret properties.

Definition updateContact (contactId : jsstring) (updateData : jsval) : M obj :=
  try_catch
    (properties <- updateContact_properties updateData ;;
     let payload := JObj [("properties", JObj properties)] in
     base <- get_baseUrl ;;
     url0 <- text base ;;
     response <-
       axios (mkRequest PATCH
                (url0 ++ endpoints_contacts ++ lit "/" ++ contactId) payload) ;;
     id <- (rs_data response).["id"] ;;
     ret [ ("success", JBool true);
           ("contact", rs_data response);
           ("contactId", id) ])
    (fun error => throw (service_failure error)).

(** The nine properties read and searched by default. *)
Definition defaultProps : list jsval :=
  map (fun s => JStr (lit s))
    [ "firstname"; "lastname"; "email"; "phone"; "hubspot_owner_id";
      "candidate_experience"; "candidate_date_of_joining";
      "candidate_name"; "candidate_past_company" ].

(** [array.join(',')]: the string form of the array. *)
Definition join_comma (array : jsval) : M jsstring := text array.

(** The result [getContact] returns on a remote 404. *)
Definition contact_not_found (contactId : jsstring) : obj :=
  [ ("success", JBool false);
    ("error", JStr (lit "Contact not found"));
    ("contactId", JStr contactId) ].

Definition getContact (contactId : jsstring) (properties : jsval) : M obj :=
  try_catch
    (base <- get_baseUrl ;;
     url0 <- text base ;;
     let url := url0 ++ endpoints_contacts ++ lit "/" ++ contactId in
     propsParam <-
       (if truthy properties
        then (if is_array properties then join_comma properties
              else text properties)
        else join_comma (JArr defaultProps)) ;;
     let url := url ++ lit "?properties=" ++ propsParam in
     response <- axios (mkRequest GET url JUndefined) ;;
     _ <- (rs_data response).["id"] ;;
     _ <- (rs_data response).["properties"] ;;
     ret [ ("success", JBool true);
           ("contact", rs_data response) ])
    (fun error =>
       if bool_decide (exn_status error = Some 404)
       then ret (contact_not_found contactId)
       else throw (service_failure error)).

(** [value.toString()]: the method call fails on an object whose own
    [toString] key hides the inherited method. *)
Definition call_toString (value : jsval) : result jsstring :=
  match value with
  | JObj o =>
      match obj_lookup o "toString" with
      | Some _ => Throw (ETypeError (lit "value.toString is not a function"))
      | None => to_string value
      end
  | _ => to_string value
  end.

(** One entry of [Object.entries(filters)] in [searchContacts]: a filter
    is pushed unless the value is [undefined] or [null]. *)
Definition push_filter (filterArray : list jsval) (entry : string * jsval)
    : M (list jsval) :=
  let '(property, value) := entry in
  if negb (is_undefined value) && negb (is_null value)
  then
    value_text <- lift (call_toString value) ;;
    ret (filterArray ++
           [JObj [ ("propertyName", JStr (lit property));
                   ("operator", JStr (lit "EQ"));
                   ("value", JStr value_text) ]])
  else ret filterArray.

Fixpoint forEachM {A B} (f : B -> A -> M B) (l : list A) (acc : B) : M B :=
  match l with
  | [] => ret acc
  | a :: l' => acc' <- f acc a ;; forEachM f l' acc'
  end.

(** The payload [searchContacts] posts. *)
Definition searchPayload (filters : obj) (limit : jsval) : M jsval :=
  filterGroups <-
    (if (0 <? Z.of_nat (length (obj_keys filters)))
     then
       filterArray <- forEachM push_filter (obj_entries filters) [] ;;
       ret (if (0 <? Z.of_nat (length filterArray))
            then [JObj [("filters", JArr filterArray)]]
            else [])
     else ret []) ;;
  ret (JObj [ ("filterGroups", JArr filterGroups);
              ("properties", JArr defaultProps);
              ("limit", limit) ]).

(** [searchContacts(filters = {}, limit = 10)]: an [undefined] limit is
    replaced by 10.  The filters are an object; the default of that
    parameter only replaces [undefined]. *)
Definition searchContacts (filters : obj) (limit : jsval) : M obj :=
  let limit := if is_undefined limit then JNum 10 else limit in
  try_catch
    (payload <- searchPayload filters limit ;;
     base <- get_baseUrl ;;
     url0 <- text base ;;
     response <-
       axios (mkRequest POST (url0 ++ endpoints_contactsSearch) payload) ;;
     total <- (rs_data response).["total"] ;;
     results <- (rs_data response).["results"] ;;
     _ <- results.["length"] ;;
     ret [ ("success", JBool true);
           ("contacts", results);
           ("total", total) ])
    (fun error => throw (service_failure error)).

(** The callback of [contactsData.map] in [batchCreateContacts]: an
    object literal with all nine keys, sent as it is. *)
Definition batch_input (contactData : jsval) : M jsval :=
  firstName <- contactData.["firstName"] ;;
  lastName <- contactData.["lastName"] ;;
  email <- contactData.["email"] ;;
  phone <- contactData.["phone"] ;;
  ownerId <- contactData.["ownerId"] ;;
  candidateExperience <- contactData.["candidateExperience"] ;;
  candidateDateOfJoining <- contactData.["candidateDateOfJoining"] ;;
  candidateName <- contactData.["candidateName"] ;;
  candidatePastCompany <- contactData.["candidatePastCompany"] ;;
  ret (JObj
         [ ("properties",
             JObj [ ("firstname", firstName);
                    ("lastname", lastName);
                    ("email", email);
                    ("phone", phone);
                    ("hubspot_owner_id", ownerId);
                    ("candidate_experience", candidateExperience);
                    ("candidate_date_of_joining", candidateDateOfJoining);
                    ("candidate_name", candidateName);
                    ("candidate_past_company", candidatePastCompany) ]) ]).

(** The [inputs] array of [batchCreateContacts]. *)
Fixpoint batch_inputs (contactsData : list jsval) : M (list jsval) :=
  match contactsData with
  | [] => ret []
  | contactData :: rest =>
      input <- batch_input contactData ;;
      inputs <- batch_inputs rest ;;
      ret (input :: inputs)
  end.

Definition batchCreateContacts (contactsData : list jsval) : M obj :=
  try_catch
    (inputs <- batch_inputs contactsData ;;
     base <- get_baseUrl ;;
     url0 <- text base ;;
     response <-
       axios (mkRequest POST (url0 ++ endpoints_contactsBatch ++ lit "/create")
                (JObj [("inputs", JArr inputs)])) ;;
     results <- (rs_data response).["results"] ;;
     _ <- results.["length"] ;;
     ret [ ("success", JBool true);
           ("contacts", results) ])
    (fun error => throw (service_failure error)).

(* ================================================================== *)
(** * PropertiesService *)

Definition property_definition (name label description type fieldType : string)
    : obj :=
  [ ("name", JStr (lit name));
    ("label", JStr (lit label));
    ("description", JStr (lit description));
    ("groupName", JStr (lit "contactinformation"));
    ("type", JStr (lit type));
    ("fieldType", JStr (lit fieldType)) ].

(** The four custom properties, in catalog order. *)
Definition getCustomPropertiesDefinitions : list obj :=
  [ property_definition "candidate_experience" "Candidate Experience"
      "Years of professional experience" "number" "number";
    property_definition "candidate_date_of_joining" "Candidate Date of Joining"
      "Expected or actual date of joining" "date" "date";
    property_definition "candidate_name" "Candidate Name"
      "Full name of the candidate" "string" "text";
    property_definition "candidate_past_company" "Candidate Past Company"
      "Previous company or current employer" "string" "text" ].

(** The template literal [`... ${propertyDefinition.name}`] of the log
    lines: the property is read and converted to a string. *)
Definition name_in_log (propertyDefinition : jsval) : M unit :=
  name <- propertyDefinition.["name"] ;;
  _ <- text name ;;
  ret tt.

(** The value [createProperty] returns on a conflict. *)
Definition already_exists (name : jsval) : jsval :=
  JObj [ ("name", name); ("status", JStr (lit "already_exists")) ].

Definition createProperty (propertyDefinition : jsval) : M jsval :=
  try_catch
    (name_in_log propertyDefinition ;;;
     base <- get_baseUrl ;;
     url0 <- text base ;;
     response <-
       axios (mkRequest POST (url0 ++ endpoints_properties)
                propertyDefinition) ;;
     name_in_log propertyDefinition ;;;
     _ <- (rs_data response).["name"] ;;
     _ <- (rs_data response).["label"] ;;
     _ <- (rs_data response).["type"] ;;
     ret (rs_data response))
    (fun error =>
       if bool_decide (exn_status error = Some 409)
       then
         name_in_log propertyDefinition ;;;
         name <- propertyDefinition.["name"] ;;
         ret (already_exists name)
       else
         name_in_log propertyDefinition ;;;
         throw error).

(** The loop of [createAllCustomProperties]: every definition is tried,
    and a result is pushed whether the creation returned or threw.  The
    pause after a success only takes time. *)
Fixpoint create_each (properties : list obj) (results : list obj)
    : M (list obj) :=
  match properties with
  | [] => ret results
  | property :: rest =>
      results <-
        try_catch
          (result <- createProperty (JObj property) ;;
           ret (results ++
                  [[ ("name", obj_get property "name");
                     ("success", JBool true);
                     ("data", result) ]]))
          (fun error =>
             ret (results ++
                    [[ ("name", obj_get property "name");
                       ("success", JBool false);
                       ("error", exn_message error) ]])) ;;
      create_each rest results
  end.

Definition createAllCustomProperties : M (list obj) :=
  let properties := getCustomPropertiesDefinitions in
  create_each properties [].

(* ================================================================== *)
(** * Route handlers *)

(** What a handler sends: [res.status(code).json(body)]. *)
Record reply : Type := mkReply {
  status : Z;
  body : jsval
}.

Definition array_length {A} (l : list A) : jsval := JNum (Z.of_nat (length l)).

(** ** routes/properties *)

(** [results.filter(r => r.success).length] *)
Definition count_success (results : list obj) : Z :=
  Z.of_nat (length (List.filter (fun r => truthy (obj_get r "success")) results)).

(** [results.filter(r => !r.success).length] *)
Definition count_failed (results : list obj) : Z :=
  Z.of_nat
    (length (List.filter (fun r => negb (truthy (obj_get r "success"))) results)).

Definition setup_summary (results : list obj) : jsval :=
  JObj [ ("total", array_length results);
         ("successful", JNum (count_success results));
         ("failed", JNum (count_failed results)) ].

(** POST /api/properties/setup *)
Definition post_setup : M reply :=
  try_catch
    (results <- createAllCustomProperties ;;
     let failed := count_failed results in
     ret (mkReply (if 0 <? failed then 207 else 201)
            (JObj [ ("success", JBool (failed =? 0));
                    ("message",
                      JStr (lit (if failed =? 0
                                 then "All properties created successfully"
                                 else "Some properties failed to create")));
                    ("data",
                      JObj [ ("results", JArr (map JObj results));
                             ("summary", setup_summary results)
                           ]) ])))
    (fun error =>
       ret (mkReply 500
              (JObj [ ("success", JBool false);
                      ("error",
                        js_or (exn_message error)
                          (JStr (lit "Internal server error"))) ]))).

(** ** routes/contacts *)

Definition bad_request (message : jsstring) : reply :=
  mkReply 400 (JObj [ ("success", JBool false); ("error", JStr message) ]).

(** The catch block of every contact route:
    [res.status(500).json({success: false,
       error: error.error || 'Internal server error',
       details: error.details || null})]. *)
Definition server_error (error : exn) : reply :=
  mkReply 500
    (JObj [ ("success", JBool false);
            ("error",
              js_or (exn_error error) (JStr (lit "Internal server error")));
            ("details", js_or (exn_details error) JNull) ]).

(** The application's last error handler, reached when a middleware
    throws. *)
Definition global_error_handler (error : exn) : reply :=
  mkReply 500
    (JObj [ ("success", JBool false);
            ("error", JStr (lit "Internal server error"));
            ("message", exn_message error) ]).

(** [const { firstName, lastName, email } = req.body;] *)
Definition destructure_body (body : jsval)
    : result (jsval * jsval * jsval) :=
  match body with
  | JUndefined | JNull =>
      Throw (ETypeError
               (lit "Cannot destructure property 'firstName' of 'req.body' as it is "
                ++ (match body with JNull => lit "null" | _ => lit "undefined" end)
                ++ lit "."))
  | JObj o => Ok (obj_get o "firstName", obj_get o "lastName", obj_get o "email")
  | _ => Ok (JUndefined, JUndefined, JUndefined)
  end.

(** The validation middleware of the create route.  [Ok None] is
    [next()]; [Ok (Some r)] is a response sent by the middleware. *)
Definition validateContactData (body : jsval) : result (option reply) :=
  match destructure_body body with
  | Throw e => Throw e
  | Ok (firstName, lastName, email) =>
      if negb (truthy firstName) || negb (truthy lastName)
         || negb (truthy email)
      then
        Ok (Some (bad_request
          (lit "Missing required fields: firstName, lastName, and email are required")))
      else
        match email_ok email with
        | Throw e => Throw e
        | Ok false => Ok (Some (bad_request (lit "Invalid email format")))
        | Ok true => Ok None
        end
  end.

(** POST /api/contacts, after the middleware has called [next()]. *)
Definition post_contact_handler (body : jsval) : M reply :=
  try_catch
    (firstName <- body.["firstName"] ;;
     lastName <- body.["lastName"] ;;
     email <- body.["email"] ;;
     phone <- body.["phone"] ;;
     ownerId <- body.["ownerId"] ;;
     candidateExperience <- body.["candidateExperience"] ;;
     candidateDateOfJoining <- body.["candidateDateOfJoining"] ;;
     candidateName <- body.["candidateName"] ;;
     candidatePastCompany <- body.["candidatePastCompany"] ;;
     let contactData :=
       JObj [ ("firstName", firstName);
              ("lastName", lastName);
              ("email", email);
              ("phone", phone);
              ("ownerId", ownerId);
              ("candidateExperience", candidateExperience);
              ("candidateDateOfJoining", candidateDateOfJoining);
              ("candidateName", candidateName);
              ("candidatePastCompany", candidatePastCompany) ] in
     result <- createContact contactData ;;
     properties <- (obj_get result "contact").["properties"] ;;
     ret (mkReply 201
            (JObj [ ("success", JBool true);
                    ("message", JStr (lit "Contact created successfully"));
                    ("data",
                      JObj [ ("contactId", obj_get result "contactId");
                             ("properties", properties) ]) ])))
    (fun error => ret (server_error error)).

(** POST /api/contacts *)
Definition post_contact (body : jsval) : M reply :=
  match validateContactData body with
  | Throw e => ret (global_error_handler e)
  | Ok (Some r) => ret r
  | Ok None => post_contact_handler body
  end.

(** GET /api/contacts/:id *)
Definition get_contact (id : jsstring) : M reply :=
  try_catch
    (let contactId := id in
     result <- getContact contactId JNull ;;
     if negb (truthy (obj_get result "success"))
     then
       ret (mkReply 404
              (JObj [ ("success", JBool false);
                      ("error", obj_get result "error");
                      ("contactId", JStr contactId) ]))
     else
       let contact := obj_get result "contact" in
       cid <- contact.["id"] ;;
       properties <- contact.["properties"] ;;
       createdAt <- contact.["createdAt"] ;;
       updatedAt <- contact.["updatedAt"] ;;
       ret (mkReply 200
              (JObj [ ("success", JBool true);
                      ("data",
                        JObj [ ("contactId", cid);
                               ("properties", properties);
                               ("createdAt", createdAt);
                               ("updatedAt", updatedAt) ]) ])))
    (fun error => ret (server_error error)).

(** One line of the update route:
    [if (req.body.k !== undefined) updateData.k = req.body.k;] *)
Definition copy_body_field (body : jsval) (k : string) (updateData : obj)
    : M obj :=
  v <- body.[k] ;;
  ret (if is_undefined v then updateData else obj_set updateData k v).

(** The [updateData] object the update route builds from the body. *)
Definition patch_updateData (body : jsval) : M obj :=
  let updateData : obj := [] in
  updateData <- copy_body_field body "firstName" updateData ;;
  updateData <- copy_body_field body "lastName" updateData ;;
  updateData <- copy_body_field body "email" updateData ;;
  updateData <- copy_body_field body "phone" updateData ;;
  updateData <- copy_body_field body "ownerId" updateData ;;
  updateData <- copy_body_field body "candidateExperience" updateData ;;
  updateData <- copy_body_field body "candidateDateOfJoining" updateData ;;
  updateData <- copy_body_field body "candidateName" updateData ;;
  updateData <- copy_body_field body "candidatePastCompany" updateData ;;
  ret updateData.

(** PATCH /api/contacts/:id *)
Definition patch_contact (id : jsstring) (body : jsval) : M reply :=
  try_catch
    (let contactId := id in
     updateData <- patch_updateData body ;;
     invalid_email <-
       (if truthy (obj_get updateData "email")
        then
          ok <- lift (email_ok (obj_get updateData "email")) ;;
          ret (negb ok)
        else ret false) ;;
     if (invalid_email : bool)
     then ret (bad_request (lit "Invalid email format"))
     else if Z.of_nat (length (obj_keys updateData)) =? 0
     then ret (bad_request (lit "No valid fields to update provided"))
     else
       result <- updateContact contactId (JObj updateData) ;;
       properties <- (obj_get result "contact").["properties"] ;;
       ret (mkReply 200
              (JObj [ ("success", JBool true);
                      ("message", JStr (lit "Contact updated successfully"));
                      ("data",
                        JObj [ ("contactId", obj_get result "contactId");
                               ("updatedProperties",
                                 JArr (map (fun k => JStr (lit k))
                                         (obj_keys updateData)));
                               ("properties", properties) ]) ])))
    (fun error => ret (server_error error)).

(** One line of the search route:
    [if (req.query.param) filters.property = req.query.param;] *)
Definition filter_from_query (query : obj) (param property : string)
    (filters : obj) : obj :=
  if truthy (obj_get query param)
  then obj_set filters property (obj_get query param)
  else filters.

(** The [filters] object the search route builds from the query. *)
Definition search_filters (query : obj) : obj :=
  let filters : obj := [] in
  let filters := filter_from_query query "firstName" "firstname" filters in
  let filters := filter_from_query query "lastName" "lastname" filters in
  let filters := filter_from_query query "email" "email" filters in
  let filters := filter_from_query query "ownerId" "hubspot_owner_id" filters in
  let filters :=
    filter_from_query query "candidateExperience" "candidate_experience"
      filters in
  let filters :=
    filter_from_query query "candidatePastCompany" "candidate_past_company"
      filters in
  filters.

(** [parseInt(req.query.limit) || 10]: [NaN] and [0] are falsy. *)
Definition search_limit (query : obj) : result Z :=
  match parseInt_val (obj_get query "limit") with
  | Throw e => Throw e
  | Ok None => Ok 10
  | Ok (Some n) => Ok (if n =? 0 then 10 else n)
  end.

(** [contacts.map(contact => ({contactId: contact.id, ...}))] on the
    value the remote side returned; only an array has [map]. *)
Definition shape_contacts (fields : list (string * string)) (contacts : jsval)
    : result (list jsval) :=
  match contacts with
  | JArr items =>
      mapM (fun contact =>
              match mapM (fun '(out, k) =>
                            match get_field contact k with
                            | Ok v => Ok (out, v)
                            | Throw e => Throw e
                            end) fields with
              | Ok o => Ok (JObj o)
              | Throw e => Throw e
              end) items
  | _ => Throw (ETypeError (lit "result.contacts.map is not a function"))
  end.

(** GET /api/contacts *)
Definition search_contacts (query : obj) : M reply :=
  try_catch
    (limit <- lift (search_limit query) ;;
     let filters := search_filters query in
     result <- searchContacts filters (JNum limit) ;;
     contacts <-
       lift (shape_contacts
               [ ("contactId", "id"); ("properties", "properties");
                 ("createdAt", "createdAt"); ("updatedAt", "updatedAt") ]
               (obj_get result "contacts")) ;;
     ret (mkReply 200
            (JObj [ ("success", JBool true);
                    ("data",
                      JObj [ ("contacts", JArr contacts);
                             ("total", obj_get result "total");
                             ("limit", JNum limit);
                             ("filters", JObj filters) ]) ])))
    (fun error => ret (server_error error)).

(** The validation loop of the batch route.  [Some r] is the response
    sent for the first element that misses a required field. *)
Fixpoint batch_validate (contacts : list jsval) (i : Z) : M (option reply) :=
  match contacts with
  | [] => ret None
  | contact :: rest =>
      firstName <- contact.["firstName"] ;;
      lastName <- contact.["lastName"] ;;
      email <- contact.["email"] ;;
      if negb (truthy firstName) || negb (truthy lastName)
         || negb (truthy email)
      then
        ret (Some (bad_request
          (lit "Contact at index " ++ lit (pretty i)
           ++ lit " is missing required fields (firstName, lastName, email)")))
      else batch_validate rest (i + 1)
  end.

(** The elements of an array. *)
Definition array_items (v : jsval) : list jsval :=
  match v with JArr items => items | _ => [] end.

(** POST /api/contacts/batch *)
Definition post_batch (body : jsval) : M reply :=
  try_catch
    (contacts <- body.["contacts"] ;;
     if negb (truthy contacts) || negb (is_array contacts)
     then
       ret (bad_request
              (lit "Request body must contain a " ++ [34%N] ++ lit "contacts"
               ++ [34%N] ++ lit " array"))
     else
       rejected <- batch_validate (array_items contacts) 0 ;;
       match rejected with
       | Some r => ret r
       | None =>
           result <- batchCreateContacts (array_items contacts) ;;
           created <-
             lift (shape_contacts
                     [ ("contactId", "id"); ("properties", "properties") ]
                     (obj_get result "contacts")) ;;
           ret (mkReply 201
                  (JObj [ ("success", JBool true);
                          ("message",
                            JStr (lit "Contacts created successfully"));
                          ("data",
                            JObj [ ("created", array_length created);
                                   ("contacts", JArr created) ]) ]))
       end)
    (fun error => ret (server_error error)).

(* ================================================================== *)
(** * Configuration: validation of the environment *)

(** [process.env]: every value is a string. *)
Definition environment : Type := list (string * jsstring).

(** [process.env[name]] *)
Fixpoint env_get (env : environment) (name : string) : jsval :=
  match env with
  | [] => JUndefined
  | (k, v) :: env' => if String.eqb k name then JStr v else env_get env' name
  end.

(** An entry of [REQUIRED_ENV_VARS] or [OPTIONAL_ENV_VARS].  The
    validator returns the error message, or [None] for [null]. *)
Record env_var : Type := mkEnvVar {
  ev_name : string;
  ev_default : jsval;
  ev_description : jsstring;
  ev_validator : jsval -> option jsstring
}.

(** [value.length] and [value.startsWith(prefix)] on an environment
    value, which is a string whenever the validators reach them. *)
Definition string_of (value : jsval) : jsstring :=
  match value with JStr s => s | _ => [] end.

Definition is_string (value : jsval) : bool :=
  match value with JStr _ => true | _ => false end.

Definition validate_token (value : jsval) : option jsstring :=
  if negb (truthy value) then Some (lit "Token is required")
  else if negb (is_string value) then Some (lit "Token must be a string")
  else if Z.of_nat (length (string_of value)) <? 20
  then Some (lit "Token appears to be too short (minimum 20 characters)")
  else if negb (startsWith (string_of value) (lit "pat-"))
  then Some (lit "Token should start with " ++ [34%N] ++ lit "pat-" ++ [34%N]
             ++ lit " for Private App tokens")
  else None.

Definition validate_base_url (value : jsval) : option jsstring :=
  if truthy value && negb (startsWith (string_of value) (lit "https://"))
  then Some (lit "Base URL must start with https://")
  else None.

(** [port < 1 || port > 65535]; a comparison with [NaN] is false. *)
Definition port_out_of_range (port : option Z) : bool :=
  match port with
  | Some p => (p <? 1) || (65535 <? p)
  | None => false
  end.

Definition validate_port (value : jsval) : option jsstring :=
  if truthy value && isNaN (parseInt (string_of value))
  then Some (lit "Port must be a valid number")
  else
    let port := parseInt (string_of value) in
    if port_out_of_range port
    then Some (lit "Port must be between 1 and 65535")
    else None.

Definition REQUIRED_ENV_VARS : list env_var :=
  [ mkEnvVar "HUBSPOT_ACCESS_TOKEN" JUndefined
      (lit "HubSpot Private App access token") validate_token ].

Definition OPTIONAL_ENV_VARS : list env_var :=
  [ mkEnvVar "HUBSPOT_BASE_URL" (JStr (lit "https://api.hubapi.com"))
      (lit "HubSpot API base URL") validate_base_url;
    mkEnvVar "PORT" (JStr (lit "3000"))
      (lit "Server port number") validate_port ].

(** An entry of the [errors] and [warnings] arrays. *)
Record finding : Type := mkFinding {
  f_variable : string;
  f_error : jsstring;
  f_description : jsstring;
  f_default : jsval
}.

(** The state of [validateEnvironment] while it runs. *)
Record validation : Type := mkValidation {
  v_errors : list finding;
  v_warnings : list finding;
  v_config : obj
}.

(** The loop over the required variables. *)
Definition check_required (env : environment) (st : validation)
    (envVar : env_var) : validation :=
  let value := env_get env (ev_name envVar) in
  match ev_validator envVar value with
  | Some error =>
      mkValidation
        (v_errors st ++
           [mkFinding (ev_name envVar) error (ev_description envVar) JUndefined])
        (v_warnings st) (v_config st)
  | None =>
      mkValidation (v_errors st) (v_warnings st)
        (obj_set (v_config st) (ev_name envVar) value)
  end.

(** The loop over the optional variables: on a validator error a warning
    is recorded and nothing is stored in the configuration. *)
Definition check_optional (env : environment) (st : validation)
    (envVar : env_var) : validation :=
  let value := js_or (env_get env (ev_name envVar)) (ev_default envVar) in
  match ev_validator envVar value with
  | Some error =>
      mkValidation (v_errors st)
        (v_warnings st ++
           [mkFinding (ev_name envVar) error (ev_description envVar)
              (ev_default envVar)])
        (v_config st)
  | None =>
      mkValidation (v_errors st) (v_warnings st)
        (obj_set (v_config st) (ev_name envVar) value)
  end.

Definition run_validation (env : environment) : validation :=
  let st := mkValidation [] [] [] in
  let st := fold_left (check_required env) REQUIRED_ENV_VARS st in
  fold_left (check_optional env) OPTIONAL_ENV_VARS st.

(** The lines printed for the warnings: for each one the variable and
    its error, the description, and [Using default: ...] when the entry
    has a default. *)
Definition warning_lines (warnings : list finding) : list jsstring :=
  flat_map
    (fun warning =>
       [ lit "   " ++ lit (f_variable warning) ++ lit ": " ++ f_error warning;
         lit "   Description: " ++ f_description warning ]
       ++ (if truthy (f_default warning)
           then [ lit "   Using default: " ++ string_of (f_default warning) ]
           else []))
    warnings.

(** [validateEnvironment()]: the warning lines it prints, and the
    configuration it returns unless an error makes it throw. *)
Definition validateEnvironment (env : environment)
    : list jsstring * result obj :=
  let st := run_validation env in
  (warning_lines (v_warnings st),
   if 0 <? Z.of_nat (length (v_errors st))
   then
     Throw (EError (lit "Environment validation failed: "
                    ++ lit (pretty (Z.of_nat (length (v_errors st))))
                    ++ lit " error(s) found"))
   else Ok (v_config st)).

(** The exported configuration object, as far as it depends on the
    environment.  [cfg_port] is [None] for [NaN]. *)
Record config : Type := mkConfig {
  cfg_accessToken : jsval;
  cfg_baseUrl : jsval;
  cfg_port : option Z
}.

(** Loading the configuration module: the environment is validated and
    the configuration is built from what the validation returned. *)
Definition load_config (env : environment) : list jsstring * result config :=
  match validateEnvironment env with
  | (printed, Throw e) => (printed, Throw e)
  | (printed, Ok envConfig) =>
      (printed,
       match parseInt_val (obj_get envConfig "PORT") with
       | Throw e => Throw e
       | Ok port =>
           Ok (mkConfig (obj_get envConfig "HUBSPOT_ACCESS_TOKEN")
                 (obj_get envConfig "HUBSPOT_BASE_URL") port)
       end)
  end.

(* ================================================================== *)
(** * The vocabulary of the specification *)

(** The fixed renaming of the field mapper: application name, remote
    property name. *)
Definition field_renaming : list (string * string) :=
  [ ("firstName", "firstname");
    ("lastName", "lastname");
    ("email", "email");
    ("phone", "phone");
    ("ownerId", "hubspot_owner_id");
    ("candidateExperience", "candidate_experience");
    ("candidateDateOfJoining", "candidate_date_of_joining");
    ("candidateName", "candidate_name");
    ("candidatePastCompany", "candidate_past_company") ].

(** What [JSON.stringify] keeps of an object on the wire: a property
    whose value is [undefined] is left out. *)
Definition on_the_wire (o : obj) : obj :=
  List.filter (fun kv => negb (is_undefined (snd kv))) o.

(** A value the create mapping drops. *)
Definition is_blank (v : jsval) : bool :=
  is_undefined v || is_null v || is_empty_string v.

(** What stripping leaves of a binding. *)
Definition kept (b : option jsval) : option jsval :=
  match b with
  | Some v => if is_blank v then None else Some v
  | None => None
  end.

(** The application name a remote property name stands for. *)
Definition renamed_from (property : string) : option string :=
  option_map fst
    (find (fun ft => String.eqb (snd ft) property) field_renaming).

(** The query parameters the search route recognizes, and the property
    each one filters on. *)
Definition search_params : list (string * string) :=
  [ ("firstName", "firstname");
    ("lastName", "lastname");
    ("email", "email");
    ("ownerId", "hubspot_owner_id");
    ("candidateExperience", "candidate_experience");
    ("candidatePastCompany", "candidate_past_company") ].

(** An equality predicate of a search. *)
Definition eq_predicate (property : string) (value_text : jsstring) : jsval :=
  JObj [ ("propertyName", JStr (lit property));
         ("operator", JStr (lit "EQ"));
         ("value", JStr value_text) ].

(** The predicate of a recognized parameter: its property, the operator
    [EQ], the value in string form. *)
Definition predicate_for (query : obj) (pp : string * string) : result jsval :=
  match call_toString (obj_get query (fst pp)) with
  | Ok t => Ok (eq_predicate (snd pp) t)
  | Throw e => Throw e
  end.

(** The recognized parameters of a query that have a non-empty (truthy)
    value, in the order of [search_params]. *)
Definition present_params (query : obj) : list (string * string) :=
  List.filter (fun pp : string * string => truthy (obj_get query (fst pp)))
    search_params.

(** One predicate per recognized parameter with a non-empty value. *)
Definition expected_predicates (query : obj) : result (list jsval) :=
  mapM (predicate_for query) (present_params query).

(** The [filterGroups] array for a list of predicates: no group when
    there is no predicate, one group otherwise. *)
Definition filter_groups (predicates : list jsval) : list jsval :=
  match predicates with
  | [] => []
  | _ :: _ => [JObj [("filters", JArr predicates)]]
  end.

(** What the nine conditional copies of an update leave under a key,
    given the field the key stands for. *)
Definition copied (u : obj) (from : option string) : option jsval :=
  match from with
  | Some from =>
      if is_undefined (obj_get u from) then None else Some (obj_get u from)
  | None => None
  end.

(** The recognized field a key of the update data stands for. *)
Definition recognized (k : string) : option string :=
  find (fun name => String.eqb name k) (map fst field_renaming).

(** The result pushed for a catalog entry, from the outcome of its
    [createProperty]. *)
Definition item_result (property : obj) (r : result jsval) : obj :=
  match r with
  | Ok data =>
      [ ("name", obj_get property "name"); ("success", JBool true);
        ("data", data) ]
  | Throw error =>
      [ ("name", obj_get property "name"); ("success", JBool false);
        ("error", exn_message error) ]
  end.

(** The request [createProperty] makes for a definition. *)
Definition property_request (url0 : jsstring) (definition : jsval) : request :=
  mkRequest POST (url0 ++ endpoints_properties) definition.

(** The request [getContact] makes with the default property list. *)
Definition contact_request (url0 id : jsstring) : request :=
  mkRequest GET
    ((url0 ++ endpoints_contacts ++ lit "/" ++ id) ++ lit "?properties="
     ++ lit "firstname,lastname,email,phone,hubspot_owner_id,candidate_experience,candidate_date_of_joining,candidate_name,candidate_past_company")
    JUndefined.

(** The status a route answered with. *)
Definition status_of (run : result reply * world) : option Z :=
  match fst run with
  | Ok r => Some (status r)
  | Throw _ => None
  end.

(** The remote side reports a conflict. *)
Definition is_conflict (o : outcome) : Prop :=
  exists e r, o = Rejected e /\ ae_response e = Some r /\ rs_status r = 409.

(** The remote side accepted the request or reported a conflict: in
    both cases the property exists afterwards. *)
Definition accepted_or_conflict (o : outcome) : Prop :=
  (exists r, o = Resolved r) \/ is_conflict o.

(** What [createProperty] returns for a definition with a string name,
    from the answer of the remote side. *)
Definition property_outcome (name : jsstring) (o : outcome) : result jsval :=
  match o with
  | Resolved r =>
      match get_field (rs_data r) "name" with
      | Ok _ => Ok (rs_data r)
      | Throw e => Throw e
      end
  | Rejected e =>
      if bool_decide (exn_status (EAxios e) = Some 409)
      then Ok (already_exists (JStr name))
      else Throw (EAxios e)
  end.

(** The world after [createProperty] has been tried on a definition:
    the request is made unless the base URL has no string form. *)
Definition after_attempt (w : world) (definition : obj) : world :=
  match to_string (baseUrl w) with
  | Ok url0 => record_call w (property_request url0 (JObj definition))
  | Throw _ => w
  end.

(** A definition whose name is a string. *)
Definition named (definition : obj) : Prop :=
  exists name, obj_get definition "name" = JStr name.

(** The results pushed for a list of definitions, from the outcomes of
    their creations. *)
Definition items (definitions : list obj) (outcomes : list (result jsval))
    : list obj :=
  map (fun dr => item_result (fst dr) (snd dr)) (combine definitions outcomes).

(** The check of the batch route on one element: [None] when reading
    the element throws. *)
Definition required_fields_present (contact : jsval) : option bool :=
  match contact with
  | JUndefined | JNull => None
  | JObj o =>
      Some (truthy (obj_get o "firstName") && truthy (obj_get o "lastName")
            && truthy (obj_get o "email"))
  | _ => Some false
  end.

(** The three values the validation of the environment looks at. *)
Definition token_value (env : environment) : jsval :=
  env_get env "HUBSPOT_ACCESS_TOKEN".

Definition base_url_value (env : environment) : jsval :=
  js_or (env_get env "HUBSPOT_BASE_URL") (JStr (lit "https://api.hubapi.com")).

Definition port_value (env : environment) : jsval :=
  js_or (env_get env "PORT") (JStr (lit "3000")).

(* ================================================================== *)
(** * Example worlds *)

Definition api_base : jsval := JStr (lit "https://api.hubapi.com").

(** A remote side that accepts every request. *)
Definition accepting_remote (hist : list request) (rq : request) : outcome :=
  Resolved
    (mkResponse 200
       (JObj [ ("id", JStr (lit "101"));
               ("properties", JObj []);
               ("results", JArr []);
               ("total", JNum 0) ])).

(** A remote side that refuses every request with the given status. *)
Definition refusing_remote (code : Z) (hist : list request) (rq : request)
    : outcome :=
  Rejected
    (mkAxiosError (lit "Request failed with status code " ++ lit (pretty code))
       (Some (mkResponse code (JObj [ ("status", JStr (lit "error")) ])))).

(** The [name] of a posted definition. *)
Definition posted_name (rq : request) : jsstring :=
  match rq_body rq with
  | JObj o => string_of (obj_get o "name")
  | _ => []
  end.

(** A remote schema: a definition is created unless one of the same
    name was posted before, which is a conflict. *)
Definition schema_remote (hist : list request) (rq : request) : outcome :=
  if existsb (fun past => bool_decide (posted_name past = posted_name rq)) hist
  then
    Rejected
      (mkAxiosError (lit "Request failed with status code 409")
         (Some (mkResponse 409 (JObj [ ("category", JStr (lit "OBJECT_ALREADY_EXISTS")) ]))))
  else Resolved (mkResponse 201 (rq_body rq)).

(** A remote schema that is down for one property name. *)
Definition flaky_remote (broken : jsstring) (hist : list request)
    (rq : request) : outcome :=
  if bool_decide (posted_name rq = broken)
  then refusing_remote 500 hist rq
  else schema_remote hist rq.

Definition world_of (r : list request -> request -> outcome) : world :=
  mkWorld api_base r [].

(** ** Example inputs *)

Definition str (s : string) : jsval := JStr (lit s).

(** The first entry of the catalog. *)
Definition catalog_entry : obj :=
  property_definition "candidate_experience" "Candidate Experience"
    "Years of professional experience" "number" "number".

(** A contact whose phone is the empty string. *)
Definition contact_with_empty_phone : jsval :=
  JObj [ ("firstName", str "A"); ("lastName", str "B");
         ("email", str "a@b.co"); ("phone", JStr []) ].

(** A contact whose email has no [@]. *)
Definition contact_with_bad_email : jsval :=
  JObj [ ("firstName", str "A"); ("lastName", str "B");
         ("email", str "not-an-email") ].

(** An environment with a valid token, a base URL that is not HTTPS and
    a port that is not a number. *)
Definition env_with_bad_optionals : environment :=
  [ ("HUBSPOT_ACCESS_TOKEN", lit "pat-na1-0123456789abcdef");
    ("HUBSPOT_BASE_URL", lit "http://api.hubapi.com");
    ("PORT", lit "abc") ].

(** A search query with one filled parameter, one empty parameter and a
    limit of zero. *)
Definition sample_query : obj :=
  [ ("firstName", str "Al"); ("email", JStr []); ("limit", str "0") ].

(* ================================================================== *)
(** * The rest of the services, routes and scripts *)

(** ** HubSpotService.deleteContact *)

Definition deleteContact (contactId : jsstring) : M obj :=
  try_catch
    (base <- get_baseUrl ;;
     url0 <- text base ;;
     _ <- axios (mkRequest DELETE
                   (url0 ++ endpoints_contacts ++ lit "/" ++ contactId)
                   JUndefined) ;;
     ret [ ("success", JBool true);
           ("contactId", JStr contactId) ])
    (fun error => throw (service_failure error)).

(** DELETE /api/contacts/:id *)
Definition delete_contact (id : jsstring) : M reply :=
  try_catch
    (let contactId := id in
     result <- deleteContact contactId ;;
     ret (mkReply 200
            (JObj [ ("success", JBool true);
                    ("message", JStr (lit "Contact deleted successfully"));
                    ("contactId", obj_get result "contactId") ])))
    (fun error => ret (server_error error)).

(** ** PropertiesService.getProperty and checkPropertiesExist *)

Definition getProperty (propertyName : jsval) : M jsval :=
  try_catch
    (base <- get_baseUrl ;;
     url0 <- text base ;;
     name <- text propertyName ;;
     response <-
       axios (mkRequest GET (url0 ++ endpoints_properties ++ lit "/" ++ name)
                JUndefined) ;;
     ret (rs_data response))
    (fun error =>
       if bool_decide (exn_status error = Some 404)
       then ret JNull
       else throw error).

(** The loop of [checkPropertiesExist]: [exists: !!exists] on what
    [getProperty] returned, [exists: false] with the message when it
    threw. *)
Fixpoint check_each (properties : list obj) (results : list obj)
    : M (list obj) :=
  match properties with
  | [] => ret results
  | property :: rest =>
      results <-
        try_catch
          (found <- getProperty (obj_get property "name") ;;
           ret (results ++
                  [[ ("name", obj_get property "name");
                     ("exists", JBool (truthy found));
                     ("data", found) ]]))
          (fun error =>
             ret (results ++
                    [[ ("name", obj_get property "name");
                       ("exists", JBool false);
                       ("error", exn_message error) ]])) ;;
      check_each rest results
  end.

Definition checkPropertiesExist : M (list obj) :=
  let properties := getCustomPropertiesDefinitions in
  check_each properties [].

(** ** routes/properties *)

(** The catch block of the property routes:
    [res.status(500).json({success: false,
       error: error.message || 'Internal server error'})]. *)
Definition properties_error (error : exn) : reply :=
  mkReply 500
    (JObj [ ("success", JBool false);
            ("error",
              js_or (exn_message error)
                (JStr (lit "Internal server error"))) ]).

(** [properties.filter(p => p.exists).length] *)
Definition count_existing (properties : list obj) : Z :=
  Z.of_nat
    (length (List.filter (fun p => truthy (obj_get p "exists")) properties)).

(** [properties.filter(p => !p.exists).length] *)
Definition count_missing (properties : list obj) : Z :=
  Z.of_nat
    (length
       (List.filter (fun p => negb (truthy (obj_get p "exists"))) properties)).

(** GET /api/properties *)
Definition get_properties : M reply :=
  try_catch
    (properties <- checkPropertiesExist ;;
     ret (mkReply 200
            (JObj [ ("success", JBool true);
                    ("data",
                      JObj [ ("properties", JArr (map JObj properties));
                             ("summary",
                               JObj [ ("total", array_length properties);
                                      ("existing",
                                        JNum (count_existing properties));
                                      ("missing",
                                        JNum (count_missing properties)) ])
                           ]) ])))
    (fun error => ret (properties_error error)).

(** The six fields the creation route takes from the body. *)
Record property_fields : Type := mkPropertyFields {
  pf_name : jsval;
  pf_label : jsval;
  pf_type : jsval;
  pf_fieldType : jsval;
  pf_description : jsval;
  pf_groupName : jsval
}.

(** [const { name, label, type, fieldType, description, groupName } =
    req.body;] *)
Definition destructure_property (body : jsval) : result property_fields :=
  match body with
  | JUndefined | JNull =>
      Throw (ETypeError
               (lit "Cannot destructure property 'name' of 'req.body' as it is "
                ++ (match body with JNull => lit "null" | _ => lit "undefined" end)
                ++ lit "."))
  | JObj o =>
      Ok (mkPropertyFields (obj_get o "name") (obj_get o "label")
            (obj_get o "type") (obj_get o "fieldType")
            (obj_get o "description") (obj_get o "groupName"))
  | _ =>
      Ok (mkPropertyFields JUndefined JUndefined JUndefined JUndefined
            JUndefined JUndefined)
  end.

(** [v === 'literal'] *)
Definition is_literal (v : jsval) (s : string) : bool :=
  match v with
  | JStr t => bool_decide (t = lit s)
  | _ => false
  end.

(** The definition the creation route builds:
    [fieldType || (type === 'string' ? 'text' : type)],
    [description || `Custom property: ${label}`],
    [groupName || 'contactinformation']. *)
Definition build_definition (f : property_fields) : M jsval :=
  let fieldType :=
    js_or (pf_fieldType f)
      (if is_literal (pf_type f) "string" then JStr (lit "text")
       else pf_type f) in
  description <-
    (if truthy (pf_description f) then ret (pf_description f)
     else
       label_text <- text (pf_label f) ;;
       ret (JStr (lit "Custom property: " ++ label_text))) ;;
  let groupName := js_or (pf_groupName f) (JStr (lit "contactinformation")) in
  ret (JObj [ ("name", pf_name f);
              ("label", pf_label f);
              ("type", pf_type f);
              ("fieldType", fieldType);
              ("description", description);
              ("groupName", groupName) ]).

(** POST /api/properties *)
Definition post_property (body : jsval) : M reply :=
  try_catch
    (f <- lift (destructure_property body) ;;
     if negb (truthy (pf_name f)) || negb (truthy (pf_label f))
        || negb (truthy (pf_type f))
     then
       ret (bad_request
              (lit "Missing required fields: name, label, and type are required"))
     else
       propertyDefinition <- build_definition f ;;
       result <- createProperty propertyDefinition ;;
       ret (mkReply 201
              (JObj [ ("success", JBool true);
                      ("message",
                        JStr (lit "Custom property created successfully"));
                      ("data", result) ])))
    (fun error => ret (properties_error error)).

(** GET /api/properties/:name *)
Definition get_property (name : jsstring) : M reply :=
  try_catch
    (let propertyName := JStr name in
     property <- getProperty propertyName ;;
     if negb (truthy property)
     then
       ret (mkReply 404
              (JObj [ ("success", JBool false);
                      ("error", JStr (lit "Property not found"));
                      ("propertyName", propertyName) ]))
     else
       ret (mkReply 200
              (JObj [ ("success", JBool true);
                      ("data", property) ])))
    (fun error => ret (properties_error error)).

(** ** setup.js *)

(** [setupCustomProperties()]: the code the process exits with. *)
Definition setupCustomProperties : M Z :=
  try_catch
    (_ <- checkPropertiesExist ;;
     results <- createAllCustomProperties ;;
     if 0 <? count_failed results then ret 1 else ret 0)
    (fun _ => ret 1).

(** ** config.validate *)

(** [config.validate()], the runtime check of the configuration. *)
Definition config_validate (cfg : config) : result bool :=
  if negb (truthy (cfg_accessToken cfg))
  then
    Throw (EError (lit "Configuration error: HubSpot access token is missing"))
  else
    match cfg_baseUrl cfg with
    | JUndefined =>
        Throw (ETypeError
                 (lit "Cannot read properties of undefined (reading 'startsWith')"))
    | JNull =>
        Throw (ETypeError
                 (lit "Cannot read properties of null (reading 'startsWith')"))
    | JStr s =>
        if negb (startsWith s (lit "https://"))
        then
          Throw (EError (lit "Configuration error: Base URL must use HTTPS"))
        else Ok true
    | _ =>
        Throw (ETypeError (lit "config.baseUrl.startsWith is not a function"))
    end.

(* ================================================================== *)
(** * More vocabulary *)

(** The language of a regular expression. *)
Inductive matches : regex -> jsstring -> Prop :=
  | MEps : matches REps []
  | MClass (p : N -> bool) (c : N) : p c = true -> matches (RClass p) [c]
  | MCat (r1 r2 : regex) (s1 s2 : jsstring) :
      matches r1 s1 -> matches r2 s2 -> matches (RCat r1 r2) (s1 ++ s2)
  | MAltL (r1 r2 : regex) (s : jsstring) :
      matches r1 s -> matches (RAlt r1 r2) s
  | MAltR (r1 r2 : regex) (s : jsstring) :
      matches r2 s -> matches (RAlt r1 r2) s
  | MStarNil (r : regex) : matches (RStar r) []
  | MStarApp (r : regex) (s1 s2 : jsstring) :
      matches r s1 -> matches (RStar r) s2 -> matches (RStar r) (s1 ++ s2).

(** A non-empty run of code units that are neither white space nor [@]. *)
Definition email_part (s : jsstring) : Prop :=
  s <> [] /\ forallb not_space_or_at s = true.

(** [local@domain.tld] *)
Definition email_shape (s : jsstring) : Prop :=
  exists a b c,
    s = a ++ lit "@" ++ b ++ lit "." ++ c
    /\ email_part a /\ email_part b /\ email_part c.

(** The nine-key literal of the create mapping, on an object. *)
Definition mapped_of (o : obj) : obj :=
  [ ("firstname", obj_get o "firstName");
    ("lastname", obj_get o "lastName");
    ("email", obj_get o "email");
    ("phone", obj_get o "phone");
    ("hubspot_owner_id", obj_get o "ownerId");
    ("candidate_experience", obj_get o "candidateExperience");
    ("candidate_date_of_joining", obj_get o "candidateDateOfJoining");
    ("candidate_name", obj_get o "candidateName");
    ("candidate_past_company", obj_get o "candidatePastCompany") ].

(** The bindings of an object whose value is not blank, in order. *)
Definition without_blanks (o : obj) : obj :=
  List.filter (fun kv => negb (is_blank (snd kv))) o.

(** The request the create route makes for a body. *)
Definition create_request (url0 : jsstring) (o : obj) : request :=
  mkRequest POST (url0 ++ endpoints_contacts)
    (JObj [("properties", JObj (without_blanks (mapped_of o)))]).

(** The create validation passes: the three required fields are truthy
    and the email matches the pattern. *)
Definition valid_contact (o : obj) : Prop :=
  truthy (obj_get o "firstName") = true
  /\ truthy (obj_get o "lastName") = true
  /\ truthy (obj_get o "email") = true
  /\ email_ok (obj_get o "email") = Ok true.

(** The entries of a filters object that [searchContacts] turns into
    predicates: the value is neither [undefined] nor [null]. *)
Definition defined_entries (filters : obj) : list (string * jsval) :=
  List.filter
    (fun kv => negb (is_undefined (snd kv)) && negb (is_null (snd kv)))
    filters.

(** The predicate [searchContacts] pushes for an entry. *)
Definition entry_predicate (kv : string * jsval) : result jsval :=
  match call_toString (snd kv) with
  | Ok t => Ok (eq_predicate (fst kv) t)
  | Throw e => Throw e
  end.

(** The keys a search query is read at. *)
Definition search_keys : list string :=
  map fst search_params ++ ["limit"].

(** The request [getProperty] makes. *)
Definition lookup_request (url0 name : jsstring) : request :=
  mkRequest GET (url0 ++ endpoints_properties ++ lit "/" ++ name) JUndefined.

(** The request [deleteContact] makes. *)
Definition delete_request (url0 id : jsstring) : request :=
  mkRequest DELETE (url0 ++ endpoints_contacts ++ lit "/" ++ id) JUndefined.

(** The result [checkPropertiesExist] pushes for a catalog entry, from
    the outcome of its [getProperty]. *)
Definition probe_result (property : obj) (r : result jsval) : obj :=
  match r with
  | Ok found =>
      [ ("name", obj_get property "name");
        ("exists", JBool (truthy found));
        ("data", found) ]
  | Throw error =>
      [ ("name", obj_get property "name");
        ("exists", JBool false);
        ("error", exn_message error) ]
  end.

(** The world after [getProperty] has been tried on a definition. *)
Definition after_probe (w : world) (definition : obj) : world :=
  match to_string (baseUrl w) with
  | Ok url0 =>
      record_call w (lookup_request url0 (string_of (obj_get definition "name")))
  | Throw _ => w
  end.

(** A remote side where nothing exists: every read is a 404. *)
Definition empty_remote : list request -> request -> outcome :=
  refusing_remote 404.

(** The [contactData] object the create route builds from a body. *)
Definition contactData_of (o : obj) : jsval :=
  JObj [ ("firstName", obj_get o "firstName");
         ("lastName", obj_get o "lastName");
         ("email", obj_get o "email");
         ("phone", obj_get o "phone");
         ("ownerId", obj_get o "ownerId");
         ("candidateExperience", obj_get o "candidateExperience");
         ("candidateDateOfJoining", obj_get o "candidateDateOfJoining");
         ("candidateName", obj_get o "candidateName");
         ("candidatePastCompany", obj_get o "candidatePastCompany") ].

(** What the create route answers, from the answer of the remote side. *)
Definition create_reply (o : outcome) : reply :=
  match o with
  | Rejected e => server_error (service_failure (EAxios e))
  | Resolved r =>
      match get_field (rs_data r) "id", get_field (rs_data r) "properties" with
      | Ok id, Ok properties =>
          mkReply 201
            (JObj [ ("success", JBool true);
                    ("message", JStr (lit "Contact created successfully"));
                    ("data",
                      JObj [ ("contactId", id);
                             ("properties", properties) ]) ])
      | Throw e, _ => server_error (service_failure e)
      | _, Throw e => server_error (service_failure e)
      end
  end.

(** What [getProperty] returns, from the answer of the remote side. *)
Definition probe_outcome (o : outcome) : result jsval :=
  match o with
  | Resolved r => Ok (rs_data r)
  | Rejected e =>
      if bool_decide (exn_status (EAxios e) = Some 404)
      then Ok JNull
      else Throw (EAxios e)
  end.

(** The results pushed for a list of definitions, from the outcomes of
    their probes. *)
Definition probes (definitions : list obj) (outcomes : list (result jsval))
    : list obj :=
  map (fun dr => probe_result (fst dr) (snd dr)) (combine definitions outcomes).

(** The definition the creation route sends for a body whose name, label
    and type are the strings [n], [l] and [t]. *)
Definition built_definition (n l t : jsstring) (o : obj) : obj :=
  [ ("name", JStr n);
    ("label", JStr l);
    ("type", JStr t);
    ("fieldType",
      js_or (obj_get o "fieldType")
        (if bool_decide (t = lit "string") then JStr (lit "text") else JStr t));
    ("description",
      js_or (obj_get o "description") (JStr (lit "Custom property: " ++ l)));
    ("groupName",
      js_or (obj_get o "groupName") (JStr (lit "contactinformation"))) ].

(** A body of the creation route with only the three required fields. *)
Definition minimal_property_body : obj :=
  [ ("name", str "team"); ("label", str "Team"); ("type", str "string") ].

(** A contact of a search result, as the search route returns it. *)
Definition search_hit (contact : obj) : jsval :=
  JObj [ ("contactId", obj_get contact "id");
         ("properties", obj_get contact "properties");
         ("createdAt", obj_get contact "createdAt");
         ("updatedAt", obj_get contact "updatedAt") ].

(** The request [searchContacts] makes. *)
Definition search_request (url0 : jsstring) (predicates : list jsval)
    (limit : jsval) : request :=
  mkRequest POST (url0 ++ endpoints_contactsSearch)
    (JObj [ ("filterGroups", JArr (filter_groups predicates));
            ("properties", JArr defaultProps);
            ("limit", limit) ]).

(** The input [batchCreateContacts] builds for an element. *)
Definition batch_entry (o : obj) : jsval :=
  JObj [("properties", JObj (mapped_of o))].

(** A query with a parameter the search route does not read. *)
Definition query_with_phone : obj :=
  [ ("firstName", str "Al"); ("phone", str "555"); ("sort", str "asc") ].

(** The nine recognized fields of a body, under their own names. *)
Definition body_fields (o : obj) : obj :=
  map (fun k => (k, obj_get o k)) (map fst field_renaming).

(** One conditional copy: [if (v !== undefined) target.k = v;] *)
Definition copy_defined (target : obj) (kv : string * jsval) : obj :=
  if is_undefined (snd kv) then target else obj_set target (fst kv) (snd kv).

(** The request the update route makes for a body. *)
Definition update_request (url0 id : jsstring) (o : obj) : request :=
  mkRequest PATCH (url0 ++ endpoints_contacts ++ lit "/" ++ id)
    (JObj [("properties", JObj (on_the_wire (mapped_of o)))]).

(** The request the batch route makes for its elements. *)
Definition batch_request (url0 : jsstring) (elements : list obj) : request :=
  mkRequest POST (url0 ++ endpoints_contactsBatch ++ lit "/create")
    (JObj [("inputs", JArr (map batch_entry elements))]).

(** A created contact, as the batch route returns it. *)
Definition created_contact (contact : obj) : jsval :=
  JObj [ ("contactId", obj_get contact "id");
         ("properties", obj_get contact "properties") ].

(** The message of the batch route for the element at an index. *)
Definition missing_at (i : Z) : jsstring :=
  lit "Contact at index " ++ lit (pretty i)
  ++ lit " is missing required fields (firstName, lastName, email)".

(** An environment with a valid token and a port of its own. *)
Definition env_with_port : environment :=
  [ ("HUBSPOT_ACCESS_TOKEN", lit "pat-na1-0123456789abcdef");
    ("PORT", lit "8080") ].

(** An environment with a valid token and empty optional settings. *)
Definition env_with_empty_optionals : environment :=
  [ ("HUBSPOT_ACCESS_TOKEN", lit "pat-na1-0123456789abcdef");
    ("HUBSPOT_BASE_URL", []);
    ("PORT", []) ].

(** The request [getContact] makes when it is given property names. *)
Definition read_request (url0 id : jsstring) (names : list jsstring) : request :=
  mkRequest GET
    ((url0 ++ endpoints_contacts ++ lit "/" ++ id)
     ++ lit "?properties=" ++ join (lit ",") names)
    JUndefined.

(** The result the provisioning pushes for a definition, from what the
    remote side answered to its creation request: a created property is
    a success with the remote data, a property that exists already (409)
    a success tagged [already_exists], anything else a failure with the
    error's message. *)
Definition provisioning_result (definition : obj) (o : outcome) : obj :=
  match o with
  | Resolved r =>
      match get_field (rs_data r) "name" with
      | Ok _ =>
          [ ("name", obj_get definition "name");
            ("success", JBool true);
            ("data", rs_data r) ]
      | Throw e =>
          [ ("name", obj_get definition "name");
            ("success", JBool false);
            ("error", exn_message e) ]
      end
  | Rejected e =>
      if bool_decide (option_map rs_status (ae_response e) = Some 409)
      then
        [ ("name", obj_get definition "name");
          ("success", JBool true);
          ("data",
            JObj [ ("name", obj_get definition "name");
                   ("status", JStr (lit "already_exists")) ]) ]
      else
        [ ("name", obj_get definition "name");
          ("success", JBool false);
          ("error", JStr (ae_message e)) ]
  end.

(** The results of provisioning a list of definitions one after the
    other: each definition is posted to the remote side as it is after
    the requests before it. *)
Fixpoint provisioning_results (url0 : jsstring) (w : world)
    (definitions : list obj) : list obj :=
  match definitions with
  | [] => []
  | definition :: rest =>
      let rq := property_request url0 (JObj definition) in
      provisioning_result definition (remote w (calls w) rq)
      :: provisioning_results url0 (record_call w rq) rest
  end.

(** The number of results whose success flag is the given boolean. *)
Definition flagged (b : bool) (results : list obj) : Z :=
  Z.of_nat
    (length
       (List.filter
          (fun r =>
             match obj_get r "success" with
             | JBool b' => Bool.eqb b b'
             | _ => false
             end)
          results)).

(** The text [getContact] puts after [?properties=]: the string form of
    the [properties] argument (for an array, its elements joined by
    commas), or the nine default names when the argument is missing or
    falsy. *)
Definition requested_properties (properties : jsval) : result jsstring :=
  if truthy properties then to_string properties
  else
    Ok (lit "firstname,lastname,email,phone,hubspot_owner_id,candidate_experience,candidate_date_of_joining,candidate_name,candidate_past_company").

(** The limit a search uses, from what the supplied limit parses to: a
    limit that is not a number or is 0 is replaced by 10. *)
Definition effective_limit (parsed : option Z) : Z :=
  match parsed with
  | Some n => if n =? 0 then 10 else n
  | None => 10
  end.

(** The parsed limit is [NaN] or a finite number. *)
Definition finite_limit (parsed : option Z) : Prop :=
  match parsed with
  | Some n => Z.abs n < 2 ^ 1024
  | None => True
  end.

(** The filters a search applies: each recognized parameter with a
    non-empty value, under the name of its property. *)
Definition applied_filters (query : obj) : obj :=
  map (fun pp : string * string => (snd pp, obj_get query (fst pp)))
    (present_params query).

(* ================================================================== *)
(** * Objects: lookup after update and deletion *)

Lemma obj_lookup_set (o : obj) (k k' : string) (v : jsval) :
  obj_lookup (obj_set o k v) k' =
  if String.eqb k k' then Some v else obj_lookup o k'.
Proof.
  induction o as [|[k0 v0] o IH]; simpl.
  - reflexivity.
  - destruct (String.eqb k0 k) eqn:E0; simpl.
    + apply String.eqb_eq in E0. subst k0.
      destruct (String.eqb k k'); reflexivity.
    + rewrite IH. destruct (String.eqb k0 k') eqn:E1; [|reflexivity].
      apply String.eqb_eq in E1. subst k0.
      rewrite String.eqb_sym, E0. reflexivity.
Qed.

Lemma obj_lookup_delete (o : obj) (k k' : string) :
  obj_lookup (obj_delete o k) k' =
  if String.eqb k k' then None else obj_lookup o k'.
Proof.
  induction o as [|[k0 v0] o IH]; simpl.
  - destruct (String.eqb k k'); reflexivity.
  - destruct (String.eqb k0 k) eqn:E0; simpl.
    + rewrite IH. apply String.eqb_eq in E0. subst k0.
      destruct (String.eqb k k'); reflexivity.
    + rewrite IH. destruct (String.eqb k0 k') eqn:E1; [|reflexivity].
      apply String.eqb_eq in E1. subst k0.
      rewrite String.eqb_sym, E0. reflexivity.
Qed.

Lemma obj_keys_lookup (o : obj) (k : string) :
  In k (obj_keys o) <-> obj_lookup o k <> None.
Proof.
  induction o as [|[k0 v0] o IH]; simpl.
  - split; [tauto | congruence].
  - destruct (String.eqb k0 k) eqn:E.
    + apply String.eqb_eq in E. split; [congruence | auto].
    + apply String.eqb_neq in E. rewrite <- IH. tauto.
Qed.

Lemma is_blank_false (v : jsval) :
  is_blank v = false <-> v <> JUndefined /\ v <> JNull /\ v <> JStr [].
Proof.
  unfold is_blank.
  destruct v as [| |b|n|s|l|o]; simpl; try (split; [intros _; repeat split; congruence | reflexivity]).
  - split; [discriminate | tauto].
  - split; [discriminate | tauto].
  - destruct s; simpl; split; try discriminate; try tauto.
    intros _. repeat split; congruence.
Qed.

Lemma kept_idem (b : option jsval) : kept (kept b) = kept b.
Proof.
  destruct b as [v|]; simpl; [|reflexivity].
  destruct (is_blank v) eqn:E; simpl; [reflexivity | now rewrite E].
Qed.

Lemma strip_step_lookup (p : obj) (key k : string) :
  obj_lookup (strip_step p key) k =
  if String.eqb key k then kept (obj_lookup p k) else obj_lookup p k.
Proof.
  unfold strip_step. fold (is_blank (obj_get p key)).
  destruct (String.eqb key k) eqn:E.
  - apply String.eqb_eq in E. subst k. unfold obj_get.
    destruct (obj_lookup p key) as [v|] eqn:L; simpl.
    + destruct (is_blank v).
      * rewrite obj_lookup_delete, String.eqb_refl. reflexivity.
      * exact L.
    + rewrite obj_lookup_delete, String.eqb_refl. reflexivity.
  - destruct (is_blank (obj_get p key)); [|reflexivity].
    rewrite obj_lookup_delete, E. reflexivity.
Qed.

Lemma strip_fold_lookup (ks : list string) (p : obj) (k : string) :
  obj_lookup (fold_left strip_step ks p) k =
  if existsb (fun key => String.eqb key k) ks
  then kept (obj_lookup p k) else obj_lookup p k.
Proof.
  revert p. induction ks as [|key ks IH]; intros p; simpl.
  - reflexivity.
  - rewrite IH, strip_step_lookup.
    destruct (String.eqb key k); simpl.
    + rewrite kept_idem. destruct (existsb _ ks); reflexivity.
    + reflexivity.
Qed.

Lemma strip_empty_lookup (p : obj) (k : string) :
  obj_lookup (strip_empty p) k = kept (obj_lookup p k).
Proof.
  unfold strip_empty. rewrite strip_fold_lookup.
  destruct (existsb _ (obj_keys p)) eqn:E; [reflexivity|].
  destruct (obj_lookup p k) eqn:L; [|reflexivity].
  exfalso.
  assert (In k (obj_keys p)) as Hin by (apply obj_keys_lookup; congruence).
  assert (existsb (fun key => String.eqb key k) (obj_keys p) = true) as Hex.
  { apply existsb_exists. exists k. split; [exact Hin | apply String.eqb_refl]. }
  congruence.
Qed.

(* ================================================================== *)
(** * The email pattern on examples *)

Example email_pattern_examples :
  email_ok (str "a@b.co") = Ok true
  /\ email_ok (str "not-an-email") = Ok false
  /\ email_ok (str "a@b") = Ok false
  /\ email_ok (str "a b@c.d") = Ok false
  /\ email_ok (str "a@b@c.d") = Ok false
  /\ email_ok (JStr []) = Ok false
  /\ email_ok (JNum 5) = Ok false.
Proof. repeat split. Qed.

Example parseInt_examples :
  parseInt (lit "25") = Some 25
  /\ parseInt (lit " 42abc") = Some 42
  /\ parseInt (lit "0x1F") = Some 31
  /\ parseInt (lit "-7") = Some (-7)
  /\ parseInt (lit "0") = Some 0
  /\ parseInt (lit "abc") = None
  /\ parseInt (lit "") = None
  /\ parseInt (lit "undefined") = None.
Proof. repeat split. Qed.

(** Numbers beyond the safe integers: [parseInt] rounds to the nearest
    binary64 value, ties to even, and numbers print with the shortest
    digits that denote them, in exponent form from [1e21] on. *)
Example number_examples :
  parseInt (lit "9007199254740993") = Some 9007199254740992
  /\ parseInt (lit "9007199254740995") = Some 9007199254740996
  /\ to_string (JNum 9007199254740991) = Ok (lit "9007199254740991")
  /\ to_string (JNum (2 ^ 60)) = Ok (lit "1152921504606847000")
  /\ to_string (JNum (10 ^ 21)) = Ok (lit "1e+21")
  /\ to_string (JNum (15 * 10 ^ 20)) = Ok (lit "1.5e+21")
  /\ to_string (JNum (- 2 ^ 70)) = Ok (lit "-1.1805916207174113e+21")
  /\ to_string (JNum (10 ^ 23)) = Ok (lit "1e+23")
  /\ to_string (JNum (10 ^ 309)) = Ok (lit "Infinity")
  /\ email_ok (JArr [str "a@b"; JNum (15 * 10 ^ 20)]) = Ok true.
Proof. repeat split; vm_compute; reflexivity. Qed.

(* ================================================================== *)
(** * Stripping empty properties *)

Lemma kept_some (x v : jsval) :
  kept (Some x) = Some v <->
  v = x /\ v <> JUndefined /\ v <> JNull /\ v <> JStr [].
Proof.
  simpl. destruct (is_blank x) eqn:E.
  - split; [discriminate|]. intros [-> H]. apply is_blank_false in H. congruence.
  - apply is_blank_false in E. split.
    + intros [= <-]. auto.
    + intros [-> _]. reflexivity.
Qed.

Lemma strip_empty_keys (p : obj) (k : string) :
  In k (obj_keys (strip_empty p)) -> In k (obj_keys p).
Proof.
  rewrite !obj_keys_lookup, strip_empty_lookup.
  destruct (obj_lookup p k); simpl; congruence.
Qed.

(* ================================================================== *)
(** * Creation: the mapped properties *)

(** C2: for every create payload, the properties object [createContact]
    builds holds a remote key exactly when the input field it renames has
    a value that is not [undefined], [null] or the empty string, and then
    holds that value unchanged; it holds no other key; and this object
    is the [properties] of the one request the operation makes. *)
Theorem C2_createContact_properties (o : obj) (w : world) :
  exists properties : obj,
    createContact_properties (JObj o) w = (Ok properties, w)
    /\ (forall from to v, In (from, to) field_renaming ->
          (obj_lookup properties to = Some v <->
           v = obj_get o from /\ v <> JUndefined /\ v <> JNull /\ v <> JStr []))
    /\ (forall k, In k (obj_keys properties) -> In k (map snd field_renaming))
    /\ (forall url0, to_string (baseUrl w) = Ok url0 ->
          calls (snd (createContact (JObj o) w)) =
          calls w ++ [mkRequest POST (url0 ++ endpoints_contacts)
                        (JObj [("properties", JObj properties)])]).
Proof.
  eexists. split; [reflexivity|]. split; [|split].
  - intros from to v Hin. rewrite strip_empty_lookup.
    simpl in Hin.
    repeat (destruct Hin as [[= <- <-]|Hin]; [apply kept_some|]).
    contradiction.
  - intros k Hk. apply strip_empty_keys in Hk. exact Hk.
  - intros url0 Hbase.
    unfold createContact, try_catch, bind, createContact_properties, bind.
    cbn. unfold text, lift, get_baseUrl. rewrite Hbase.
    unfold axios.
    destruct (remote w (calls w) _) as [r|e]; [|reflexivity].
    destruct (get_field (rs_data r) "id"); [|reflexivity].
    destruct (get_field (rs_data r) "properties"); reflexivity.
Qed.

Lemma C2_createContact_properties_witness :
  exists properties,
    createContact_properties contact_with_empty_phone
      (world_of accepting_remote)
    = (Ok properties, world_of accepting_remote)
    /\ obj_lookup properties "firstname" = Some (str "A")
    /\ obj_lookup properties "phone" = None
    /\ calls (snd (createContact contact_with_empty_phone
                     (world_of accepting_remote)))
       = [mkRequest POST (lit "https://api.hubapi.com" ++ endpoints_contacts)
            (JObj [("properties", JObj properties)])].
Proof.
  destruct (C2_createContact_properties
              [ ("firstName", str "A"); ("lastName", str "B");
                ("email", str "a@b.co"); ("phone", JStr []) ]
              (world_of accepting_remote))
    as (properties & Hrun & Hlook & _ & Hcall).
  exists properties. split; [exact Hrun|]. split; [|split].
  - apply (Hlook "firstName" "firstname"); [cbn; auto|].
    repeat split; discriminate.
  - destruct (obj_lookup properties "phone") as [v|] eqn:Hphone;
      [|reflexivity].
    apply (Hlook "phone" "phone") in Hphone; [|cbn; auto 10].
    destruct Hphone as (-> & _ & _ & Hne). exfalso. apply Hne. reflexivity.
  - apply (Hcall (lit "https://api.hubapi.com")). reflexivity.
Defined.

(* ================================================================== *)
(** * Update: the mapped properties *)

Lemma copy_if_defined_obj (u : obj) (from to : string) (p : obj) (w : world) :
  copy_if_defined (JObj u) from to p w =
  (Ok (if is_undefined (obj_get u from) then p else obj_set p to (obj_get u from)), w).
Proof. reflexivity. Qed.

Lemma obj_lookup_copy (b : bool) (p : obj) (to k : string) (v : jsval) :
  obj_lookup (if b then p else obj_set p to v) k =
  if String.eqb to k then (if b then obj_lookup p k else Some v)
  else obj_lookup p k.
Proof.
  destruct b.
  - destruct (String.eqb to k); reflexivity.
  - apply obj_lookup_set.
Qed.

Ltac split_key k :=
  repeat match goal with
  | |- context [String.eqb ?lit k] =>
      let E := fresh "E" in
      destruct (String.eqb lit k) eqn:E;
      [apply String.eqb_eq in E; subst k; reflexivity|]
  end.

Lemma updateContact_properties_lookup (u : obj) (w : world) :
  exists properties : obj,
    updateContact_properties (JObj u) w = (Ok properties, w)
    /\ forall k, obj_lookup properties k = copied u (renamed_from k).
Proof.
  unfold updateContact_properties, bind.
  rewrite !copy_if_defined_obj. eexists. split; [reflexivity|].
  intros k. rewrite !obj_lookup_copy.
  unfold renamed_from, field_renaming. cbn [find snd fst option_map].
  split_key k. reflexivity.
Qed.

Lemma renamed_from_table (from to : string) :
  In (from, to) field_renaming -> renamed_from to = Some from.
Proof.
  simpl. intros H.
  repeat (destruct H as [[= <- <-]|H]; [reflexivity|]). contradiction.
Qed.

Lemma renamed_from_inv (from k : string) :
  renamed_from k = Some from -> In (from, k) field_renaming.
Proof.
  unfold renamed_from. intros H.
  destruct (find _ field_renaming) as [[f t]|] eqn:F; [|discriminate].
  simpl in H. injection H as ->.
  apply find_some in F. destruct F as [Hin E]. simpl in E.
  apply String.eqb_eq in E. subst t. exact Hin.
Qed.

(** C3: for every update payload, the properties object [updateContact]
    builds holds exactly the recognized fields whose value in the request
    is not [undefined], each under its remote name with the value
    unchanged; a field that is absent never appears, a field that is the
    empty string is included as the empty string; and this object is the
    [properties] of the one request the operation makes. *)
Theorem C3_updateContact_properties (id : jsstring) (u : obj) (w : world) :
  exists properties : obj,
    updateContact_properties (JObj u) w = (Ok properties, w)
    /\ (forall from to, In (from, to) field_renaming ->
          obj_lookup properties to =
          if is_undefined (obj_get u from) then None
          else Some (obj_get u from))
    /\ (forall k, In k (obj_keys properties) ->
          exists from, In (from, k) field_renaming
                       /\ obj_get u from <> JUndefined)
    /\ (forall from to, In (from, to) field_renaming ->
          obj_get u from = JStr [] ->
          obj_lookup properties to = Some (JStr []))
    /\ (forall url0, to_string (baseUrl w) = Ok url0 ->
          calls (snd (updateContact id (JObj u) w)) =
          calls w ++ [mkRequest PATCH
                        (url0 ++ endpoints_contacts ++ lit "/" ++ id)
                        (JObj [("properties", JObj properties)])]).
Proof.
  destruct (updateContact_properties_lookup u w) as (properties & Hrun & Hlook).
  exists properties. split; [exact Hrun|]. repeat split.
  - intros from to Hin. rewrite Hlook, (renamed_from_table _ _ Hin). reflexivity.
  - intros k Hk. apply obj_keys_lookup in Hk. rewrite Hlook in Hk.
    destruct (renamed_from k) as [from|] eqn:R; simpl in Hk; [|congruence].
    exists from. split; [apply renamed_from_inv; exact R|].
    intros Hu. rewrite Hu in Hk. simpl in Hk. congruence.
  - intros from to Hin Hempty.
    rewrite Hlook, (renamed_from_table _ _ Hin). simpl. rewrite Hempty.
    reflexivity.
  - intros url0 Hbase.
    unfold updateContact, try_catch, bind. rewrite Hrun.
    unfold get_baseUrl, text, lift. rewrite Hbase. unfold axios.
    destruct (remote w (calls w) _) as [r|e]; [|reflexivity].
    destruct (get_field (rs_data r) "id"); reflexivity.
Qed.

Lemma C3_updateContact_properties_witness :
  exists properties,
    updateContact_properties
      (JObj [ ("firstName", JStr []); ("candidateExperience", JNum 6) ])
      (world_of accepting_remote)
    = (Ok properties, world_of accepting_remote)
    /\ obj_lookup properties "firstname" = Some (JStr [])
    /\ obj_lookup properties "candidate_experience" = Some (JNum 6)
    /\ obj_lookup properties "email" = None.
Proof.
  destruct (C3_updateContact_properties (lit "42")
              [ ("firstName", JStr []); ("candidateExperience", JNum 6) ]
              (world_of accepting_remote))
    as (properties & Hrun & Hlook & _ & Hempty & _).
  exists properties. split; [exact Hrun|]. split; [|split].
  - apply (Hempty "firstName" "firstname"); [cbn; auto | reflexivity].
  - apply (Hlook "candidateExperience" "candidate_experience"). cbn. auto 10.
  - apply (Hlook "email" "email"). cbn. auto 10.
Defined.

(* ================================================================== *)
(** * The update route *)

Lemma updateContact_call (id : jsstring) (u properties : obj) (w : world)
    (url0 : jsstring) :
  updateContact_properties (JObj u) w = (Ok properties, w) ->
  to_string (baseUrl w) = Ok url0 ->
  exists r,
    updateContact id (JObj u) w =
    (r, record_call w
          (mkRequest PATCH (url0 ++ endpoints_contacts ++ lit "/" ++ id)
             (JObj [("properties", JObj properties)]))).
Proof.
  intros Hrun Hbase.
  unfold updateContact, try_catch, bind. rewrite Hrun.
  unfold get_baseUrl, text, lift. rewrite Hbase. unfold axios.
  destruct (remote w (calls w) _) as [r|e]; [|eexists; reflexivity].
  destruct (get_field (rs_data r) "id"); eexists; reflexivity.
Qed.

Lemma copy_body_field_obj (o : obj) (k : string) (p : obj) (w : world) :
  copy_body_field (JObj o) k p w =
  (Ok (if is_undefined (obj_get o k) then p else obj_set p k (obj_get o k)), w).
Proof. reflexivity. Qed.

Lemma patch_updateData_lookup (o : obj) (w : world) :
  exists updateData : obj,
    patch_updateData (JObj o) w = (Ok updateData, w)
    /\ forall k, obj_lookup updateData k = copied o (recognized k).
Proof.
  unfold patch_updateData, bind.
  rewrite !copy_body_field_obj. eexists. split; [reflexivity|].
  intros k. rewrite !obj_lookup_copy.
  unfold recognized, field_renaming. cbn [find map fst].
  split_key k. reflexivity.
Qed.

Lemma patch_updateData_none (body : jsval) (w : world) :
  (forall k, In k (map fst field_renaming) -> get_field body k = Ok JUndefined) ->
  patch_updateData body w = (Ok [], w).
Proof.
  intros H. unfold patch_updateData, bind, copy_body_field, lift.
  rewrite !H by (cbn [map fst field_renaming In]; auto 20).
  reflexivity.
Qed.

Lemma truthy_field_obj (body : jsval) (k : string) (v : jsval) :
  get_field body k = Ok v -> v <> JUndefined ->
  exists o, body = JObj o /\ obj_get o k = v.
Proof.
  destruct body; simpl; intros H Hv; try discriminate; try congruence.
  injection H as <-. eauto.
Qed.

Lemma truthy_defined (v : jsval) : truthy v = true -> v <> JUndefined.
Proof. intros H ->. discriminate. Qed.

(** C5, as amended: for every update request, the route answers 400
    without calling the remote service when no recognized field is
    present; when the email field is present with a truthy value that
    does not match the pattern, the route answers 400 without calling the
    remote service; an email that is present but falsy (the empty string,
    [null], [0], [false]) is not validated and is sent to the remote
    service in the one update request. *)
Theorem C5_update_validation (id : jsstring) (body : jsval) (w : world) :
  ((forall k, In k (map fst field_renaming) -> get_field body k = Ok JUndefined) ->
     patch_contact id body w =
     (Ok (bad_request (lit "No valid fields to update provided")), w))
  /\ (forall email,
        get_field body "email" = Ok email ->
        truthy email = true ->
        email_ok email = Ok false ->
        patch_contact id body w =
        (Ok (bad_request (lit "Invalid email format")), w))
  /\ (forall email url0,
        get_field body "email" = Ok email ->
        email <> JUndefined ->
        truthy email = false ->
        to_string (baseUrl w) = Ok url0 ->
        exists properties,
          obj_lookup properties "email" = Some email
          /\ calls (snd (patch_contact id body w)) =
             calls w ++ [mkRequest PATCH
                           (url0 ++ endpoints_contacts ++ lit "/" ++ id)
                           (JObj [("properties", JObj properties)])]).
Proof.
  split; [|split].
  - intros Hnone. unfold patch_contact, try_catch, bind.
    rewrite (patch_updateData_none body w Hnone). reflexivity.
  - intros email Hget Htruthy Hbad.
    destruct (truthy_field_obj body "email" email Hget (truthy_defined _ Htruthy))
      as (o & -> & Ho).
    destruct (patch_updateData_lookup o w) as (updateData & Hrun & Hlook).
    unfold patch_contact, try_catch, bind. rewrite Hrun.
    assert (obj_get updateData "email" = email) as Hemail.
    { unfold obj_get at 1. rewrite Hlook. cbn. rewrite Ho.
      destruct email; reflexivity. }
    rewrite Hemail, Htruthy. unfold lift. rewrite Hbad. reflexivity.
  - intros email url0 Hget Hdef Hfalsy Hbase.
    destruct (truthy_field_obj body "email" email Hget Hdef) as (o & -> & Ho).
    destruct (patch_updateData_lookup o w) as (updateData & Hrun & Hlook).
    assert (obj_lookup updateData "email" = Some email) as Hemail.
    { rewrite Hlook. cbn. rewrite Ho. destruct email; try reflexivity.
      congruence. }
    destruct (updateContact_properties_lookup updateData w)
      as (properties & Hprops & Hplook).
    exists properties. split.
    + rewrite Hplook. cbn. unfold obj_get. rewrite Hemail.
      destruct email; try reflexivity. congruence.
    + destruct (updateContact_call id updateData properties w url0 Hprops Hbase)
        as (r & Hcall).
      unfold patch_contact, try_catch, bind. rewrite Hrun.
      unfold obj_get at 1 2. rewrite Hemail, Hfalsy.
      unfold ret at 1.
      assert ((Z.of_nat (length (obj_keys updateData)) =? 0) = false) as Hlen.
      { destruct updateData; [discriminate|]. reflexivity. }
      rewrite Hlen, Hcall.
      destruct r as [result|e]; [|reflexivity].
      unfold lift.
      destruct (get_field (obj_get result "contact") "properties"); reflexivity.
Qed.

(** The claim C5 as stated fails on an email that is present and empty:
    it does not match the pattern, and the update is sent. *)
Lemma C5_counterexample :
  let body := JObj [("email", JStr [])] in
  let w := world_of accepting_remote in
  get_field body "email" = Ok (JStr [])
  /\ email_ok (JStr []) = Ok false
  /\ status_of (patch_contact (lit "42") body w) = Some 200
  /\ calls (snd (patch_contact (lit "42") body w)) =
     [mkRequest PATCH (lit "https://api.hubapi.com/crm/v3/objects/contacts/42")
        (JObj [("properties", JObj [("email", JStr [])])])].
Proof. repeat split. Qed.

Lemma C5_update_validation_witness :
  patch_contact (lit "42") (JObj []) (world_of accepting_remote)
  = (Ok (bad_request (lit "No valid fields to update provided")),
     world_of accepting_remote)
  /\ patch_contact (lit "42") (JObj [("email", str "not-an-email")])
       (world_of accepting_remote)
     = (Ok (bad_request (lit "Invalid email format")),
        world_of accepting_remote)
  /\ exists properties,
       obj_lookup properties "email" = Some JNull
       /\ calls (snd (patch_contact (lit "42") (JObj [("email", JNull)])
                        (world_of accepting_remote)))
          = [mkRequest PATCH
               (lit "https://api.hubapi.com" ++ endpoints_contacts
                ++ lit "/" ++ lit "42")
               (JObj [("properties", JObj properties)])].
Proof.
  split; [|split].
  - apply (C5_update_validation (lit "42") (JObj []) (world_of accepting_remote)).
    intros k _. reflexivity.
  - apply (C5_update_validation (lit "42")
             (JObj [("email", str "not-an-email")])
             (world_of accepting_remote)) with (email := str "not-an-email");
      reflexivity.
  - apply (C5_update_validation (lit "42") (JObj [("email", JNull)])
             (world_of accepting_remote)) with (email := JNull);
      try reflexivity.
    discriminate.
Defined.

(* ================================================================== *)
(** * Property provisioning *)

Section CreateProperty.

(** A definition whose name is a string, as every definition of the
    catalog is. *)
Variables (definition : obj) (name : jsstring).
Hypothesis Hname : obj_get definition "name" = JStr name.

Lemma createProperty_run (url0 : jsstring) (w : world) :
  to_string (baseUrl w) = Ok url0 ->
  createProperty (JObj definition) w =
  (property_outcome name
     (remote w (calls w) (property_request url0 (JObj definition))),
   record_call w (property_request url0 (JObj definition))).
Proof.
  intros Hbase.
  unfold createProperty, try_catch, bind, name_in_log, bind, lift, text, lift,
    get_baseUrl, get_field, ret, throw.
  rewrite Hname. cbn [to_string]. rewrite Hbase.
  unfold axios, property_request, property_outcome.
  destruct (remote w (calls w) _) as [r|e].
  - destruct (rs_data r); reflexivity.
  - cbn [exn_status]. destruct (bool_decide _); reflexivity.
Qed.

Lemma is_conflict_status (e : axios_error) :
  is_conflict (Rejected e) <-> exn_status (EAxios e) = Some 409.
Proof.
  unfold is_conflict. simpl. split.
  - intros (e' & r & He & Hr & Hs). injection He as <-.
    rewrite Hr. simpl. rewrite Hs. reflexivity.
  - destruct (ae_response e) as [r|] eqn:E; simpl; [|discriminate].
    intros [= H]. exists e, r. auto.
Qed.

Lemma createProperty_attempt (w : world) :
  exists r, createProperty (JObj definition) w = (r, after_attempt w definition).
Proof.
  unfold after_attempt.
  destruct (to_string (baseUrl w)) as [url0|e] eqn:Hbase.
  - rewrite (createProperty_run url0 w Hbase).
    eexists. reflexivity.
  - unfold createProperty, try_catch, bind, name_in_log, bind, lift, text, lift,
      get_baseUrl, get_field, ret, throw.
    rewrite Hname. cbn [to_string]. rewrite Hbase.
    destruct (bool_decide _); eexists; reflexivity.
Qed.

Lemma create_each_step (rest results : list obj) (w : world) :
  exists r,
    create_each (definition :: rest) results w =
    create_each rest (results ++ [item_result definition r])
      (after_attempt w definition).
Proof.
  destruct (createProperty_attempt w) as (r & Hr).
  exists r. cbn [create_each]. unfold bind at 1, try_catch, bind at 1.
  rewrite Hr. destruct r; reflexivity.
Qed.

End CreateProperty.

Lemma createProperty_printable (definition : obj) (t url0 : jsstring)
    (w : world) :
  to_string (obj_get definition "name") = Ok t ->
  to_string (baseUrl w) = Ok url0 ->
  let rq := property_request url0 (JObj definition) in
  createProperty (JObj definition) w =
  (match remote w (calls w) rq with
   | Resolved r =>
       match get_field (rs_data r) "name" with
       | Ok _ => Ok (rs_data r)
       | Throw e => Throw e
       end
   | Rejected e =>
       if bool_decide (exn_status (EAxios e) = Some 409)
       then Ok (JObj [ ("name", obj_get definition "name");
                       ("status", JStr (lit "already_exists")) ])
       else Throw (EAxios e)
   end, record_call w rq).
Proof.
  intros Hname Hbase rq.
  unfold createProperty, try_catch, bind, name_in_log, bind, lift, text, lift,
    get_baseUrl, get_field, ret, throw.
  rewrite Hname, Hbase.
  unfold axios. fold (property_request url0 (JObj definition)). fold rq.
  destruct (remote w (calls w) rq) as [r|e].
  - destruct (rs_data r); reflexivity.
  - cbn [exn_status]. destruct (bool_decide _); reflexivity.
Qed.

Lemma createProperty_unprintable (definition : obj) (e0 : exn) (w : world) :
  to_string (obj_get definition "name") = Throw e0 ->
  createProperty (JObj definition) w = (Throw e0, w).
Proof.
  intros Hname.
  unfold createProperty, try_catch, bind, name_in_log, bind, lift, text, lift,
    get_field, ret, throw.
  rewrite Hname. destruct (bool_decide _); reflexivity.
Qed.

(** C6: for every property definition whose name has a string form,
    when the remote side reports a conflict (409) [createProperty]
    returns [{name, status: 'already_exists'}] with the definition's
    name instead of raising; any other rejection is thrown as it is; and
    against a remote side that reports a conflict for a creation it has
    accepted or already refused as a conflict, a second creation of the
    same definition returns [{name, status: 'already_exists'}] whenever
    the first one returned.  A definition whose name has no string form
    fails in the log line before any request, so no conflict arises. *)
Theorem C6_createProperty_idempotent (definition : obj) (url0 : jsstring)
    (w : world)
    (Hbase : to_string (baseUrl w) = Ok url0) :
  let rq := property_request url0 (JObj definition) in
  (forall t,
     to_string (obj_get definition "name") = Ok t ->
     (is_conflict (remote w (calls w) rq) ->
        createProperty (JObj definition) w =
        (Ok (JObj [ ("name", obj_get definition "name");
                    ("status", JStr (lit "already_exists")) ]),
         record_call w rq))
     /\ (forall e,
           remote w (calls w) rq = Rejected e ->
           exn_status (EAxios e) <> Some 409 ->
           createProperty (JObj definition) w =
           (Throw (EAxios e), record_call w rq))
     /\ ((forall hist,
            accepted_or_conflict (remote w hist rq) ->
            is_conflict (remote w (hist ++ [rq]) rq)) ->
         forall v w1,
           createProperty (JObj definition) w = (Ok v, w1) ->
           exists w2,
             createProperty (JObj definition) w1 =
             (Ok (JObj [ ("name", obj_get definition "name");
                         ("status", JStr (lit "already_exists")) ]), w2)))
  /\ (forall e0,
        to_string (obj_get definition "name") = Throw e0 ->
        createProperty (JObj definition) w = (Throw e0, w)).
Proof.
  intros rq. split; [|intros e0 He0; apply createProperty_unprintable; exact He0].
  intros t Hname.
  assert (forall w0, baseUrl w0 = baseUrl w ->
          is_conflict (remote w0 (calls w0) rq) ->
          createProperty (JObj definition) w0 =
          (Ok (JObj [ ("name", obj_get definition "name");
                      ("status", JStr (lit "already_exists")) ]),
           record_call w0 rq)) as Hconf.
  { intros w0 Hb Hc.
    rewrite (createProperty_printable definition t url0 w0 Hname)
      by (rewrite Hb; exact Hbase).
    fold rq. destruct Hc as (e & r & He & Hr & Hs). rewrite He.
    rewrite bool_decide_eq_true_2; [reflexivity|].
    simpl. rewrite Hr. simpl. congruence. }
  split; [|split].
  - apply Hconf. reflexivity.
  - intros e He Hs.
    rewrite (createProperty_printable definition t url0 w Hname Hbase).
    fold rq. rewrite He.
    rewrite bool_decide_eq_false_2 by exact Hs. reflexivity.
  - intros Hrepeat v w1 Hfirst.
    rewrite (createProperty_printable definition t url0 w Hname Hbase)
      in Hfirst.
    fold rq in Hfirst. injection Hfirst as Hv <-.
    exists (record_call (record_call w rq) rq).
    apply Hconf; [reflexivity|].
    apply Hrepeat.
    destruct (remote w (calls w) rq) as [r|e] eqn:Ho.
    + left. eauto.
    + right. apply is_conflict_status. cbn [exn_status].
      destruct (bool_decide (option_map rs_status (ae_response e) = Some 409))
        eqn:B; [|discriminate Hv].
      apply bool_decide_eq_true_1 in B. exact B.
Qed.

Lemma C6_createProperty_idempotent_witness :
  (exists w1 w2,
     createProperty (JObj catalog_entry) (world_of schema_remote)
     = (Ok (JObj catalog_entry), w1)
     /\ createProperty (JObj catalog_entry) w1
        = (Ok (JObj [ ("name", str "candidate_experience");
                      ("status", str "already_exists") ]), w2))
  /\ fst (createProperty (JObj catalog_entry) (world_of (refusing_remote 409)))
     = Ok (JObj [ ("name", str "candidate_experience");
                  ("status", str "already_exists") ])
  /\ fst (createProperty (JObj catalog_entry) (world_of (refusing_remote 500)))
     = Throw (EAxios (mkAxiosError (lit "Request failed with status code 500")
                        (Some (mkResponse 500
                                 (JObj [("status", str "error")])))))
  /\ createProperty (JObj [("name", JObj [("toString", JNull)])])
       (world_of (refusing_remote 409))
     = (Throw (ETypeError (lit "Cannot convert object to primitive value")),
        world_of (refusing_remote 409)).
Proof.
  destruct (C6_createProperty_idempotent catalog_entry
              (lit "https://api.hubapi.com")
              (world_of schema_remote) eq_refl) as (Hschema & _).
  destruct (Hschema (lit "candidate_experience") eq_refl)
    as (_ & _ & Htwice).
  destruct (C6_createProperty_idempotent catalog_entry
              (lit "https://api.hubapi.com")
              (world_of (refusing_remote 409)) eq_refl) as (Hrefused & _).
  destruct (Hrefused (lit "candidate_experience") eq_refl)
    as (Hconflict & _).
  destruct (C6_createProperty_idempotent catalog_entry
              (lit "https://api.hubapi.com")
              (world_of (refusing_remote 500)) eq_refl) as (Hdown & _).
  destruct (Hdown (lit "candidate_experience") eq_refl)
    as (_ & Hother & _).
  destruct (C6_createProperty_idempotent [("name", JObj [("toString", JNull)])]
              (lit "https://api.hubapi.com")
              (world_of (refusing_remote 409)) eq_refl) as (_ & Hunprintable).
  split; [|split; [|split]].
  - eexists.
    assert (forall hist,
      accepted_or_conflict
        (remote (world_of schema_remote) hist
           (property_request (lit "https://api.hubapi.com")
              (JObj catalog_entry))) ->
      is_conflict
        (remote (world_of schema_remote)
           (hist ++ [property_request (lit "https://api.hubapi.com")
                       (JObj catalog_entry)])
           (property_request (lit "https://api.hubapi.com")
              (JObj catalog_entry)))) as Hrepeat.
    { intros hist _. cbn [remote world_of]. unfold schema_remote.
      rewrite existsb_app. cbn [existsb].
      rewrite bool_decide_eq_true_2 by reflexivity.
      rewrite orb_true_r. do 2 eexists. repeat split. }
    destruct (Htwice Hrepeat (JObj catalog_entry) _ eq_refl) as (w2 & H2).
    exists w2. split; [reflexivity | exact H2].
  - rewrite Hconflict; [reflexivity|].
    do 2 eexists. repeat split.
  - rewrite (Hother _ eq_refl); [reflexivity|].
    discriminate.
  - apply Hunprintable. reflexivity.
Defined.

Lemma item_result_name (definition : obj) (r : result jsval) :
  obj_get (item_result definition r) "name" = obj_get definition "name".
Proof. destruct r; reflexivity. Qed.

Lemma item_result_success (definition : obj) (r : result jsval) :
  obj_get (item_result definition r) "success" =
  JBool (match r with Ok _ => true | Throw _ => false end).
Proof. destruct r; reflexivity. Qed.

Lemma after_attempt_base (w : world) (d : obj) :
  baseUrl (after_attempt w d) = baseUrl w.
Proof. unfold after_attempt. destruct (to_string (baseUrl w)); reflexivity. Qed.

Lemma after_attempt_calls (w : world) (d : obj) (url0 : jsstring) :
  to_string (baseUrl w) = Ok url0 ->
  calls (after_attempt w d) = calls w ++ [property_request url0 (JObj d)].
Proof. unfold after_attempt. intros ->. reflexivity. Qed.

Lemma counts_total (results : list obj) :
  count_success results + count_failed results = Z.of_nat (length results).
Proof.
  unfold count_success, count_failed.
  induction results as [|r results IH]; [reflexivity|].
  cbn [List.filter].
  destruct (truthy (obj_get r "success")); cbn [negb length];
    rewrite ?Nat2Z.inj_succ in *; lia.
Qed.

Lemma create_each_run (definitions : list obj) :
  Forall named definitions ->
  forall (results : list obj) (w : world),
  exists (outcomes : list (result jsval)) (w' : world),
    create_each definitions results w =
    (Ok (results ++ items definitions outcomes), w')
    /\ length outcomes = length definitions
    /\ baseUrl w' = baseUrl w
    /\ (forall url0,
          to_string (baseUrl w) = Ok url0 ->
          calls w' =
          calls w ++ map (fun d => property_request url0 (JObj d)) definitions).
Proof.
  induction 1 as [|d ds [name Hname] _ IH]; intros results w.
  - exists [], w. cbn. rewrite !app_nil_r. auto.
  - destruct (create_each_step d name Hname ds results w) as (r & Hstep).
    destruct (IH (results ++ [item_result d r]) (after_attempt w d))
      as (outcomes & w' & Hrun & Hlen & Hbase & Hcalls).
    exists (r :: outcomes), w'. rewrite Hstep, Hrun.
    rewrite after_attempt_base in Hbase, Hcalls.
    repeat split.
    + unfold items. cbn [combine map fst snd]. rewrite <- app_assoc. reflexivity.
    + cbn [length]. congruence.
    + exact Hbase.
    + intros url0 Hurl. rewrite (Hcalls url0 Hurl).
      rewrite (after_attempt_calls w d url0 Hurl).
      cbn [map]. rewrite <- app_assoc. reflexivity.
Qed.

Lemma items_names (definitions : list obj) (outcomes : list (result jsval)) :
  length outcomes = length definitions ->
  map (fun r => obj_get r "name") (items definitions outcomes) =
  map (fun d => obj_get d "name") definitions.
Proof.
  revert outcomes. unfold items.
  induction definitions as [|d ds IH]; intros [|o os] Hlen;
    try discriminate; [reflexivity|].
  cbn [combine map fst snd]. rewrite item_result_name. f_equal.
  apply IH. injection Hlen as Hlen. exact Hlen.
Qed.

Lemma items_length (definitions : list obj) (outcomes : list (result jsval)) :
  length outcomes = length definitions ->
  length (items definitions outcomes) = length definitions.
Proof.
  intros Hlen. unfold items.
  rewrite length_map, length_combine, Hlen. apply Nat.min_id.
Qed.

Lemma items_flags (definitions : list obj) (outcomes : list (result jsval)) :
  Forall (fun r => exists b, obj_get r "success" = JBool b)
    (items definitions outcomes).
Proof.
  unfold items. apply List.Forall_forall. intros r Hin.
  apply in_map_iff in Hin. destruct Hin as ([d o] & <- & _).
  rewrite item_result_success. eauto.
Qed.

Lemma catalog_named : Forall named getCustomPropertiesDefinitions.
Proof. repeat constructor; eexists; reflexivity. Qed.

Lemma create_each_result (definition : obj) (rest results : list obj)
    (w : world) (url0 : jsstring) :
  named definition ->
  to_string (baseUrl w) = Ok url0 ->
  let rq := property_request url0 (JObj definition) in
  create_each (definition :: rest) results w =
  create_each rest
    (results ++ [provisioning_result definition (remote w (calls w) rq)])
    (record_call w rq).
Proof.
  intros [name Hname] Hbase rq.
  cbn [create_each]. unfold bind at 1, try_catch, bind at 1.
  rewrite (createProperty_run definition name Hname url0 w Hbase). fold rq.
  unfold property_outcome, provisioning_result, already_exists.
  destruct (remote w (calls w) rq) as [r|e].
  - destruct (get_field (rs_data r) "name"); reflexivity.
  - cbn [exn_status].
    destruct (bool_decide (option_map rs_status (ae_response e) = Some 409));
      rewrite ?Hname; reflexivity.
Qed.

Lemma create_each_results (definitions : list obj) :
  Forall named definitions ->
  forall (results : list obj) (w : world) (url0 : jsstring),
    to_string (baseUrl w) = Ok url0 ->
    fst (create_each definitions results w) =
    Ok (results ++ provisioning_results url0 w definitions).
Proof.
  induction 1 as [|d ds Hd _ IH]; intros results w url0 Hbase.
  - cbn. rewrite app_nil_r. reflexivity.
  - rewrite (create_each_result d ds results w url0 Hd Hbase).
    rewrite (IH _ _ url0) by exact Hbase.
    cbn [provisioning_results]. rewrite <- app_assoc. reflexivity.
Qed.

Lemma flagged_counts (results : list obj) :
  Forall (fun r => exists b, obj_get r "success" = JBool b) results ->
  count_failed results = flagged false results
  /\ count_success results = flagged true results.
Proof.
  intros Hflags. unfold count_failed, count_success, flagged.
  split; do 2 f_equal; apply filter_ext_in; intros r Hin;
    destruct (proj1 (List.Forall_forall _ _) Hflags r Hin) as [b Hb];
    rewrite Hb; destruct b; reflexivity.
Qed.

(** C7: every run of [createAllCustomProperties] returns four results,
    one per catalog definition in catalog order, each with the
    definition's name and a boolean success flag, whatever the remote
    side answers.  The four creation requests are made in catalog order,
    each whatever the outcome of the ones before, and the result of a
    definition follows from the answer to its own request: success with
    the remote data when the property was created, success with
    [{name, status: 'already_exists'}] on a conflict, failure with the
    error's message otherwise.  The setup route answers 201 with
    [success: true] exactly when no result is a failure and 207 with
    [success: false] when one is, with the results and the total,
    successful and failed counts. *)
Theorem C7_setup_attempts_every_definition (w : world) :
  exists (results : list obj) (w' : world),
    createAllCustomProperties w = (Ok results, w')
    /\ map (fun r => obj_get r "name") results =
       map JStr
         [ lit "candidate_experience"; lit "candidate_date_of_joining";
           lit "candidate_name"; lit "candidate_past_company" ]
    /\ length results = 4%nat
    /\ Forall (fun r => exists b, obj_get r "success" = JBool b) results
    /\ (forall url0,
          to_string (baseUrl w) = Ok url0 ->
          results =
          provisioning_results url0 w getCustomPropertiesDefinitions
          /\ calls w' =
             calls w ++ map (fun d => property_request url0 (JObj d))
                          getCustomPropertiesDefinitions)
    /\ exists reply,
         post_setup w = (Ok reply, w')
         /\ (status reply = 201 <-> flagged false results = 0)
         /\ (status reply = 207 <-> 0 < flagged false results)
         /\ flagged true results + flagged false results = 4
         /\ body reply =
            JObj [ ("success", JBool (flagged false results =? 0));
                   ("message",
                     JStr (lit (if flagged false results =? 0
                                then "All properties created successfully"
                                else "Some properties failed to create")));
                   ("data",
                     JObj [ ("results", JArr (map JObj results));
                            ("summary",
                              JObj [ ("total", JNum 4);
                                     ("successful",
                                       JNum (flagged true results));
                                     ("failed",
                                       JNum (flagged false results)) ]) ]) ].
Proof.
  destruct (create_each_run _ catalog_named [] w)
    as (outcomes & w' & Hrun & Hlen & _ & Hcalls).
  cbn [app] in Hrun.
  set (results := items getCustomPropertiesDefinitions outcomes) in *.
  assert (length results = 4%nat) as Hfour
    by (unfold results; rewrite items_length; [reflexivity | exact Hlen]).
  assert (Forall (fun r => exists b, obj_get r "success" = JBool b) results)
    as Hflags by apply items_flags.
  exists results, w'. split; [exact Hrun|].
  split; [unfold results; rewrite items_names; [reflexivity | exact Hlen]|].
  split; [exact Hfour|].
  split; [exact Hflags|].
  split.
  { intros url0 Hbase. split; [|exact (Hcalls url0 Hbase)].
    pose proof (create_each_results _ catalog_named [] w url0 Hbase) as Hspec.
    rewrite Hrun in Hspec. cbn [fst app] in Hspec.
    injection Hspec as Hspec. exact Hspec. }
  unfold post_setup, try_catch, bind, createAllCustomProperties.
  rewrite Hrun. unfold ret.
  eexists. split; [reflexivity|].
  cbn [status body].
  unfold setup_summary, array_length. rewrite Hfour.
  pose proof (counts_total results) as Htot. rewrite Hfour in Htot.
  destruct (flagged_counts results Hflags) as [Hfailed Hsucceeded].
  rewrite Hfailed, Hsucceeded in *.
  assert (0 <= flagged false results) as Hnn by (unfold flagged; lia).
  split; [destruct (0 <? flagged false results) eqn:E; lia|].
  split; [destruct (0 <? flagged false results) eqn:E; lia|].
  split; [lia | reflexivity].
Qed.

Lemma C7_setup_attempts_every_definition_witness :
  exists results w' reply,
    createAllCustomProperties (world_of (flaky_remote (lit "candidate_name")))
    = (Ok results, w')
    /\ map (fun r => obj_get r "success") results =
       [JBool true; JBool true; JBool false; JBool true]
    /\ calls w' =
       map (fun d => property_request (lit "https://api.hubapi.com") (JObj d))
         getCustomPropertiesDefinitions
    /\ post_setup (world_of (flaky_remote (lit "candidate_name")))
       = (Ok reply, w')
    /\ status reply = 207.
Proof.
  destruct (C7_setup_attempts_every_definition
              (world_of (flaky_remote (lit "candidate_name"))))
    as (results & w' & Hrun & _ & _ & _ & Hspec & reply & Hreply & _ & H207 & _).
  destruct (Hspec (lit "https://api.hubapi.com") eq_refl) as (Hresults & Hcalls).
  exists results, w', reply. split; [exact Hrun|].
  split; [rewrite Hresults; vm_compute; reflexivity|].
  split; [exact Hcalls|]. split; [exact Hreply|].
  apply H207. rewrite Hresults. vm_compute. reflexivity.
Defined.

(* ================================================================== *)
(** * Reading a contact *)

Lemma default_props_text :
  to_string (JArr defaultProps) =
  Ok (lit "firstname,lastname,email,phone,hubspot_owner_id,candidate_experience,candidate_date_of_joining,candidate_name,candidate_past_company").
Proof. reflexivity. Qed.

Lemma getContact_rejected (id url0 : jsstring) (w : world) (e : axios_error) :
  to_string (baseUrl w) = Ok url0 ->
  remote w (calls w) (contact_request url0 id) = Rejected e ->
  getContact id JNull w =
  (if bool_decide (exn_status (EAxios e) = Some 404)
   then Ok (contact_not_found id)
   else Throw (service_failure (EAxios e)),
   record_call w (contact_request url0 id)).
Proof.
  intros Hbase Hrej.
  unfold getContact, try_catch, bind, get_baseUrl, text, lift, join_comma,
    text, lift.
  rewrite Hbase. cbn [truthy]. rewrite default_props_text.
  unfold axios. fold (contact_request url0 id). rewrite Hrej.
  destruct (bool_decide _); reflexivity.
Qed.

Lemma getContact_rejected_with (id url0 : jsstring) (properties : jsval)
    (param : jsstring) (w : world) (e : axios_error) :
  to_string (baseUrl w) = Ok url0 ->
  requested_properties properties = Ok param ->
  let rq :=
    mkRequest GET
      ((url0 ++ endpoints_contacts ++ lit "/" ++ id)
       ++ lit "?properties=" ++ param) JUndefined in
  remote w (calls w) rq = Rejected e ->
  getContact id properties w =
  (if bool_decide (exn_status (EAxios e) = Some 404)
   then Ok [ ("success", JBool false);
             ("error", JStr (lit "Contact not found"));
             ("contactId", JStr id) ]
   else Throw (EService (JStr (ae_message e))
                 (js_or (exn_response_data (EAxios e)) JNull)),
   record_call w rq).
Proof.
  intros Hbase Hparam rq Hrej.
  assert ((if truthy properties
           then (if is_array properties then join_comma properties
                 else text properties)
           else join_comma (JArr defaultProps)) w = (Ok param, w)) as Hp.
  { unfold requested_properties in Hparam. unfold join_comma, text, lift.
    destruct (truthy properties).
    - destruct (is_array properties); rewrite Hparam; reflexivity.
    - rewrite default_props_text, <- Hparam. reflexivity. }
  unfold getContact, try_catch, bind at 1, get_baseUrl.
  unfold bind at 1, text at 1, lift at 1. rewrite Hbase.
  unfold bind at 1. rewrite Hp.
  unfold bind, axios. fold rq. rewrite Hrej.
  destruct (bool_decide _); reflexivity.
Qed.

(** C8: for every contact identifier and whatever properties are asked
    for, when the remote side rejects the read with status 404,
    [getContact] returns
    [{success: false, error: 'Contact not found', contactId}] instead of
    raising, and the route answers 404 with that error and the
    identifier; when the remote side rejects the read in any other way,
    [getContact] throws [{success: false, error, details}] and the route
    answers 500. *)
Theorem C8_getContact_not_found (id url0 : jsstring) (w : world)
    (Hbase : to_string (baseUrl w) = Ok url0) :
  (forall properties param e,
     requested_properties properties = Ok param ->
     let rq :=
       mkRequest GET
         ((url0 ++ endpoints_contacts ++ lit "/" ++ id)
          ++ lit "?properties=" ++ param) JUndefined in
     remote w (calls w) rq = Rejected e ->
     (exn_status (EAxios e) = Some 404 ->
      getContact id properties w =
      (Ok [ ("success", JBool false);
            ("error", JStr (lit "Contact not found"));
            ("contactId", JStr id) ],
       record_call w rq))
     /\ (exn_status (EAxios e) <> Some 404 ->
         getContact id properties w =
         (Throw (EService (JStr (ae_message e))
                   (js_or (exn_response_data (EAxios e)) JNull)),
          record_call w rq)))
  /\ (forall e,
        remote w (calls w) (contact_request url0 id) = Rejected e ->
        let w' := record_call w (contact_request url0 id) in
        (exn_status (EAxios e) = Some 404 ->
         get_contact id w =
         (Ok (mkReply 404
                (JObj [ ("success", JBool false);
                        ("error", JStr (lit "Contact not found"));
                        ("contactId", JStr id) ])), w'))
        /\ (exn_status (EAxios e) <> Some 404 ->
            get_contact id w =
            (Ok (mkReply 500
                   (JObj [ ("success", JBool false);
                           ("error",
                             js_or (JStr (ae_message e))
                               (JStr (lit "Internal server error")));
                           ("details",
                             js_or
                               (js_or (exn_response_data (EAxios e)) JNull)
                               JNull) ])), w'))).
Proof.
  split.
  - intros properties param e Hparam rq Hrejected.
    pose proof (getContact_rejected_with id url0 properties param w e
                  Hbase Hparam Hrejected) as Hrun.
    fold rq in Hrun. split; intros Hstatus.
    + rewrite bool_decide_eq_true_2 in Hrun by exact Hstatus. exact Hrun.
    + rewrite bool_decide_eq_false_2 in Hrun by exact Hstatus. exact Hrun.
  - intros e Hrejected w'.
    pose proof (getContact_rejected_with id url0 JNull _ w e Hbase eq_refl
                  Hrejected) as Hrun.
    fold (contact_request url0 id) in Hrun. fold w' in Hrun.
    split; intros Hstatus.
    + rewrite bool_decide_eq_true_2 in Hrun by exact Hstatus.
      unfold get_contact, try_catch, bind. rewrite Hrun. reflexivity.
    + rewrite bool_decide_eq_false_2 in Hrun by exact Hstatus.
      unfold get_contact, try_catch, bind. rewrite Hrun. reflexivity.
Qed.

Lemma C8_getContact_not_found_witness :
  get_contact (lit "42") (world_of (refusing_remote 404)) =
  (Ok (mkReply 404
         (JObj [ ("success", JBool false);
                 ("error", JStr (lit "Contact not found"));
                 ("contactId", JStr (lit "42")) ])),
   record_call (world_of (refusing_remote 404))
     (contact_request (lit "https://api.hubapi.com") (lit "42")))
  /\ fst (getContact (lit "42") (JArr [str "email"; str "phone"])
            (world_of (refusing_remote 404)))
     = Ok [ ("success", JBool false);
            ("error", JStr (lit "Contact not found"));
            ("contactId", JStr (lit "42")) ]
  /\ status_of (get_contact (lit "42") (world_of (refusing_remote 503)))
     = Some 500.
Proof.
  destruct (C8_getContact_not_found (lit "42") (lit "https://api.hubapi.com")
              (world_of (refusing_remote 404)) eq_refl)
    as (Hservice & Hroute).
  destruct (C8_getContact_not_found (lit "42") (lit "https://api.hubapi.com")
              (world_of (refusing_remote 503)) eq_refl)
    as (_ & Hdown).
  split; [|split].
  - destruct (Hroute _ eq_refl) as (Hmissing & _).
    apply Hmissing. reflexivity.
  - destruct (Hservice (JArr [str "email"; str "phone"]) (lit "email,phone")
                _ eq_refl eq_refl) as (Hmissing & _).
    rewrite Hmissing; reflexivity.
  - destruct (Hdown _ eq_refl) as (_ & Hother).
    unfold status_of. rewrite Hother; [reflexivity | discriminate].
Defined.

(* ================================================================== *)
(** * Search *)

Lemma search_filters_list (query : obj) :
  search_filters query =
  map (fun pp : string * string => (snd pp, obj_get query (fst pp)))
    (present_params query).
Proof.
  unfold search_filters, filter_from_query, present_params, search_params.
  cbn [List.filter fst snd].
  repeat match goal with
  | |- context [truthy ?v] => destruct (truthy v)
  end; reflexivity.
Qed.

Lemma truthy_pushes (v : jsval) :
  truthy v = true -> negb (is_undefined v) && negb (is_null v) = true.
Proof. destruct v; simpl; congruence. Qed.

Lemma mapM_cons {A B} (f : A -> result B) (a : A) (l : list A) :
  mapM f (a :: l) =
  match f a with
  | Throw e => Throw e
  | Ok b =>
      match mapM f l with
      | Throw e => Throw e
      | Ok bs => Ok (b :: bs)
      end
  end.
Proof. reflexivity. Qed.

Lemma forEachM_push (query : obj) (pps : list (string * string))
    (acc : list jsval) (w : world) :
  Forall (fun pp => truthy (obj_get query (fst pp)) = true) pps ->
  forEachM push_filter
    (map (fun pp : string * string => (snd pp, obj_get query (fst pp))) pps)
    acc w =
  (match mapM (predicate_for query) pps with
   | Ok ps => Ok (acc ++ ps)
   | Throw e => Throw e
   end, w).
Proof.
  intros H. revert acc. induction H as [|pp pps Hpp _ IH]; intros acc.
  - cbn. rewrite app_nil_r. reflexivity.
  - rewrite mapM_cons. cbn [map forEachM]. unfold bind at 1.
    unfold push_filter at 1. cbn [fst snd].
    rewrite (truthy_pushes _ Hpp). unfold bind, lift, ret, predicate_for at 1.
    destruct (call_toString (obj_get query (fst pp))) as [t|e]; [|reflexivity].
    rewrite IH. fold (eq_predicate (snd pp) t).
    destruct (mapM (predicate_for query) pps) as [ps|e]; [|reflexivity].
    rewrite <- app_assoc. reflexivity.
Qed.

Lemma mapM_length {A B} (f : A -> result B) (l : list A) (bs : list B) :
  mapM f l = Ok bs -> length bs = length l.
Proof.
  revert bs. induction l as [|a l IH]; intros bs.
  - intros [= <-]. reflexivity.
  - rewrite mapM_cons. destruct (f a); [|discriminate].
    destruct (mapM f l); [|discriminate].
    intros [= <-]. cbn [length]. f_equal. apply IH. reflexivity.
Qed.

Lemma searchPayload_run (query : obj) (limit : jsval) (predicates : list jsval)
    (w : world) :
  expected_predicates query = Ok predicates ->
  searchPayload (search_filters query) limit w =
  (Ok (JObj [ ("filterGroups", JArr (filter_groups predicates));
              ("properties", JArr defaultProps);
              ("limit", limit) ]), w).
Proof.
  unfold expected_predicates. intros Hpreds.
  pose proof (mapM_length _ _ _ Hpreds) as Hlen.
  unfold searchPayload, obj_entries, obj_keys. rewrite search_filters_list.
  rewrite !length_map. unfold bind.
  set (present := present_params query) in *.
  destruct present as [|pp present'] eqn:Hpresent.
  - cbn in Hpreds. injection Hpreds as <-. reflexivity.
  - rewrite <- Hpresent in *.
    replace (0 <? Z.of_nat (length present)) with true
      by (rewrite Hpresent; reflexivity).
    cbv beta iota. rewrite forEachM_push, Hpreds.
    + cbn [app]. unfold ret.
      destruct predicates as [|p ps]; [rewrite Hpresent in Hlen; discriminate|].
      reflexivity.
    + apply List.Forall_forall. intros x Hx.
      unfold present, present_params in Hx.
      apply filter_In in Hx. tauto.
Qed.

Lemma searchContacts_call (filters : obj) (limit payload : jsval) (w : world)
    (url0 : jsstring) :
  searchPayload filters (if is_undefined limit then JNum 10 else limit) w
  = (Ok payload, w) ->
  to_string (baseUrl w) = Ok url0 ->
  exists r,
    searchContacts filters limit w =
    (r, record_call w (mkRequest POST (url0 ++ endpoints_contactsSearch) payload)).
Proof.
  intros Hpayload Hbase.
  unfold searchContacts, try_catch, bind. rewrite Hpayload.
  unfold get_baseUrl, text, lift. rewrite Hbase. unfold axios.
  destruct (remote w (calls w) _) as [r|e]; [|eexists; reflexivity].
  destruct (get_field (rs_data r) "total"); [|eexists; reflexivity].
  destruct (get_field (rs_data r) "results") as [results|]; [|eexists; reflexivity].
  destruct (get_field results "length"); eexists; reflexivity.
Qed.

Lemma obj_get_delete (o : obj) (k k' : string) :
  obj_get (obj_delete o k) k' =
  if String.eqb k k' then JUndefined else obj_get o k'.
Proof.
  unfold obj_get. rewrite obj_lookup_delete.
  destruct (String.eqb k k'); reflexivity.
Qed.

Lemma search_contacts_depends (q1 q2 : obj) (w : world) :
  search_limit q1 = search_limit q2 ->
  search_filters q1 = search_filters q2 ->
  search_contacts q1 w = search_contacts q2 w.
Proof. intros Hl Hf. unfold search_contacts. rewrite Hl, Hf. reflexivity. Qed.

Lemma search_limit_effective (query : obj) (parsed : option Z) :
  parseInt_val (obj_get query "limit") = Ok parsed ->
  search_limit query = Ok (effective_limit parsed).
Proof. unfold search_limit. intros ->. destruct parsed; reflexivity. Qed.

(** C10: for every search request, a recognized parameter whose value
    is the empty string is treated as if it were absent; a limit that
    parses to 0 or to no number is replaced by 10, any other finite
    limit is used as parsed; and the search payload holds at most one
    filter group, made of one [EQ] predicate per recognized parameter
    with a non-empty value, the value in string form. *)
Theorem C10_search_request (query : obj) (w : world) :
  (forall k,
     In k (map fst search_params) ->
     obj_get query k = JStr [] ->
     search_contacts query w = search_contacts (obj_delete query k) w)
  /\ (parseInt_val (obj_get query "limit") = Ok None
      \/ parseInt_val (obj_get query "limit") = Ok (Some 0) ->
      search_limit query = Ok 10)
  /\ (forall parsed predicates url0,
        parseInt_val (obj_get query "limit") = Ok parsed ->
        finite_limit parsed ->
        expected_predicates query = Ok predicates ->
        to_string (baseUrl w) = Ok url0 ->
        (length (filter_groups predicates) <= 1)%nat
        /\ length predicates = length (present_params query)
        /\ calls (snd (search_contacts query w)) =
           calls w ++
           [mkRequest POST (url0 ++ endpoints_contactsSearch)
              (JObj [ ("filterGroups", JArr (filter_groups predicates));
                      ("properties", JArr defaultProps);
                      ("limit", JNum (effective_limit parsed)) ])]).
Proof.
  split; [|split].
  - intros k Hk Hempty. apply search_contacts_depends.
    + unfold search_limit. rewrite obj_get_delete.
      cbn [map fst search_params In] in Hk.
      repeat (destruct Hk as [<-|Hk]; [reflexivity|]). contradiction.
    + unfold search_filters, filter_from_query. rewrite !obj_get_delete.
      cbn [map fst search_params In] in Hk.
      repeat (destruct Hk as [<-|Hk];
              [cbn [String.eqb Ascii.eqb Bool.eqb]; rewrite Hempty; reflexivity|]).
      contradiction.
  - unfold search_limit. intros [-> | ->]; reflexivity.
  - intros parsed predicates url0 Hparsed _ Hpreds Hbase. split; [|split].
    + destruct predicates; cbn; lia.
    + apply (mapM_length _ _ _ Hpreds).
    + pose proof (search_limit_effective query parsed Hparsed) as Hlimit.
      pose proof (searchPayload_run query (JNum (effective_limit parsed))
                    predicates w Hpreds) as Hp.
      destruct (searchContacts_call _ (JNum (effective_limit parsed)) _ w url0
                  Hp Hbase) as (r & Hcall).
      unfold search_contacts, try_catch, bind, lift. rewrite Hlimit, Hcall.
      destruct r as [result|e]; [|reflexivity].
      destruct (shape_contacts _ _); reflexivity.
Qed.

Lemma C10_search_request_witness :
  search_contacts sample_query (world_of accepting_remote)
  = search_contacts (obj_delete sample_query "email")
      (world_of accepting_remote)
  /\ search_limit sample_query = Ok 10
  /\ calls (snd (search_contacts sample_query (world_of accepting_remote)))
     = [mkRequest POST (lit "https://api.hubapi.com" ++ endpoints_contactsSearch)
          (JObj [ ("filterGroups",
                    JArr [JObj [("filters",
                                  JArr [eq_predicate "firstname" (lit "Al")])]]);
                  ("properties", JArr defaultProps);
                  ("limit", JNum 10) ])]
  /\ calls (snd (search_contacts [("limit", str "25 per page")]
                   (world_of accepting_remote)))
     = [mkRequest POST (lit "https://api.hubapi.com" ++ endpoints_contactsSearch)
          (JObj [ ("filterGroups", JArr []);
                  ("properties", JArr defaultProps);
                  ("limit", JNum 25) ])].
Proof.
  destruct (C10_search_request sample_query (world_of accepting_remote))
    as (Hempty & Hlimit & Hpayload).
  destruct (C10_search_request [("limit", str "25 per page")]
              (world_of accepting_remote))
    as (_ & _ & Hpaged).
  split; [|split; [|split]].
  - apply Hempty; [cbn; auto | reflexivity].
  - apply Hlimit. right. reflexivity.
  - apply (Hpayload (Some 0) [eq_predicate "firstname" (lit "Al")]
             (lit "https://api.hubapi.com")); reflexivity.
  - apply (Hpaged (Some 25) [] (lit "https://api.hubapi.com")); reflexivity.
Defined.

(* ================================================================== *)
(** * Batch creation *)

(** The batch maps a contact with the literal of [createContact]: same
    keys, same values. *)
Lemma batch_input_literal (contactData : jsval) (w : world) :
  batch_input contactData w =
  match mapped_literal contactData w with
  | (Ok properties, w') => (Ok (JObj [("properties", JObj properties)]), w')
  | (Throw e, w') => (Throw e, w')
  end.
Proof. destruct contactData; reflexivity. Qed.

(** What [createContact] sends is the stripped form of that literal. *)
Lemma createContact_literal_stripped (contactData : jsval) (w : world) :
  createContact_properties contactData w =
  match mapped_literal contactData w with
  | (Ok properties, w') => (Ok (strip_empty properties), w')
  | (Throw e, w') => (Throw e, w')
  end.
Proof. reflexivity. Qed.

(** C1: on a contact whose phone is the empty string, the properties
    [batchCreateContacts] puts in its request keep [phone: ''] (also
    once the [undefined] values are left out on the wire), while
    [createContact] sends no [phone] key for the same contact. *)
Theorem C1_batch_keeps_empty_values :
  let w := world_of accepting_remote in
  exists created batched : obj,
    createContact_properties contact_with_empty_phone w = (Ok created, w)
    /\ batch_inputs [contact_with_empty_phone] w
       = (Ok [JObj [("properties", JObj batched)]], w)
    /\ calls (snd (batchCreateContacts [contact_with_empty_phone] w))
       = [mkRequest POST
            (lit "https://api.hubapi.com" ++ endpoints_contactsBatch
             ++ lit "/create")
            (JObj [("inputs", JArr [JObj [("properties", JObj batched)]])])]
    /\ created = [ ("firstname", str "A"); ("lastname", str "B");
                   ("email", str "a@b.co") ]
    /\ on_the_wire batched
       = [ ("firstname", str "A"); ("lastname", str "B");
           ("email", str "a@b.co"); ("phone", JStr []) ]
    /\ obj_lookup created "phone" = None
    /\ obj_lookup batched "phone" = Some (JStr []).
Proof. do 2 eexists. repeat split. Qed.

Lemma post_batch_needs_array (body contacts : jsval) (w : world) :
  get_field body "contacts" = Ok contacts ->
  is_array contacts = false ->
  exists message, post_batch body w = (Ok (bad_request message), w).
Proof.
  intros Hget Harr. unfold post_batch, try_catch, bind, lift.
  rewrite Hget, Harr, orb_true_r. eexists. reflexivity.
Qed.

Lemma batch_validate_pass (contact : jsval) (rest : list jsval) (i : Z)
    (w : world) :
  required_fields_present contact = Some true ->
  batch_validate (contact :: rest) i w = batch_validate rest (i + 1) w.
Proof.
  destruct contact; try discriminate. cbn [required_fields_present].
  intros [= H]. apply andb_prop in H as [H He]. apply andb_prop in H as [Hf Hl].
  cbn [batch_validate]. unfold bind, lift. cbn [get_field].
  rewrite Hf, Hl, He. reflexivity.
Qed.

Lemma batch_validate_miss (contact : jsval) (rest : list jsval) (i : Z)
    (w : world) :
  required_fields_present contact = Some false ->
  exists message,
    batch_validate (contact :: rest) i w = (Ok (Some (bad_request message)), w).
Proof.
  destruct contact; try discriminate; cbn [required_fields_present];
    intros H; cbn [batch_validate]; unfold bind, lift; cbn [get_field];
    try (eexists; reflexivity).
  injection H as H.
  destruct (truthy (obj_get fields "firstName"));
    destruct (truthy (obj_get fields "lastName"));
    destruct (truthy (obj_get fields "email")); try discriminate;
    eexists; reflexivity.
Qed.

Lemma batch_validate_all (items : list jsval) (i : Z) (w : world) :
  Forall (fun c => required_fields_present c = Some true) items ->
  batch_validate items i w = (Ok None, w).
Proof.
  intros H. revert i. induction H as [|c items Hc _ IH]; intros i.
  - reflexivity.
  - rewrite (batch_validate_pass c items i w Hc). apply IH.
Qed.

Lemma batch_validate_first_miss (before after : list jsval) (contact : jsval)
    (i : Z) (w : world) :
  Forall (fun c => required_fields_present c = Some true) before ->
  required_fields_present contact = Some false ->
  exists message,
    batch_validate (before ++ contact :: after) i w =
    (Ok (Some (bad_request message)), w).
Proof.
  intros H Hmiss. revert i. induction H as [|c before Hc _ IH]; intros i.
  - apply batch_validate_miss. exact Hmiss.
  - cbn [app]. rewrite (batch_validate_pass c _ i w Hc). apply IH.
Qed.

(** A batch with an element that misses a required field is refused
    with 400 before any remote call, when the elements before it pass. *)
Lemma post_batch_missing_field (before after : list jsval) (contact : jsval)
    (w : world) :
  Forall (fun c => required_fields_present c = Some true) before ->
  required_fields_present contact = Some false ->
  exists message,
    post_batch (JObj [("contacts", JArr (before ++ contact :: after))]) w =
    (Ok (bad_request message), w).
Proof.
  intros H Hmiss.
  destruct (batch_validate_first_miss before after contact 0 w H Hmiss)
    as (message & Hv).
  exists message. unfold post_batch, try_catch, bind at 1, lift.
  cbn [get_field obj_get obj_lookup String.eqb Ascii.eqb Bool.eqb truthy
       is_array negb orb array_items].
  unfold bind at 1. rewrite Hv. reflexivity.
Qed.

Lemma batch_inputs_pass (items : list jsval) (w : world) :
  Forall (fun c => required_fields_present c = Some true) items ->
  exists inputs, batch_inputs items w = (Ok inputs, w).
Proof.
  induction 1 as [|c items Hc _ (inputs & IH)].
  - eexists. reflexivity.
  - destruct c; try discriminate.
    cbn [batch_inputs]. unfold bind at 1.
    change (batch_input (JObj fields) w) with
      (Ok (JObj [("properties",
                  JObj [ ("firstname", obj_get fields "firstName");
                         ("lastname", obj_get fields "lastName");
                         ("email", obj_get fields "email");
                         ("phone", obj_get fields "phone");
                         ("hubspot_owner_id", obj_get fields "ownerId");
                         ("candidate_experience", obj_get fields "candidateExperience");
                         ("candidate_date_of_joining", obj_get fields "candidateDateOfJoining");
                         ("candidate_name", obj_get fields "candidateName");
                         ("candidate_past_company", obj_get fields "candidatePastCompany") ])]), w).
    cbv beta iota. unfold bind at 1. rewrite IH. eexists. reflexivity.
Qed.

(** A batch whose elements all have the three required fields goes to
    the remote side in one call, whatever the emails look like. *)
Lemma post_batch_single_call (items : list jsval) (w : world) (url0 : jsstring) :
  Forall (fun c => required_fields_present c = Some true) items ->
  to_string (baseUrl w) = Ok url0 ->
  exists inputs,
    batch_inputs items w = (Ok inputs, w)
    /\ calls (snd (post_batch (JObj [("contacts", JArr items)]) w)) =
       calls w ++
       [mkRequest POST (url0 ++ endpoints_contactsBatch ++ lit "/create")
          (JObj [("inputs", JArr inputs)])].
Proof.
  intros Hall Hbase.
  destruct (batch_inputs_pass items w Hall) as (inputs & Hin).
  exists inputs. split; [exact Hin|].
  unfold post_batch, try_catch, bind at 1, lift.
  cbn [get_field obj_get obj_lookup String.eqb Ascii.eqb Bool.eqb truthy
       is_array negb orb array_items].
  unfold bind at 1. rewrite (batch_validate_all items 0 w Hall).
  unfold bind at 1, batchCreateContacts, try_catch, bind at 1.
  rewrite Hin. unfold bind, get_baseUrl, text, lift. rewrite Hbase.
  unfold axios.
  destruct (remote w (calls w) _) as [r|e]; [|reflexivity].
  destruct (get_field (rs_data r) "results") as [results|]; [|reflexivity].
  destruct (get_field results "length"); [|reflexivity].
  unfold ret. cbv beta iota.
  match goal with
  | |- context [shape_contacts ?f ?c] => destruct (shape_contacts f c)
  end; reflexivity.
Qed.

(** C4: a batch whose only element has the three required fields and an
    email without [@] is refused by the create validation for its email
    format, yet the batch route makes the remote call and answers 201;
    and a batch whose element is [null] is answered with 500, not 400. *)
Theorem C4_batch_skips_email_format :
  let w := world_of accepting_remote in
  let body := JObj [("contacts", JArr [contact_with_bad_email])] in
  validateContactData contact_with_bad_email
  = Ok (Some (bad_request (lit "Invalid email format")))
  /\ status_of (post_batch body w) = Some 201
  /\ length (calls (snd (post_batch body w))) = 1%nat
  /\ status_of (post_batch (JObj [("contacts", JArr [JNull])]) w) = Some 500
  /\ calls (snd (post_batch (JObj [("contacts", JArr [JNull])]) w)) = [].
Proof. repeat split. Qed.

(* ================================================================== *)
(** * Configuration *)

Lemma env_get_shape (env : environment) (name : string) :
  env_get env name = JUndefined \/ exists s, env_get env name = JStr s.
Proof.
  induction env as [|[k v] env IH]; cbn [env_get]; [auto|].
  destruct (String.eqb k name); eauto.
Qed.

Lemma optional_value_string (env : environment) (name : string) (d : jsstring) :
  exists s, js_or (env_get env name) (JStr d) = JStr s.
Proof.
  destruct (env_get_shape env name) as [-> | [s ->]]; [eexists; reflexivity|].
  unfold js_or. destruct (truthy (JStr s)); eexists; reflexivity.
Qed.

Lemma load_config_cases (env : environment) :
  load_config env =
  let printed := warning_lines (v_warnings (run_validation env)) in
  match validate_token (token_value env) with
  | Some _ =>
      (printed,
       Throw (EError (lit "Environment validation failed: " ++ lit "1"
                      ++ lit " error(s) found")))
  | None =>
      (printed,
       Ok (mkConfig (token_value env)
             (match validate_base_url (base_url_value env) with
              | Some _ => JUndefined
              | None => base_url_value env
              end)
             (match validate_port (port_value env) with
              | Some _ => None
              | None => parseInt (string_of (port_value env))
              end)))
  end.
Proof.
  unfold load_config, validateEnvironment, run_validation,
    REQUIRED_ENV_VARS, OPTIONAL_ENV_VARS.
  cbn [fold_left]. unfold check_optional, check_required.
  cbn [ev_name ev_validator ev_default ev_description].
  fold (token_value env) (base_url_value env) (port_value env).
  destruct (optional_value_string env "PORT" (lit "3000")) as (p & Hp).
  fold (port_value env) in Hp.
  destruct (validate_token (token_value env));
    destruct (validate_base_url (base_url_value env));
    destruct (validate_port (port_value env));
    cbn [v_errors v_warnings v_config app length]; try reflexivity.
  all: cbn [obj_set obj_get obj_lookup String.eqb Ascii.eqb Bool.eqb
            parseInt_val to_string].
  all: try reflexivity.
  all: rewrite Hp; reflexivity.
Qed.

Lemma load_config_fatal_iff (env : environment) :
  (exists e, snd (load_config env) = Throw e) <->
  validate_token (token_value env) <> None.
Proof.
  rewrite load_config_cases. cbv zeta.
  destruct (validate_token (token_value env)); cbn [snd].
  - split; [congruence | intros _; eexists; reflexivity].
  - split; [intros [e He]; discriminate | congruence].
Qed.

Lemma warning_printed (w : finding) (ws1 ws2 : list finding) :
  truthy (f_default w) = true ->
  In (lit "   Using default: " ++ string_of (f_default w))
    (warning_lines (ws1 ++ w :: ws2)).
Proof.
  intros H. unfold warning_lines. apply in_flat_map. exists w. split.
  - apply in_or_app. right. left. reflexivity.
  - rewrite H. cbn. auto.
Qed.

(** An optional setting that fails its validator: the default is
    announced, the configuration is left without a value. *)
Lemma malformed_base_url_dropped (env : environment) :
  validate_token (token_value env) = None ->
  validate_base_url (base_url_value env) <> None ->
  exists printed cfg,
    load_config env = (printed, Ok cfg)
    /\ In (lit "   Using default: https://api.hubapi.com") printed
    /\ cfg_baseUrl cfg = JUndefined.
Proof.
  intros Htok Hurl. rewrite load_config_cases. cbv zeta. rewrite Htok.
  do 2 eexists. split; [reflexivity|]. split.
  - unfold run_validation, REQUIRED_ENV_VARS, OPTIONAL_ENV_VARS.
    cbn [fold_left]. unfold check_optional, check_required.
    cbn [ev_name ev_validator ev_default ev_description].
    fold (token_value env) (base_url_value env) (port_value env).
    rewrite Htok.
    destruct (validate_base_url (base_url_value env)) as [err|]; [|congruence].
    destruct (validate_port (port_value env));
      cbn [v_warnings v_errors v_config app].
    + apply (warning_printed
               (mkFinding "HUBSPOT_BASE_URL" err (lit "HubSpot API base URL")
                  (JStr (lit "https://api.hubapi.com"))) [] [_]).
      reflexivity.
    + apply (warning_printed
               (mkFinding "HUBSPOT_BASE_URL" err (lit "HubSpot API base URL")
                  (JStr (lit "https://api.hubapi.com"))) [] []).
      reflexivity.
  - cbn [cfg_baseUrl].
    destruct (validate_base_url (base_url_value env)); congruence.
Qed.

Lemma malformed_port_dropped (env : environment) :
  validate_token (token_value env) = None ->
  validate_port (port_value env) <> None ->
  exists printed cfg,
    load_config env = (printed, Ok cfg)
    /\ In (lit "   Using default: 3000") printed
    /\ cfg_port cfg = None.
Proof.
  intros Htok Hport. rewrite load_config_cases. cbv zeta. rewrite Htok.
  do 2 eexists. split; [reflexivity|]. split.
  - unfold run_validation, REQUIRED_ENV_VARS, OPTIONAL_ENV_VARS.
    cbn [fold_left]. unfold check_optional, check_required.
    cbn [ev_name ev_validator ev_default ev_description].
    fold (token_value env) (base_url_value env) (port_value env).
    rewrite Htok.
    destruct (validate_port (port_value env)) as [err|]; [|congruence].
    destruct (validate_base_url (base_url_value env));
      cbn [v_warnings v_errors v_config app].
    + apply (warning_printed
               (mkFinding "PORT" err (lit "Server port number")
                  (JStr (lit "3000"))) [_] []).
      reflexivity.
    + apply (warning_printed
               (mkFinding "PORT" err (lit "Server port number")
                  (JStr (lit "3000"))) [] []).
      reflexivity.
  - cbn [cfg_port].
    destruct (validate_port (port_value env)); congruence.
Qed.

(** C9: with a valid token, a base URL that is not HTTPS and a port that
    is not a number, loading the configuration does not throw and the
    warnings announce the defaults, but the configuration holds
    [undefined] for the base URL and [NaN] for the port. *)
Theorem C9_malformed_optional_not_defaulted :
  exists printed cfg,
    load_config env_with_bad_optionals = (printed, Ok cfg)
    /\ In (lit "   Using default: https://api.hubapi.com") printed
    /\ In (lit "   Using default: 3000") printed
    /\ cfg_baseUrl cfg = JUndefined
    /\ cfg_port cfg = None.
Proof.
  do 2 eexists. split; [vm_compute; reflexivity|].
  repeat split; vm_compute; tauto.
Qed.

(* ================================================================== *)
(** * The email pattern: what it accepts *)

Lemma nullable_matches (r : regex) : nullable r = true <-> matches r [].
Proof.
  split.
  - induction r; simpl; intros H; try discriminate.
    + constructor.
    + apply andb_prop in H as [H1 H2].
      apply (MCat r1 r2 [] []); auto.
    + apply orb_prop in H as [H|H]; [apply MAltL | apply MAltR]; auto.
    + constructor.
  - intros H. remember [] as s eqn:Hs.
    induction H; simpl; try discriminate; auto.
    + apply app_eq_nil in Hs as [-> ->]. rewrite IHmatches1, IHmatches2; auto.
    + rewrite IHmatches; auto.
    + rewrite IHmatches; auto. apply orb_true_r.
Qed.

Lemma matches_deriv (r : regex) (c : N) (s : jsstring) :
  matches (deriv c r) s -> matches r (c :: s).
Proof.
  revert s. induction r; simpl; intros s H.
  - inversion H.
  - inversion H.
  - destruct (p c) eqn:E; inversion H; subst. constructor. exact E.
  - destruct (nullable r1) eqn:E.
    + inversion H as [| | | ? ? ? H' | ? ? ? H' | |]; subst.
      * inversion H' as [| | ? ? s1 s2 H1 H2 | | | |]; subst.
        apply (MCat r1 r2 (c :: s1) s2); auto.
      * apply nullable_matches in E.
        apply (MCat r1 r2 [] (c :: s)); auto.
    + inversion H as [| | ? ? s1 s2 H1 H2 | | | |]; subst.
      apply (MCat r1 r2 (c :: s1) s2); auto.
  - inversion H; subst; [apply MAltL | apply MAltR]; auto.
  - inversion H as [| | ? ? s1 s2 H1 H2 | | | |]; subst.
    apply (MStarApp r (c :: s1) s2); auto.
Qed.

Lemma deriv_matches (r : regex) (c : N) (s : jsstring) :
  matches r (c :: s) -> matches (deriv c r) s.
Proof.
  intros H. remember (c :: s) as s0 eqn:Hs. revert c s Hs.
  induction H; intros c0 s0 Hs; simpl; try discriminate.
  - injection Hs as -> <-. rewrite H. constructor.
  - destruct s1 as [|c1 s1].
    + simpl in Hs. subst s2.
      apply nullable_matches in H. rewrite H.
      apply MAltR. apply IHmatches2. reflexivity.
    + injection Hs as -> <-.
      assert (matches (RCat (deriv c0 r1) r2) (s1 ++ s2)) as Hcat
        by (constructor; auto).
      destruct (nullable r1); [apply MAltL|]; exact Hcat.
  - apply MAltL. apply IHmatches. exact Hs.
  - apply MAltR. apply IHmatches. exact Hs.
  - destruct s1 as [|c1 s1].
    + simpl in Hs. apply IHmatches2. exact Hs.
    + injection Hs as -> <-. constructor; auto.
Qed.

Lemma regex_test_matches (r : regex) (s : jsstring) :
  regex_test r s = true <-> matches r s.
Proof.
  revert r. induction s as [|c s IH]; intros r; simpl.
  - apply nullable_matches.
  - rewrite IH. split; [apply matches_deriv | apply deriv_matches].
Qed.

Lemma matches_class (p : N -> bool) (s : jsstring) :
  matches (RClass p) s <-> exists c, s = [c] /\ p c = true.
Proof.
  split.
  - intros H. inversion H; subst. eauto.
  - intros (c & -> & H). constructor. exact H.
Qed.

Lemma matches_star_class (p : N -> bool) (s : jsstring) :
  matches (RStar (RClass p)) s <-> forallb p s = true.
Proof.
  split.
  - intros H. remember (RStar (RClass p)) as r eqn:Hr.
    induction H; try discriminate; [reflexivity|].
    injection Hr as ->. inversion H; subst. simpl.
    rewrite IHmatches2 by reflexivity. rewrite andb_true_r. assumption.
  - induction s as [|c s IH]; simpl; intros H.
    + constructor.
    + apply andb_prop in H as [Hc Hs].
      apply (MStarApp (RClass p) [c] s); [constructor; exact Hc | auto].
Qed.

Lemma matches_plus_class (p : N -> bool) (s : jsstring) :
  matches (RPlus (RClass p)) s <-> s <> [] /\ forallb p s = true.
Proof.
  unfold RPlus. split.
  - intros H. inversion H as [| | ? ? s1 s2 H1 H2 | | | |]; subst.
    apply matches_class in H1 as (c & -> & Hc).
    apply matches_star_class in H2. simpl. rewrite Hc, H2.
    split; [discriminate | reflexivity].
  - intros [Hne H]. destruct s as [|c s]; [congruence|].
    simpl in H. apply andb_prop in H as [Hc Hs].
    apply (MCat (RClass p) (RStar (RClass p)) [c] s).
    + constructor. exact Hc.
    + apply matches_star_class. exact Hs.
Qed.

Lemma matches_char (a : ascii) (s : jsstring) :
  matches (RChar a) s <-> s = [N_of_ascii a].
Proof.
  unfold RChar. rewrite matches_class. split.
  - intros (c & -> & H). apply N.eqb_eq in H. congruence.
  - intros ->. eexists. split; [reflexivity | apply N.eqb_refl].
Qed.

Lemma matches_cat (r1 r2 : regex) (s : jsstring) :
  matches (RCat r1 r2) s <->
  exists s1 s2, s = s1 ++ s2 /\ matches r1 s1 /\ matches r2 s2.
Proof.
  split.
  - intros H. inversion H; subst. eauto.
  - intros (s1 & s2 & -> & H1 & H2). constructor; auto.
Qed.

Lemma accepted_email_shape (s : jsstring) :
  regex_test emailRegex s = true -> email_shape s.
Proof.
  rewrite regex_test_matches. unfold emailRegex, email_shape, email_part.
  rewrite matches_cat.
  intros (a & s1 & -> & Ha & H1).
  apply matches_cat in H1 as (at_ & s2 & -> & Hat & H2).
  apply matches_cat in H2 as (b & s3 & -> & Hb & H3).
  apply matches_cat in H3 as (dot & c & -> & Hdot & Hc).
  apply matches_char in Hat, Hdot. subst at_ dot.
  apply matches_plus_class in Ha, Hb, Hc.
  exists a, b, c. auto.
Qed.

(** The email pattern accepts exactly the strings of the form
    [a@b.c] where [a], [b] and [c] are non-empty and hold neither white
    space nor [@]. *)
Theorem email_pattern_accepts (s : jsstring) :
  regex_test emailRegex s = true <-> email_shape s.
Proof.
  split; [apply accepted_email_shape|].
  rewrite regex_test_matches. unfold emailRegex, email_shape, email_part.
  intros (a & b & c & -> & Ha & Hb & Hc).
  apply matches_plus_class in Ha, Hb, Hc.
  apply matches_cat. exists a, (lit "@" ++ b ++ lit "." ++ c).
  split; [reflexivity|]. split; [exact Ha|].
  apply matches_cat. exists (lit "@"), (b ++ lit "." ++ c).
  split; [reflexivity|]. split; [apply matches_char; reflexivity|].
  apply matches_cat. exists b, (lit "." ++ c).
  split; [reflexivity|]. split; [exact Hb|].
  apply matches_cat. exists (lit "."), c.
  split; [reflexivity|]. split; [apply matches_char; reflexivity | exact Hc].
Qed.

(** An accepted email has exactly one [@] and no white space. *)
Theorem accepted_email_one_at (s : jsstring) :
  regex_test emailRegex s = true ->
  length (List.filter (N.eqb (N_of_ascii "@")) s) = 1%nat
  /\ forallb (fun c => negb (is_space c)) s = true.
Proof.
  intros H. apply accepted_email_shape in H.
  destruct H as (a & b & c & -> & [_ Ha] & [_ Hb] & [_ Hc]).
  assert (forall t, forallb not_space_or_at t = true ->
            List.filter (N.eqb (N_of_ascii "@")) t = []
            /\ forallb (fun c => negb (is_space c)) t = true) as Hpart.
  { induction t as [|x t IH]; cbn [List.filter forallb]; [auto|].
    intros Hx. apply andb_prop in Hx as [Hx Ht].
    destruct (IH Ht) as [-> ->]. unfold not_space_or_at in Hx.
    apply negb_true_iff, orb_false_iff in Hx as [Hs Hat].
    rewrite N.eqb_sym in Hat. rewrite Hat, Hs. auto. }
  destruct (Hpart a Ha) as [Fa Sa], (Hpart b Hb) as [Fb Sb],
    (Hpart c Hc) as [Fc Sc].
  rewrite !List.filter_app, !List.forallb_app, Fa, Fb, Fc, Sa, Sb, Sc.
  split; reflexivity.
Qed.

Lemma accepted_email_one_at_witness :
  length (List.filter (N.eqb (N_of_ascii "@")) (lit "a@b.co")) = 1%nat
  /\ forallb (fun c => negb (is_space c)) (lit "a@b.co") = true.
Proof. apply (accepted_email_one_at (lit "a@b.co")). reflexivity. Defined.

(* ================================================================== *)
(** * The strip loop is a filter *)

Lemma obj_delete_filter (p : obj) (key : string) :
  obj_delete p key =
  List.filter (fun kv => negb (String.eqb (fst kv) key)) p.
Proof.
  induction p as [|[k v] p IH]; simpl; [reflexivity|].
  destruct (String.eqb k key); simpl; rewrite IH; reflexivity.
Qed.

Lemma nodup_lookup (p : obj) (k : string) (v : jsval) :
  List.NoDup (obj_keys p) -> In (k, v) p -> obj_lookup p k = Some v.
Proof.
  induction p as [|[k0 v0] p IH]; simpl; intros Hnd Hin; [contradiction|].
  apply List.NoDup_cons_iff in Hnd as [Hnotin Hnd].
  destruct Hin as [[= -> ->]|Hin].
  - rewrite String.eqb_refl. reflexivity.
  - destruct (String.eqb k0 k) eqn:E.
    + apply String.eqb_eq in E. subst k0. exfalso. apply Hnotin.
      apply in_map_iff. exists (k, v). auto.
    + apply IH; assumption.
Qed.

Lemma nodup_filter_keys (f : string * jsval -> bool) (p : obj) :
  List.NoDup (obj_keys p) -> List.NoDup (obj_keys (List.filter f p)).
Proof.
  unfold obj_keys. induction p as [|kv p IH]; simpl; intros H; [constructor|].
  apply List.NoDup_cons_iff in H as [Hnotin Hnd].
  destruct (f kv); simpl; [|auto].
  constructor; [|auto]. intros Hin. apply Hnotin.
  apply in_map_iff in Hin as (x & Hx & Hin).
  apply filter_In in Hin as [Hin _]. apply in_map_iff. eauto.
Qed.

Lemma filter_all {A} (l : list A) : List.filter (fun _ => true) l = l.
Proof. induction l; simpl; congruence. Qed.

Lemma filter_twice {A} (f g : A -> bool) (l : list A) :
  List.filter f (List.filter g l) = List.filter (fun x => g x && f x) l.
Proof.
  induction l as [|x l IH]; simpl; [reflexivity|].
  destruct (g x); simpl; [destruct (f x)|]; rewrite IH; reflexivity.
Qed.

Lemma strip_step_filter (p : obj) (key : string) :
  List.NoDup (obj_keys p) ->
  strip_step p key =
  List.filter
    (fun kv => negb (String.eqb (fst kv) key && is_blank (snd kv))) p.
Proof.
  intros Hnd. unfold strip_step. fold (is_blank (obj_get p key)).
  destruct (is_blank (obj_get p key)) eqn:Hb.
  - rewrite obj_delete_filter. apply filter_ext_in. intros [k v] Hin. simpl.
    destruct (String.eqb k key) eqn:E; [|reflexivity].
    apply String.eqb_eq in E. subst k.
    unfold obj_get in Hb. rewrite (nodup_lookup p key v Hnd Hin) in Hb.
    rewrite Hb. reflexivity.
  - rewrite <- (filter_all p) at 1. apply filter_ext_in.
    intros [k v] Hin. simpl.
    destruct (String.eqb k key) eqn:E; [|reflexivity].
    apply String.eqb_eq in E. subst k.
    unfold obj_get in Hb. rewrite (nodup_lookup p key v Hnd Hin) in Hb.
    rewrite Hb. reflexivity.
Qed.

Lemma strip_fold_filter (ks : list string) (p : obj) :
  List.NoDup (obj_keys p) ->
  fold_left strip_step ks p =
  List.filter
    (fun kv =>
       negb (existsb (fun key => String.eqb (fst kv) key) ks
             && is_blank (snd kv))) p.
Proof.
  revert p. induction ks as [|key ks IH]; intros p Hnd; simpl.
  - symmetry. apply filter_all.
  - rewrite strip_step_filter by exact Hnd.
    rewrite IH by (apply nodup_filter_keys; exact Hnd).
    rewrite filter_twice. apply filter_ext. intros [k v]. simpl.
    destruct (String.eqb k key), (existsb _ ks), (is_blank v); reflexivity.
Qed.

Lemma strip_empty_without_blanks (p : obj) :
  List.NoDup (obj_keys p) -> strip_empty p = without_blanks p.
Proof.
  intros Hnd. unfold strip_empty, without_blanks.
  rewrite strip_fold_filter by exact Hnd.
  apply filter_ext_in. intros [k v] Hin. simpl.
  replace (existsb (fun key => String.eqb k key) (obj_keys p)) with true;
    [reflexivity|].
  symmetry. apply existsb_exists. exists k. split.
  - apply in_map_iff. exists (k, v). auto.
  - apply String.eqb_refl.
Qed.

Lemma without_blanks_keys (p : obj) :
  List.NoDup (obj_keys p) -> List.NoDup (obj_keys (without_blanks p)).
Proof. apply nodup_filter_keys. Qed.

(** On an object with distinct keys, the loop that deletes the empty
    properties leaves exactly the bindings with a non-blank value, in
    their order; running it again changes nothing; and serialization,
    which drops [undefined] values, drops nothing more. *)
Theorem strip_loop_is_filter (p : obj) :
  List.NoDup (obj_keys p) ->
  strip_empty p = without_blanks p
  /\ strip_empty (strip_empty p) = strip_empty p
  /\ on_the_wire (strip_empty p) = strip_empty p.
Proof.
  intros Hnd. rewrite (strip_empty_without_blanks p Hnd).
  split; [reflexivity|]. split.
  - rewrite strip_empty_without_blanks by (apply without_blanks_keys; exact Hnd).
    unfold without_blanks. rewrite filter_twice.
    apply filter_ext. intros kv. apply andb_diag.
  - unfold on_the_wire, without_blanks. rewrite filter_twice.
    apply filter_ext. intros [k v]. simpl. unfold is_blank.
    destruct (is_undefined v), (is_null v), (is_empty_string v); reflexivity.
Qed.

Lemma strip_loop_is_filter_witness :
  strip_empty [ ("firstname", str "A"); ("phone", JStr []);
                ("email", JNull); ("lastname", str "B") ]
  = [ ("firstname", str "A"); ("lastname", str "B") ].
Proof.
  apply (strip_loop_is_filter
           [ ("firstname", str "A"); ("phone", JStr []);
             ("email", JNull); ("lastname", str "B") ]).
  repeat constructor; cbn; intuition discriminate.
Defined.

(* ================================================================== *)
(** * The create route *)

Lemma mapped_of_keys (o : obj) : List.NoDup (obj_keys (mapped_of o)).
Proof.
  unfold mapped_of, obj_keys. cbn [map fst].
  repeat (constructor; [cbn [In]; intuition discriminate|]). constructor.
Qed.

Lemma createContact_properties_of (o : obj) (w : world) :
  createContact_properties (contactData_of o) w =
  (Ok (without_blanks (mapped_of o)), w).
Proof.
  rewrite <- (strip_empty_without_blanks _ (mapped_of_keys o)). reflexivity.
Qed.

Lemma js_or_twice (a b : jsval) : js_or (js_or a b) b = js_or a b.
Proof.
  unfold js_or. destruct (truthy a) eqn:Ha; [rewrite Ha; reflexivity|].
  destruct (truthy b); reflexivity.
Qed.

Lemma post_contact_run (o : obj) (w : world) (url0 : jsstring) :
  valid_contact o ->
  to_string (baseUrl w) = Ok url0 ->
  post_contact (JObj o) w =
  (Ok (create_reply (remote w (calls w) (create_request url0 o))),
   record_call w (create_request url0 o)).
Proof.
  intros (Hf & Hl & He & Hok) Hbase.
  unfold post_contact, validateContactData. cbn [destructure_body].
  rewrite Hf, Hl, He, Hok. cbn [negb orb].
  unfold post_contact_handler, try_catch, bind at 1, lift.
  cbn [get_field]. unfold bind at 1 2 3 4 5 6 7 8 9. cbv beta iota.
  fold (contactData_of o).
  unfold createContact, try_catch, bind at 1 2.
  rewrite createContact_properties_of.
  unfold bind, get_baseUrl, text, lift. rewrite Hbase.
  unfold axios. fold (create_request url0 o).
  unfold create_reply.
  destruct (remote w (calls w) (create_request url0 o)) as [r|e];
    [|reflexivity].
  destruct (rs_data r); reflexivity.
Qed.

(** A body that fails the create validation is answered 400 and nothing
    is sent: a required field is missing or empty, or the email does not
    match the pattern. *)
Theorem create_route_rejects_invalid (o : obj) (w : world) :
  (truthy (obj_get o "firstName") && truthy (obj_get o "lastName")
   && truthy (obj_get o "email") = false ->
   post_contact (JObj o) w =
   (Ok (bad_request
          (lit "Missing required fields: firstName, lastName, and email are required")),
    w))
  /\ (truthy (obj_get o "firstName") && truthy (obj_get o "lastName")
      && truthy (obj_get o "email") = true ->
      email_ok (obj_get o "email") = Ok false ->
      post_contact (JObj o) w =
      (Ok (bad_request (lit "Invalid email format")), w)).
Proof.
  unfold post_contact, validateContactData. cbn [destructure_body].
  split.
  - intros H.
    destruct (truthy (obj_get o "firstName")),
      (truthy (obj_get o "lastName")), (truthy (obj_get o "email"));
      try discriminate; reflexivity.
  - intros H Hbad. apply andb_prop in H as [H He].
    apply andb_prop in H as [Hf Hl].
    rewrite Hf, Hl, He, Hbad. reflexivity.
Qed.

Lemma create_route_rejects_invalid_witness :
  post_contact (JObj [("firstName", str "A"); ("email", str "a@b.co")])
    (world_of accepting_remote)
  = (Ok (bad_request
           (lit "Missing required fields: firstName, lastName, and email are required")),
     world_of accepting_remote)
  /\ post_contact contact_with_bad_email (world_of accepting_remote)
     = (Ok (bad_request (lit "Invalid email format")),
        world_of accepting_remote).
Proof.
  split.
  - apply (create_route_rejects_invalid
             [("firstName", str "A"); ("email", str "a@b.co")]).
    reflexivity.
  - apply (create_route_rejects_invalid
             [ ("firstName", str "A"); ("lastName", str "B");
               ("email", str "not-an-email") ]); reflexivity.
Defined.

(** A body that passes the create validation leads to exactly one remote
    call: a POST to the contacts endpoint whose properties are the nine
    mapped fields of the body that are not blank, in the order of the
    mapping.  Nothing else of the body is sent. *)
Theorem create_route_sends_mapped_fields (o : obj) (w : world)
    (url0 : jsstring) :
  valid_contact o ->
  to_string (baseUrl w) = Ok url0 ->
  calls (snd (post_contact (JObj o) w)) =
  calls w ++
  [mkRequest POST (url0 ++ endpoints_contacts)
     (JObj [("properties", JObj (without_blanks (mapped_of o)))])]
  /\ (forall from to, In (from, to) field_renaming ->
        obj_lookup (without_blanks (mapped_of o)) to =
        kept (Some (obj_get o from)))
  /\ obj_lookup (without_blanks (mapped_of o)) "firstname"
     = Some (obj_get o "firstName")
  /\ obj_lookup (without_blanks (mapped_of o)) "lastname"
     = Some (obj_get o "lastName")
  /\ obj_lookup (without_blanks (mapped_of o)) "email"
     = Some (obj_get o "email").
Proof.
  intros Hvalid Hbase.
  rewrite (post_contact_run o w url0 Hvalid Hbase). split; [reflexivity|].
  assert (forall from to, In (from, to) field_renaming ->
            obj_lookup (without_blanks (mapped_of o)) to =
            kept (Some (obj_get o from))) as Hlook.
  { intros from to Hin.
    rewrite <- (strip_empty_without_blanks _ (mapped_of_keys o)).
    rewrite strip_empty_lookup. cbn [In field_renaming] in Hin.
    repeat (destruct Hin as [[= <- <-]|Hin]; [reflexivity|]).
    contradiction. }
  split; [exact Hlook|].
  destruct Hvalid as (Hf & Hl & He & _).
  assert (forall v, truthy v = true -> kept (Some v) = Some v) as Hkept.
  { intros v Hv. destruct v as [| | | | [|] | |]; try discriminate; reflexivity. }
  rewrite (Hlook "firstName" "firstname"), (Hlook "lastName" "lastname"),
    (Hlook "email" "email") by (cbn; auto 10).
  rewrite !Hkept by assumption. auto.
Qed.

Lemma create_route_sends_mapped_fields_witness :
  calls (snd (post_contact
                (JObj [ ("firstName", str "A"); ("lastName", str "B");
                        ("email", str "a@b.co"); ("phone", JStr []);
                        ("nickname", str "Z") ])
                (world_of accepting_remote)))
  = [mkRequest POST (lit "https://api.hubapi.com" ++ endpoints_contacts)
       (JObj [("properties",
                JObj [ ("firstname", str "A"); ("lastname", str "B");
                       ("email", str "a@b.co") ])])].
Proof.
  apply (create_route_sends_mapped_fields
           [ ("firstName", str "A"); ("lastName", str "B");
             ("email", str "a@b.co"); ("phone", JStr []);
             ("nickname", str "Z") ]
           (world_of accepting_remote) (lit "https://api.hubapi.com")).
  - repeat split.
  - reflexivity.
Defined.

(** What the create route answers once the call is made: 500 with the
    client's message and the remote body (or [null]) when the call is
    rejected; 201 with the identifier and the properties of the created
    record when the remote side answers with an object. *)
Theorem create_route_answers (o : obj) (w : world) (url0 : jsstring) :
  valid_contact o ->
  to_string (baseUrl w) = Ok url0 ->
  (forall e,
     remote w (calls w) (create_request url0 o) = Rejected e ->
     fst (post_contact (JObj o) w) =
     Ok (mkReply 500
           (JObj [ ("success", JBool false);
                   ("error",
                     js_or (JStr (ae_message e))
                       (JStr (lit "Internal server error")));
                   ("details", js_or (exn_response_data (EAxios e)) JNull) ])))
  /\ (forall r d,
        remote w (calls w) (create_request url0 o) = Resolved r ->
        rs_data r = JObj d ->
        fst (post_contact (JObj o) w) =
        Ok (mkReply 201
              (JObj [ ("success", JBool true);
                      ("message", JStr (lit "Contact created successfully"));
                      ("data",
                        JObj [ ("contactId", obj_get d "id");
                               ("properties", obj_get d "properties") ]) ]))).
Proof.
  intros Hvalid Hbase.
  rewrite (post_contact_run o w url0 Hvalid Hbase). cbn [fst].
  split.
  - intros e ->. unfold create_reply, server_error, service_failure.
    cbn [exn_error exn_details exn_message]. rewrite js_or_twice. reflexivity.
  - intros r d -> Hd. unfold create_reply. rewrite Hd. reflexivity.
Qed.

Lemma create_route_answers_witness :
  status_of (post_contact contact_with_empty_phone (world_of accepting_remote))
  = Some 201
  /\ status_of (post_contact contact_with_empty_phone
                  (world_of (refusing_remote 409)))
     = Some 500.
Proof.
  split.
  - destruct (create_route_answers
                [ ("firstName", str "A"); ("lastName", str "B");
                  ("email", str "a@b.co"); ("phone", JStr []) ]
                (world_of accepting_remote) (lit "https://api.hubapi.com"))
      as (_ & Hok); [repeat split | reflexivity |].
    unfold status_of, contact_with_empty_phone.
    rewrite (Hok _ _ eq_refl eq_refl). reflexivity.
  - destruct (create_route_answers
                [ ("firstName", str "A"); ("lastName", str "B");
                  ("email", str "a@b.co"); ("phone", JStr []) ]
                (world_of (refusing_remote 409)) (lit "https://api.hubapi.com"))
      as (Hrej & _); [repeat split | reflexivity |].
    unfold status_of, contact_with_empty_phone.
    rewrite (Hrej _ eq_refl). reflexivity.
Defined.

(* ================================================================== *)
(** * Deleting a contact *)

Lemma deleteContact_run (id url0 : jsstring) (w : world) :
  to_string (baseUrl w) = Ok url0 ->
  deleteContact id w =
  (match remote w (calls w) (delete_request url0 id) with
   | Resolved _ => Ok [ ("success", JBool true); ("contactId", JStr id) ]
   | Rejected e => Throw (service_failure (EAxios e))
   end,
   record_call w (delete_request url0 id)).
Proof.
  intros Hbase.
  unfold deleteContact, try_catch, bind, get_baseUrl, text, lift.
  rewrite Hbase. unfold axios. fold (delete_request url0 id).
  destruct (remote w (calls w) _); reflexivity.
Qed.

(** Deleting makes one DELETE call.  Whatever body the remote side
    resolves with (an empty 204 included), the route answers 200 with
    the identifier; every rejection, a 404 included, is answered 500:
    unlike the read, the delete has no not-found result. *)
Theorem delete_route_answers (id url0 : jsstring) (w : world) :
  to_string (baseUrl w) = Ok url0 ->
  let rq := delete_request url0 id in
  calls (snd (delete_contact id w)) = calls w ++ [rq]
  /\ (forall r,
        remote w (calls w) rq = Resolved r ->
        fst (delete_contact id w) =
        Ok (mkReply 200
              (JObj [ ("success", JBool true);
                      ("message", JStr (lit "Contact deleted successfully"));
                      ("contactId", JStr id) ])))
  /\ (forall e,
        remote w (calls w) rq = Rejected e ->
        fst (deleteContact id w) =
        Throw (EService (JStr (ae_message e))
                 (js_or (exn_response_data (EAxios e)) JNull))
        /\ status_of (delete_contact id w) = Some 500).
Proof.
  intros Hbase rq. unfold status_of, delete_contact, try_catch, bind.
  rewrite (deleteContact_run id url0 w Hbase). fold rq.
  split; [|split].
  - destruct (remote w (calls w) rq); reflexivity.
  - intros r ->. reflexivity.
  - intros e ->. split; reflexivity.
Qed.

Lemma delete_route_answers_witness :
  status_of (delete_contact (lit "42") (world_of accepting_remote)) = Some 200
  /\ status_of (delete_contact (lit "42") (world_of (refusing_remote 404)))
     = Some 500.
Proof.
  split.
  - destruct (delete_route_answers (lit "42") (lit "https://api.hubapi.com")
                (world_of accepting_remote) eq_refl) as (_ & Hok & _).
    unfold status_of. rewrite (Hok _ eq_refl). reflexivity.
  - destruct (delete_route_answers (lit "42") (lit "https://api.hubapi.com")
                (world_of (refusing_remote 404)) eq_refl) as (_ & _ & Hrej).
    apply (Hrej _ eq_refl).
Defined.

(* ================================================================== *)
(** * Probing properties *)

Lemma getProperty_run (name url0 : jsstring) (w : world) :
  to_string (baseUrl w) = Ok url0 ->
  getProperty (JStr name) w =
  (probe_outcome (remote w (calls w) (lookup_request url0 name)),
   record_call w (lookup_request url0 name)).
Proof.
  intros Hbase.
  unfold getProperty, try_catch, bind, get_baseUrl, text, lift.
  rewrite Hbase. cbn [to_string]. unfold axios.
  fold (lookup_request url0 name). unfold probe_outcome.
  destruct (remote w (calls w) _) as [r|e]; [reflexivity|].
  cbn [exn_status]. destruct (bool_decide _); reflexivity.
Qed.

(** [getProperty] makes one GET call; a 404 is the value [null], any
    other rejection is thrown as the client raised it.  The route
    answers 404 with the name when the value is falsy, 200 with the
    value otherwise, and 500 with the client's message on a thrown
    rejection. *)
Theorem property_lookup_answers (name url0 : jsstring) (w : world) :
  to_string (baseUrl w) = Ok url0 ->
  let rq := lookup_request url0 name in
  calls (snd (get_property name w)) = calls w ++ [rq]
  /\ (forall e,
        remote w (calls w) rq = Rejected e ->
        exn_status (EAxios e) = Some 404 ->
        fst (getProperty (JStr name) w) = Ok JNull
        /\ fst (get_property name w) =
           Ok (mkReply 404
                 (JObj [ ("success", JBool false);
                         ("error", JStr (lit "Property not found"));
                         ("propertyName", JStr name) ])))
  /\ (forall e,
        remote w (calls w) rq = Rejected e ->
        exn_status (EAxios e) <> Some 404 ->
        fst (getProperty (JStr name) w) = Throw (EAxios e)
        /\ fst (get_property name w) =
           Ok (mkReply 500
                 (JObj [ ("success", JBool false);
                         ("error",
                           js_or (JStr (ae_message e))
                             (JStr (lit "Internal server error"))) ])))
  /\ (forall r,
        remote w (calls w) rq = Resolved r ->
        fst (getProperty (JStr name) w) = Ok (rs_data r)
        /\ status_of (get_property name w) =
           Some (if truthy (rs_data r) then 200 else 404)).
Proof.
  intros Hbase rq. unfold status_of, get_property, try_catch, bind.
  rewrite (getProperty_run name url0 w Hbase). fold rq.
  unfold probe_outcome. repeat split.
  - destruct (remote w (calls w) rq) as [r|e].
    + destruct (truthy (rs_data r)); reflexivity.
    + destruct (bool_decide _); reflexivity.
  - rewrite H. rewrite bool_decide_eq_true_2 by assumption. reflexivity.
  - rewrite H. rewrite bool_decide_eq_true_2 by assumption. reflexivity.
  - rewrite H. rewrite bool_decide_eq_false_2 by assumption. reflexivity.
  - rewrite H. rewrite bool_decide_eq_false_2 by assumption. reflexivity.
  - rewrite H. reflexivity.
  - rewrite H. cbn [fst]. destruct (truthy (rs_data r)); reflexivity.
Qed.

Lemma property_lookup_answers_witness :
  status_of (get_property (lit "candidate_name") (world_of empty_remote))
  = Some 404
  /\ status_of (get_property (lit "candidate_name")
                  (world_of (refusing_remote 401)))
     = Some 500.
Proof.
  split.
  - destruct (property_lookup_answers (lit "candidate_name")
                (lit "https://api.hubapi.com") (world_of empty_remote) eq_refl)
      as (_ & Hmissing & _).
    destruct (Hmissing _ eq_refl eq_refl) as [_ Hreply].
    unfold status_of. rewrite Hreply. reflexivity.
  - destruct (property_lookup_answers (lit "candidate_name")
                (lit "https://api.hubapi.com")
                (world_of (refusing_remote 401)) eq_refl)
      as (_ & _ & Hother & _).
    destruct (Hother _ eq_refl) as [_ Hreply]; [discriminate|].
    unfold status_of. rewrite Hreply. reflexivity.
Defined.

Section Probe.

Variables (definition : obj) (name : jsstring).
Hypothesis Hname : obj_get definition "name" = JStr name.

Lemma getProperty_attempt (w : world) :
  exists r,
    getProperty (obj_get definition "name") w = (r, after_probe w definition).
Proof.
  unfold after_probe. rewrite Hname. cbn [string_of].
  destruct (to_string (baseUrl w)) as [url0|e] eqn:Hbase.
  - rewrite (getProperty_run name url0 w Hbase). eexists. reflexivity.
  - unfold getProperty, try_catch, bind, get_baseUrl, text, lift.
    rewrite Hbase. destruct (bool_decide _); eexists; reflexivity.
Qed.

Lemma check_each_step (rest results : list obj) (w : world) :
  exists r,
    check_each (definition :: rest) results w =
    check_each rest (results ++ [probe_result definition r])
      (after_probe w definition).
Proof.
  destruct (getProperty_attempt w) as (r & Hr).
  exists r. cbn [check_each]. unfold bind at 1, try_catch, bind at 1.
  rewrite Hr. destruct r; reflexivity.
Qed.

End Probe.

Lemma after_probe_base (w : world) (d : obj) :
  baseUrl (after_probe w d) = baseUrl w.
Proof. unfold after_probe. destruct (to_string (baseUrl w)); reflexivity. Qed.

Lemma after_probe_calls (w : world) (d : obj) (url0 : jsstring) :
  to_string (baseUrl w) = Ok url0 ->
  calls (after_probe w d) =
  calls w ++ [lookup_request url0 (string_of (obj_get d "name"))].
Proof. unfold after_probe. intros ->. reflexivity. Qed.

Lemma check_each_run (definitions : list obj) :
  Forall named definitions ->
  forall (results : list obj) (w : world),
  exists (outcomes : list (result jsval)) (w' : world),
    check_each definitions results w =
    (Ok (results ++ probes definitions outcomes), w')
    /\ length outcomes = length definitions
    /\ baseUrl w' = baseUrl w
    /\ remote w' = remote w
    /\ (forall url0,
          to_string (baseUrl w) = Ok url0 ->
          calls w' =
          calls w ++
          map (fun d => lookup_request url0 (string_of (obj_get d "name")))
            definitions).
Proof.
  induction 1 as [|d ds [name Hname] _ IH]; intros results w.
  - exists [], w. cbn. rewrite !app_nil_r. auto.
  - destruct (check_each_step d name Hname ds results w) as (r & Hstep).
    destruct (IH (results ++ [probe_result d r]) (after_probe w d))
      as (outcomes & w' & Hrun & Hlen & Hbase & Hrem & Hcalls).
    exists (r :: outcomes), w'. rewrite Hstep, Hrun.
    rewrite after_probe_base in Hbase, Hcalls.
    repeat split.
    + unfold probes. cbn [combine map fst snd]. rewrite <- app_assoc.
      reflexivity.
    + cbn [length]. congruence.
    + exact Hbase.
    + rewrite Hrem. unfold after_probe.
      destruct (to_string (baseUrl w)); reflexivity.
    + intros url0 Hurl. rewrite (Hcalls url0 Hurl).
      rewrite (after_probe_calls w d url0 Hurl).
      cbn [map]. rewrite <- app_assoc. reflexivity.
Qed.

Lemma probe_result_name (definition : obj) (r : result jsval) :
  obj_get (probe_result definition r) "name" = obj_get definition "name".
Proof. destruct r; reflexivity. Qed.

Lemma probe_result_flag (definition : obj) (r : result jsval) :
  exists b, obj_get (probe_result definition r) "exists" = JBool b.
Proof. destruct r; eexists; reflexivity. Qed.

Lemma probes_names (definitions : list obj) (outcomes : list (result jsval)) :
  length outcomes = length definitions ->
  map (fun r => obj_get r "name") (probes definitions outcomes) =
  map (fun d => obj_get d "name") definitions.
Proof.
  revert outcomes. unfold probes.
  induction definitions as [|d ds IH]; intros [|o os] Hlen;
    try discriminate; [reflexivity|].
  cbn [combine map fst snd]. rewrite probe_result_name. f_equal.
  apply IH. injection Hlen as Hlen. exact Hlen.
Qed.

Lemma probes_length (definitions : list obj) (outcomes : list (result jsval)) :
  length outcomes = length definitions ->
  length (probes definitions outcomes) = length definitions.
Proof.
  intros Hlen. unfold probes.
  rewrite length_map, length_combine, Hlen. apply Nat.min_id.
Qed.

Lemma existing_missing_total (properties : list obj) :
  count_existing properties + count_missing properties
  = Z.of_nat (length properties).
Proof.
  unfold count_existing, count_missing.
  induction properties as [|r properties IH]; [reflexivity|].
  cbn [List.filter].
  destruct (truthy (obj_get r "exists")); cbn [negb length];
    rewrite ?Nat2Z.inj_succ in *; lia.
Qed.

(** [checkPropertiesExist] never throws: it probes the four catalog
    definitions in catalog order with one GET each and returns one
    result per definition, in that order, each with the name and a
    boolean [exists]; the status route always answers 200, with counts
    of existing and missing that add up to four. *)
Theorem properties_status_total (w : world) :
  exists (results : list obj) (w' : world),
    checkPropertiesExist w = (Ok results, w')
    /\ map (fun r => obj_get r "name") results =
       map JStr
         [ lit "candidate_experience"; lit "candidate_date_of_joining";
           lit "candidate_name"; lit "candidate_past_company" ]
    /\ Forall (fun r => exists b, obj_get r "exists" = JBool b) results
    /\ (forall url0,
          to_string (baseUrl w) = Ok url0 ->
          calls w' =
          calls w ++
          map (lookup_request url0)
            [ lit "candidate_experience"; lit "candidate_date_of_joining";
              lit "candidate_name"; lit "candidate_past_company" ])
    /\ exists reply,
         get_properties w = (Ok reply, w')
         /\ status reply = 200
         /\ count_existing results + count_missing results = 4
         /\ get_field (body reply) "data" =
            Ok (JObj [ ("properties", JArr (map JObj results));
                       ("summary",
                         JObj [ ("total", JNum 4);
                                ("existing", JNum (count_existing results));
                                ("missing", JNum (count_missing results)) ]) ]).
Proof.
  destruct (check_each_run _ catalog_named [] w)
    as (outcomes & w' & Hrun & Hlen & _ & _ & Hcalls).
  cbn [app] in Hrun.
  set (results := probes getCustomPropertiesDefinitions outcomes) in *.
  assert (length results = 4%nat) as Hfour
    by (unfold results; rewrite probes_length; [reflexivity | exact Hlen]).
  exists results, w'. split; [exact Hrun|].
  split; [unfold results; rewrite probes_names; [reflexivity | exact Hlen]|].
  split.
  { unfold results, probes. apply List.Forall_forall. intros r Hin.
    apply in_map_iff in Hin. destruct Hin as ([d o] & <- & _).
    apply probe_result_flag. }
  split; [exact Hcalls|].
  unfold get_properties, try_catch, bind, checkPropertiesExist.
  rewrite Hrun. unfold ret. eexists. split; [reflexivity|].
  cbn [status body get_field obj_get obj_lookup String.eqb Ascii.eqb Bool.eqb].
  unfold array_length. rewrite Hfour.
  pose proof (existing_missing_total results) as Htot. rewrite Hfour in Htot.
  repeat split. exact Htot.
Qed.

(* ================================================================== *)
(** * Creating one property through the route *)

Section PropertyRoute.

Variables (o : obj) (n l t : jsstring).
Hypothesis Hn : obj_get o "name" = JStr n.
Hypothesis Hl : obj_get o "label" = JStr l.
Hypothesis Ht : obj_get o "type" = JStr t.
Hypothesis Hfilled : n <> [] /\ l <> [] /\ t <> [].

Lemma build_definition_run (w : world) :
  build_definition
    (mkPropertyFields (obj_get o "name") (obj_get o "label") (obj_get o "type")
       (obj_get o "fieldType") (obj_get o "description") (obj_get o "groupName"))
    w
  = (Ok (JObj (built_definition n l t o)), w).
Proof.
  unfold build_definition, built_definition, bind, text, lift, ret.
  cbn [pf_name pf_label pf_type pf_fieldType pf_description pf_groupName].
  rewrite Hn, Hl, Ht. cbn [is_literal to_string].
  unfold js_or.
  destruct (truthy (obj_get o "description")); reflexivity.
Qed.

Lemma post_property_run (w : world) (url0 : jsstring) :
  to_string (baseUrl w) = Ok url0 ->
  let rq := property_request url0 (JObj (built_definition n l t o)) in
  post_property (JObj o) w =
  (Ok (match property_outcome n (remote w (calls w) rq) with
       | Ok result =>
           mkReply 201
             (JObj [ ("success", JBool true);
                     ("message",
                       JStr (lit "Custom property created successfully"));
                     ("data", result) ])
       | Throw e => properties_error e
       end),
   record_call w rq).
Proof.
  intros Hbase rq. destruct Hfilled as (Hn0 & Hl0 & Ht0).
  unfold post_property, try_catch, bind at 1, lift.
  cbn [destructure_property pf_name pf_label pf_type].
  rewrite Hn, Hl, Ht.
  replace (truthy (JStr n)) with true by (destruct n; [congruence | reflexivity]).
  replace (truthy (JStr l)) with true by (destruct l; [congruence | reflexivity]).
  replace (truthy (JStr t)) with true by (destruct t; [congruence | reflexivity]).
  cbn [negb orb]. rewrite <- Hn, <- Hl, <- Ht.
  unfold bind at 1. rewrite build_definition_run.
  unfold bind at 1.
  rewrite (createProperty_run (built_definition n l t o) n eq_refl url0 w Hbase).
  fold rq. destruct (property_outcome n (remote w (calls w) rq)); reflexivity.
Qed.

(** For a body with a name, a label and a type, the creation route makes
    one POST whose definition keeps the three fields and fills the
    others: the field type is the given one, else [text] for the type
    [string], else the type; the description is the given one, else
    [Custom property: <label>]; the group is the given one, else
    [contactinformation]. *)
Theorem property_route_fills_defaults (w : world) (url0 : jsstring) :
  to_string (baseUrl w) = Ok url0 ->
  calls (snd (post_property (JObj o) w)) =
  calls w ++ [property_request url0 (JObj (built_definition n l t o))]
  /\ (truthy (obj_get o "fieldType") = false ->
      obj_get (built_definition n l t o) "fieldType" =
      if bool_decide (t = lit "string") then JStr (lit "text") else JStr t)
  /\ (truthy (obj_get o "description") = false ->
      obj_get (built_definition n l t o) "description" =
      JStr (lit "Custom property: " ++ l))
  /\ (truthy (obj_get o "groupName") = false ->
      obj_get (built_definition n l t o) "groupName" =
      JStr (lit "contactinformation")).
Proof.
  intros Hbase. rewrite (post_property_run w url0 Hbase).
  split; [reflexivity|].
  unfold built_definition, obj_get at 1 3 5.
  cbn [obj_lookup String.eqb Ascii.eqb Bool.eqb]. unfold js_or.
  repeat split; intros ->; reflexivity.
Qed.

(** A property that already exists is answered like a created one: on a
    conflict the creation route answers 201 with
    [{name, status: 'already_exists'}]; any other rejection is answered
    500 with the client's message. *)
Theorem property_route_conflict_is_created (w : world) (url0 : jsstring) :
  to_string (baseUrl w) = Ok url0 ->
  let rq := property_request url0 (JObj (built_definition n l t o)) in
  (is_conflict (remote w (calls w) rq) ->
   fst (post_property (JObj o) w) =
   Ok (mkReply 201
         (JObj [ ("success", JBool true);
                 ("message", JStr (lit "Custom property created successfully"));
                 ("data",
                   JObj [ ("name", JStr n);
                          ("status", JStr (lit "already_exists")) ]) ])))
  /\ (forall e,
        remote w (calls w) rq = Rejected e ->
        exn_status (EAxios e) <> Some 409 ->
        fst (post_property (JObj o) w) =
        Ok (mkReply 500
              (JObj [ ("success", JBool false);
                      ("error",
                        js_or (JStr (ae_message e))
                          (JStr (lit "Internal server error"))) ]))).
Proof.
  intros Hbase rq. rewrite (post_property_run w url0 Hbase). fold rq.
  cbn [fst]. split.
  - intros (e & r & He & Hr & Hs). rewrite He. unfold property_outcome.
    rewrite bool_decide_eq_true_2; [reflexivity|].
    cbn [exn_status]. rewrite Hr. cbn. congruence.
  - intros e He Hs. rewrite He. unfold property_outcome.
    rewrite bool_decide_eq_false_2 by exact Hs. reflexivity.
Qed.

End PropertyRoute.

Lemma property_route_fills_defaults_witness :
  calls (snd (post_property (JObj minimal_property_body)
                (world_of schema_remote)))
  = [property_request (lit "https://api.hubapi.com")
       (JObj [ ("name", str "team"); ("label", str "Team");
               ("type", str "string"); ("fieldType", str "text");
               ("description", str "Custom property: Team");
               ("groupName", str "contactinformation") ])].
Proof.
  assert (lit "team" <> [] /\ lit "Team" <> [] /\ lit "string" <> [])
    as Hfilled by (repeat split; discriminate).
  destruct (property_route_fills_defaults minimal_property_body
              (lit "team") (lit "Team") (lit "string")
              eq_refl eq_refl eq_refl Hfilled
              (world_of schema_remote) (lit "https://api.hubapi.com") eq_refl)
    as (Hcalls & _).
  rewrite Hcalls. reflexivity.
Defined.

Lemma property_route_conflict_is_created_witness :
  fst (post_property (JObj minimal_property_body)
         (world_of (refusing_remote 409)))
  = Ok (mkReply 201
          (JObj [ ("success", JBool true);
                  ("message", str "Custom property created successfully");
                  ("data",
                    JObj [ ("name", str "team");
                           ("status", str "already_exists") ]) ]))
  /\ status_of (post_property (JObj minimal_property_body)
                  (world_of (refusing_remote 403)))
     = Some 500.
Proof.
  assert (lit "team" <> [] /\ lit "Team" <> [] /\ lit "string" <> [])
    as Hfilled by (repeat split; discriminate).
  split.
  - destruct (property_route_conflict_is_created minimal_property_body
                (lit "team") (lit "Team") (lit "string")
                eq_refl eq_refl eq_refl Hfilled
                (world_of (refusing_remote 409))
                (lit "https://api.hubapi.com") eq_refl) as (Hconflict & _).
    rewrite Hconflict; [reflexivity|].
    do 2 eexists. repeat split.
  - destruct (property_route_conflict_is_created minimal_property_body
                (lit "team") (lit "Team") (lit "string")
                eq_refl eq_refl eq_refl Hfilled
                (world_of (refusing_remote 403))
                (lit "https://api.hubapi.com") eq_refl) as (_ & Hother).
    unfold status_of. rewrite (Hother _ eq_refl); [reflexivity|].
    discriminate.
Defined.

(** A body without a name, a label or a type is answered 400 and
    nothing is sent. *)
Theorem property_route_requires_fields (o : obj) (w : world) :
  truthy (obj_get o "name") && truthy (obj_get o "label")
  && truthy (obj_get o "type") = false ->
  post_property (JObj o) w =
  (Ok (bad_request
         (lit "Missing required fields: name, label, and type are required")),
   w).
Proof.
  intros H. unfold post_property, try_catch, bind, lift.
  cbn [destructure_property pf_name pf_label pf_type].
  destruct (truthy (obj_get o "name")), (truthy (obj_get o "label")),
    (truthy (obj_get o "type")); try discriminate; reflexivity.
Qed.

Lemma property_route_requires_fields_witness :
  post_property (JObj [("name", str "team"); ("label", JStr [])])
    (world_of schema_remote)
  = (Ok (bad_request
           (lit "Missing required fields: name, label, and type are required")),
     world_of schema_remote).
Proof.
  apply (property_route_requires_fields
           [("name", str "team"); ("label", JStr [])]).
  reflexivity.
Defined.

(* ================================================================== *)
(** * The setup script *)

(** The setup script probes the four definitions, then creates them:
    four GETs followed by four POSTs, in catalog order.  It exits with 0
    exactly when no creation failed, whatever the probes found, and with
    1 otherwise. *)
Theorem setup_script_exit_code (w : world) :
  exists (found : list obj) (w1 : world) (results : list obj) (w2 : world),
    checkPropertiesExist w = (Ok found, w1)
    /\ createAllCustomProperties w1 = (Ok results, w2)
    /\ setupCustomProperties w =
       (Ok (if 0 <? count_failed results then 1 else 0), w2)
    /\ (fst (setupCustomProperties w) = Ok 0 <-> count_failed results = 0)
    /\ (forall url0,
          to_string (baseUrl w) = Ok url0 ->
          calls w2 =
          calls w
          ++ map (fun d =>
                    lookup_request url0 (string_of (obj_get d "name")))
               getCustomPropertiesDefinitions
          ++ map (fun d => property_request url0 (JObj d))
               getCustomPropertiesDefinitions).
Proof.
  destruct (check_each_run _ catalog_named [] w)
    as (probed & w1 & Hprobe & _ & Hbase1 & _ & Hcalls1).
  destruct (create_each_run _ catalog_named [] w1)
    as (outcomes & w2 & Hcreate & _ & _ & Hcalls2).
  cbn [app] in Hprobe, Hcreate.
  eexists _, w1, _, w2.
  split; [exact Hprobe|]. split; [exact Hcreate|].
  assert (setupCustomProperties w =
          (Ok (if 0 <? count_failed (items getCustomPropertiesDefinitions outcomes)
               then 1 else 0), w2)) as Hrun.
  { unfold setupCustomProperties, try_catch, bind, checkPropertiesExist,
      createAllCustomProperties.
    rewrite Hprobe, Hcreate.
    destruct (0 <? count_failed _); reflexivity. }
  split; [exact Hrun|]. split.
  - rewrite Hrun. cbn [fst].
    assert (0 <= count_failed (items getCustomPropertiesDefinitions outcomes))
      by (unfold count_failed; lia).
    destruct (0 <? count_failed _) eqn:E; split; intros Hx;
      try discriminate; try lia; try reflexivity.
  - intros url0 Hurl.
    rewrite (Hcalls2 url0) by (rewrite Hbase1; exact Hurl).
    rewrite (Hcalls1 url0 Hurl). rewrite <- app_assoc. reflexivity.
Qed.

(* ================================================================== *)
(** * The search service on any filters *)

Lemma forEachM_entries (filters : list (string * jsval)) (acc : list jsval)
    (w : world) :
  forEachM push_filter filters acc w =
  (match mapM entry_predicate (defined_entries filters) with
   | Ok ps => Ok (acc ++ ps)
   | Throw e => Throw e
   end, w).
Proof.
  revert acc. induction filters as [|[k v] filters IH]; intros acc.
  - cbn. rewrite app_nil_r. reflexivity.
  - cbn [forEachM]. unfold bind at 1, push_filter at 1.
    unfold defined_entries. cbn [List.filter snd].
    fold (defined_entries filters).
    destruct (negb (is_undefined v) && negb (is_null v)).
    + rewrite mapM_cons. unfold entry_predicate at 1. cbn [fst snd].
      unfold bind, lift, ret.
      destruct (call_toString v) as [t|e]; [|reflexivity].
      rewrite IH. fold (eq_predicate k t).
      destruct (mapM entry_predicate (defined_entries filters)) as [ps|e];
        [|reflexivity].
      rewrite <- app_assoc. reflexivity.
    + unfold ret. apply IH.
Qed.

Lemma searchPayload_entries (filters : obj) (limit : jsval) (w : world) :
  searchPayload filters limit w =
  (match mapM entry_predicate (defined_entries filters) with
   | Ok ps =>
       Ok (JObj [ ("filterGroups", JArr (filter_groups ps));
                  ("properties", JArr defaultProps);
                  ("limit", limit) ])
   | Throw e => Throw e
   end, w).
Proof.
  unfold searchPayload, obj_entries, obj_keys. rewrite length_map.
  destruct filters as [|kv filters]; [reflexivity|].
  replace (0 <? Z.of_nat (length (kv :: filters))) with true by reflexivity.
  unfold bind. rewrite forEachM_entries. cbn [app].
  destruct (mapM entry_predicate (defined_entries (kv :: filters))) as [ps|e];
    [|reflexivity].
  destruct ps; reflexivity.
Qed.

Lemma searchContacts_run (filters : obj) (limit : jsval) (ps : list jsval)
    (w : world) (url0 : jsstring) :
  mapM entry_predicate (defined_entries filters) = Ok ps ->
  to_string (baseUrl w) = Ok url0 ->
  let rq :=
    search_request url0 ps (if is_undefined limit then JNum 10 else limit) in
  searchContacts filters limit w =
  (match remote w (calls w) rq with
   | Rejected e => Throw (service_failure (EAxios e))
   | Resolved r =>
       match get_field (rs_data r) "total" with
       | Throw e => Throw (service_failure e)
       | Ok total =>
           match get_field (rs_data r) "results" with
           | Throw e => Throw (service_failure e)
           | Ok results =>
               match get_field results "length" with
               | Throw e => Throw (service_failure e)
               | Ok _ =>
                   Ok [ ("success", JBool true); ("contacts", results);
                        ("total", total) ]
               end
           end
       end
   end, record_call w rq).
Proof.
  intros Hps Hbase rq.
  unfold searchContacts, try_catch, bind. rewrite searchPayload_entries, Hps.
  unfold get_baseUrl, text, lift. rewrite Hbase. unfold axios.
  fold (search_request url0 ps (if is_undefined limit then JNum 10 else limit)).
  fold rq.
  destruct (remote w (calls w) rq) as [r|e]; [|reflexivity].
  destruct (get_field (rs_data r) "total"); [|reflexivity].
  destruct (get_field (rs_data r) "results") as [results|]; [|reflexivity].
  destruct (get_field results "length"); reflexivity.
Qed.

(** The search service on any filters object and any limit: the payload
    holds one [EQ] predicate for each entry whose value is neither
    [undefined] nor [null] (an empty string or [0] included), in the
    order of the entries, in a single group, and no group when there is
    none; the limit is the one given, or 10 when none is given; when a
    value cannot be converted, the service throws
    [{success: false, error, details: null}] and makes no call. *)
Theorem search_service_predicates (filters : obj) (limit : jsval) (w : world) :
  (forall ps url0,
     mapM entry_predicate (defined_entries filters) = Ok ps ->
     to_string (baseUrl w) = Ok url0 ->
     length ps = length (defined_entries filters)
     /\ calls (snd (searchContacts filters limit w)) =
        calls w ++
        [mkRequest POST (url0 ++ endpoints_contactsSearch)
           (JObj [ ("filterGroups", JArr (filter_groups ps));
                   ("properties", JArr defaultProps);
                   ("limit",
                     match limit with
                     | JUndefined => JNum 10
                     | _ => limit
                     end) ])])
  /\ (forall e,
        mapM entry_predicate (defined_entries filters) = Throw e ->
        searchContacts filters limit w =
        (Throw (EService (exn_message e) (js_or (exn_response_data e) JNull)),
         w)).
Proof.
  split.
  - intros ps url0 Hps Hbase. split; [apply (mapM_length _ _ _ Hps)|].
    rewrite (searchContacts_run filters limit ps w url0 Hps Hbase).
    destruct limit; reflexivity.
  - intros e He. unfold searchContacts, try_catch, bind.
    rewrite searchPayload_entries, He. reflexivity.
Qed.

Lemma search_service_predicates_witness :
  calls (snd (searchContacts
                [ ("candidate_experience", JNum (10 ^ 21));
                  ("email", JStr []);
                  ("phone", JNull) ]
                JUndefined (world_of accepting_remote)))
  = [mkRequest POST (lit "https://api.hubapi.com/crm/v3/objects/contacts/search")
       (JObj [ ("filterGroups",
                 JArr [JObj [("filters",
                               JArr [ eq_predicate "candidate_experience"
                                        (lit "1e+21");
                                      eq_predicate "email" [] ])]]);
               ("properties", JArr defaultProps);
               ("limit", JNum 10) ])].
Proof.
  destruct (search_service_predicates
              [ ("candidate_experience", JNum (10 ^ 21));
                ("email", JStr []);
                ("phone", JNull) ]
              JUndefined (world_of accepting_remote)) as (Hsent & _).
  destruct (Hsent [ eq_predicate "candidate_experience" (lit "1e+21");
                    eq_predicate "email" [] ]
              (lit "https://api.hubapi.com")) as (_ & Hcalls).
  - vm_compute. reflexivity.
  - reflexivity.
  - rewrite Hcalls. reflexivity.
Defined.

(* ================================================================== *)
(** * The search route *)

Lemma search_limit_reads (q1 q2 : obj) :
  obj_get q1 "limit" = obj_get q2 "limit" -> search_limit q1 = search_limit q2.
Proof. intros H. unfold search_limit. rewrite H. reflexivity. Qed.

Lemma search_filters_reads (q1 q2 : obj) :
  (forall k, In k (map fst search_params) -> obj_get q1 k = obj_get q2 k) ->
  search_filters q1 = search_filters q2.
Proof.
  intros H. unfold search_filters, filter_from_query.
  rewrite !(H _) by (cbn [map fst search_params In]; auto 10).
  reflexivity.
Qed.

(** The search route reads the query at seven keys only: two queries
    that agree on the six recognized parameters and on [limit] get the
    same answer and cause the same remote call, whatever else they
    hold. *)
Theorem search_route_reads_seven_keys (q1 q2 : obj) (w : world) :
  (forall k, In k search_keys -> obj_get q1 k = obj_get q2 k) ->
  search_contacts q1 w = search_contacts q2 w.
Proof.
  intros H. apply search_contacts_depends.
  - apply search_limit_reads. apply H. unfold search_keys.
    apply in_or_app. right. left. reflexivity.
  - apply search_filters_reads. intros k Hk. apply H. unfold search_keys.
    apply in_or_app. left. exact Hk.
Qed.

Lemma search_route_reads_seven_keys_witness :
  search_contacts query_with_phone (world_of accepting_remote)
  = search_contacts [("firstName", str "Al")] (world_of accepting_remote).
Proof.
  apply (search_route_reads_seven_keys query_with_phone
           [("firstName", str "Al")]).
  intros k Hk. cbn [search_keys map fst search_params app In] in Hk.
  repeat (destruct Hk as [<-|Hk]; [reflexivity|]). contradiction.
Defined.

Lemma expected_predicates_entries (query : obj) :
  mapM entry_predicate (defined_entries (search_filters query)) =
  expected_predicates query.
Proof.
  unfold expected_predicates.
  pose proof (forEachM_entries (search_filters query) []
                (world_of accepting_remote)) as H1.
  rewrite search_filters_list in H1 at 1.
  rewrite forEachM_push in H1.
  - destruct (mapM (predicate_for query) (present_params query)),
      (mapM entry_predicate (defined_entries (search_filters query)));
      cbn [app] in H1; congruence.
  - apply List.Forall_forall. intros x Hx. unfold present_params in Hx.
    apply filter_In in Hx. tauto.
Qed.

Lemma shape_hits (hits : list obj) :
  shape_contacts
    [ ("contactId", "id"); ("properties", "properties");
      ("createdAt", "createdAt"); ("updatedAt", "updatedAt") ]
    (JArr (map JObj hits))
  = Ok (map search_hit hits).
Proof.
  cbn [shape_contacts]. induction hits as [|c hits IH]; [reflexivity|].
  cbn [map]. rewrite mapM_cons. rewrite IH. reflexivity.
Qed.

(** The answers of the search route once the request is built, for a
    limit that parses to no number or to a finite one: a rejected call
    is answered 500 with the client's message; a response whose
    [results] is an array of objects is answered 200 with one entry per
    result in the same order (its [id] under [contactId], its
    [properties], [createdAt] and [updatedAt]), the remote [total], the
    limit used (10 in place of 0 and of no number) and the filters
    applied. *)
Theorem search_route_answers (query : obj) (w : world) (parsed : option Z)
    (predicates : list jsval) (url0 : jsstring) :
  parseInt_val (obj_get query "limit") = Ok parsed ->
  finite_limit parsed ->
  expected_predicates query = Ok predicates ->
  to_string (baseUrl w) = Ok url0 ->
  let rq :=
    search_request url0 predicates (JNum (effective_limit parsed)) in
  (forall e,
     remote w (calls w) rq = Rejected e ->
     fst (search_contacts query w) =
     Ok (mkReply 500
           (JObj [ ("success", JBool false);
                   ("error",
                     js_or (JStr (ae_message e))
                       (JStr (lit "Internal server error")));
                   ("details",
                     js_or (js_or (exn_response_data (EAxios e)) JNull)
                       JNull) ])))
  /\ (forall r d hits,
        remote w (calls w) rq = Resolved r ->
        rs_data r = JObj d ->
        obj_get d "results" = JArr (map JObj hits) ->
        fst (search_contacts query w) =
        Ok (mkReply 200
              (JObj [ ("success", JBool true);
                      ("data",
                        JObj [ ("contacts", JArr (map search_hit hits));
                               ("total", obj_get d "total");
                               ("limit", JNum (effective_limit parsed));
                               ("filters", JObj (applied_filters query)) ])
                    ]))).
Proof.
  intros Hparsed _ Hpreds Hbase rq.
  pose proof (search_limit_effective query parsed Hparsed) as Hlimit.
  rewrite <- expected_predicates_entries in Hpreds.
  pose proof (searchContacts_run (search_filters query)
                (JNum (effective_limit parsed)) predicates w url0 Hpreds Hbase)
    as Hrun.
  cbn [is_undefined] in Hrun. fold rq in Hrun. cbv zeta in Hrun.
  unfold applied_filters. rewrite <- search_filters_list.
  split.
  - intros e He. unfold search_contacts, try_catch, bind, lift.
    rewrite Hlimit, Hrun, He. reflexivity.
  - intros r d hits Hr Hd Hresults.
    unfold search_contacts, try_catch, bind, lift.
    rewrite Hlimit, Hrun, Hr, Hd. cbn [get_field]. rewrite Hresults.
    cbn [get_field obj_get obj_lookup String.eqb Ascii.eqb Bool.eqb].
    rewrite shape_hits. reflexivity.
Qed.

Lemma search_route_answers_witness :
  status_of (search_contacts sample_query (world_of (refusing_remote 429)))
  = Some 500
  /\ fst (search_contacts sample_query (world_of accepting_remote))
     = Ok (mkReply 200
             (JObj [ ("success", JBool true);
                     ("data",
                       JObj [ ("contacts", JArr []);
                              ("total", JNum 0);
                              ("limit", JNum 10);
                              ("filters",
                                JObj [("firstname", str "Al")]) ]) ])).
Proof.
  destruct (search_route_answers sample_query
              (world_of (refusing_remote 429)) (Some 0)
              [eq_predicate "firstname" (lit "Al")]
              (lit "https://api.hubapi.com") eq_refl eq_refl eq_refl eq_refl)
    as (Hrejected & _).
  destruct (search_route_answers sample_query
              (world_of accepting_remote) (Some 0)
              [eq_predicate "firstname" (lit "Al")]
              (lit "https://api.hubapi.com") eq_refl eq_refl eq_refl eq_refl)
    as (_ & Hresolved).
  split.
  - unfold status_of. rewrite (Hrejected _ eq_refl). reflexivity.
  - rewrite (Hresolved _ _ [] eq_refl eq_refl eq_refl). reflexivity.
Defined.

(* ================================================================== *)
(** * The update route, end to end *)

Lemma obj_set_fresh (p : obj) (k : string) (v : jsval) :
  ~ In k (obj_keys p) -> obj_set p k v = p ++ [(k, v)].
Proof.
  unfold obj_keys. induction p as [|[k0 v0] p IH]; intros Hk; [reflexivity|].
  cbn [obj_set app]. destruct (String.eqb k0 k) eqn:E.
  - apply String.eqb_eq in E. subst k0. exfalso. apply Hk. left. reflexivity.
  - rewrite IH; [reflexivity|]. intros Hin. apply Hk. right. exact Hin.
Qed.

Lemma fold_copy_defined (l : list (string * jsval)) (acc : obj) :
  List.NoDup (map fst l) ->
  (forall k, In k (obj_keys acc) -> ~ In k (map fst l)) ->
  fold_left copy_defined l acc = acc ++ on_the_wire l.
Proof.
  revert acc. induction l as [|[k v] l IH]; intros acc Hnd Hdisj.
  - cbn. rewrite app_nil_r. reflexivity.
  - cbn [map fst] in Hnd, Hdisj.
    apply List.NoDup_cons_iff in Hnd as [Hk Hnd].
    cbn [fold_left]. unfold copy_defined at 2, on_the_wire.
    cbn [fst snd List.filter]. fold (on_the_wire l).
    destruct (is_undefined v); cbn [negb].
    + apply IH; [exact Hnd|]. intros k' Hin Hl. apply (Hdisj k' Hin).
      right. exact Hl.
    + rewrite obj_set_fresh.
      * rewrite IH; [rewrite <- app_assoc; reflexivity | exact Hnd |].
        intros k' Hin Hl. unfold obj_keys in Hin. rewrite map_app in Hin.
        apply in_app_or in Hin as [Hin|[<-|[]]].
        -- apply (Hdisj k' Hin). right. exact Hl.
        -- exact (Hk Hl).
      * intros Hin. apply (Hdisj k Hin). left. reflexivity.
Qed.

Lemma copies_defined (l : list (string * jsval)) :
  List.NoDup (map fst l) -> fold_left copy_defined l [] = on_the_wire l.
Proof. intros Hnd. rewrite fold_copy_defined; [reflexivity|exact Hnd|]. intros k []. Qed.

Ltac distinct_literals :=
  repeat (apply List.NoDup_cons; [cbn [In]; intuition discriminate|]);
  apply List.NoDup_nil.

Lemma updateContact_properties_filter (u : obj) (w : world) :
  updateContact_properties (JObj u) w = (Ok (on_the_wire (mapped_of u)), w).
Proof.
  unfold updateContact_properties, bind. rewrite !copy_if_defined_obj.
  rewrite <- (copies_defined (mapped_of u)); [reflexivity|].
  unfold mapped_of. cbn [map fst]. distinct_literals.
Qed.

Lemma patch_updateData_filter (o : obj) (w : world) :
  patch_updateData (JObj o) w = (Ok (on_the_wire (body_fields o)), w).
Proof.
  unfold patch_updateData, bind. rewrite !copy_body_field_obj.
  rewrite <- (copies_defined (body_fields o)); [reflexivity|].
  unfold body_fields, field_renaming. cbn [map fst]. distinct_literals.
Qed.

Lemma body_fields_get (o : obj) (k : string) :
  In k (map fst field_renaming) ->
  obj_get (on_the_wire (body_fields o)) k = obj_get o k.
Proof.
  intros Hk.
  destruct (patch_updateData_lookup o (world_of accepting_remote))
    as (updateData & Hrun & Hlook).
  rewrite patch_updateData_filter in Hrun. injection Hrun as <-.
  unfold obj_get at 1. rewrite Hlook.
  cbn [map fst field_renaming In] in Hk.
  repeat (destruct Hk as [<-|Hk];
          [change (recognized _) with (Some "firstName")
           || change (recognized _) with (Some "lastName")
           || change (recognized _) with (Some "email")
           || change (recognized _) with (Some "phone")
           || change (recognized _) with (Some "ownerId")
           || change (recognized _) with (Some "candidateExperience")
           || change (recognized _) with (Some "candidateDateOfJoining")
           || change (recognized _) with (Some "candidateName")
           || change (recognized _) with (Some "candidatePastCompany");
           cbn [copied];
           match goal with
           | |- context [is_undefined ?v] => destruct v; reflexivity
           end|]).
  contradiction.
Qed.

Lemma mapped_of_body_fields (o : obj) :
  mapped_of (on_the_wire (body_fields o)) = mapped_of o.
Proof.
  unfold mapped_of.
  rewrite !body_fields_get by (cbn [map fst field_renaming In]; auto 20).
  reflexivity.
Qed.

Lemma patch_contact_run (id : jsstring) (o : obj) (w : world) (url0 : jsstring) :
  to_string (baseUrl w) = Ok url0 ->
  on_the_wire (body_fields o) <> [] ->
  (truthy (obj_get o "email") = true -> email_ok (obj_get o "email") = Ok true) ->
  let rq := update_request url0 id o in
  patch_contact id (JObj o) w =
  (Ok (match remote w (calls w) rq with
       | Rejected e => server_error (service_failure (EAxios e))
       | Resolved r =>
           match get_field (rs_data r) "id" with
           | Throw e => server_error (service_failure e)
           | Ok contactId =>
               match get_field (rs_data r) "properties" with
               | Throw e => server_error e
               | Ok properties =>
                   mkReply 200
                     (JObj [ ("success", JBool true);
                             ("message",
                               JStr (lit "Contact updated successfully"));
                             ("data",
                               JObj [ ("contactId", contactId);
                                      ("updatedProperties",
                                        JArr (map (fun k => JStr (lit k))
                                                (obj_keys
                                                   (on_the_wire (body_fields o)))));
                                      ("properties", properties) ]) ])
               end
           end
       end),
   record_call w rq).
Proof.
  intros Hbase Hsome Hemail rq.
  unfold patch_contact, try_catch, bind at 1.
  rewrite patch_updateData_filter. unfold bind at 1.
  rewrite (body_fields_get o "email") by (cbn; auto 10).
  assert ((if truthy (obj_get o "email")
           then ok <- lift (email_ok (obj_get o "email")) ;; ret (negb ok)
           else ret false) w = (Ok false, w)) as ->.
  { destruct (truthy (obj_get o "email")); [|reflexivity].
    unfold bind, lift. rewrite Hemail by reflexivity. reflexivity. }
  assert ((Z.of_nat (length (obj_keys (on_the_wire (body_fields o)))) =? 0)
          = false) as ->.
  { destruct (on_the_wire (body_fields o)); [congruence|reflexivity]. }
  unfold bind at 1, updateContact, try_catch, bind at 1.
  rewrite updateContact_properties_filter, mapped_of_body_fields.
  unfold bind, get_baseUrl, text, lift. rewrite Hbase. unfold axios.
  fold (update_request url0 id o). fold rq.
  destruct (remote w (calls w) rq) as [r|e]; [|reflexivity].
  destruct (get_field (rs_data r) "id"); [|reflexivity].
  unfold ret. cbv beta iota.
  cbn [obj_get obj_lookup String.eqb Ascii.eqb Bool.eqb].
  destruct (get_field (rs_data r) "properties"); reflexivity.
Qed.

(** An update that passes the route's checks (some recognized field is
    present, a truthy email matches the pattern) makes one PATCH whose
    properties are the nine mapped fields of the body without the
    [undefined] ones: keys the route does not recognize never reach the
    remote side, empty strings and [null] do.  A resolved call is
    answered 200 with the remote id and properties and the names of the
    fields sent, a rejected one 500. *)
Theorem update_route_sends_defined_fields (id : jsstring) (o : obj) (w : world)
    (url0 : jsstring) :
  to_string (baseUrl w) = Ok url0 ->
  on_the_wire (body_fields o) <> [] ->
  (truthy (obj_get o "email") = true -> email_ok (obj_get o "email") = Ok true) ->
  let rq := update_request url0 id o in
  calls (snd (patch_contact id (JObj o) w)) = calls w ++ [rq]
  /\ (forall r d,
        remote w (calls w) rq = Resolved r ->
        rs_data r = JObj d ->
        fst (patch_contact id (JObj o) w) =
        Ok (mkReply 200
              (JObj [ ("success", JBool true);
                      ("message", JStr (lit "Contact updated successfully"));
                      ("data",
                        JObj [ ("contactId", obj_get d "id");
                               ("updatedProperties",
                                 JArr (map (fun k => JStr (lit k))
                                         (obj_keys
                                            (on_the_wire (body_fields o)))));
                               ("properties", obj_get d "properties") ]) ])))
  /\ (forall e,
        remote w (calls w) rq = Rejected e ->
        status_of (patch_contact id (JObj o) w) = Some 500).
Proof.
  intros Hbase Hsome Hemail rq.
  rewrite (patch_contact_run id o w url0 Hbase Hsome Hemail). fold rq.
  split; [reflexivity|]. split.
  - intros r d -> Hd. rewrite Hd. reflexivity.
  - intros e ->. reflexivity.
Qed.

Lemma update_route_sends_defined_fields_witness :
  calls (snd (patch_contact (lit "42")
                (JObj [ ("phone", JStr []); ("nickname", str "Al") ])
                (world_of accepting_remote)))
  = [mkRequest PATCH (lit "https://api.hubapi.com/crm/v3/objects/contacts/42")
       (JObj [("properties", JObj [("phone", JStr [])])])].
Proof.
  destruct (update_route_sends_defined_fields (lit "42")
              [ ("phone", JStr []); ("nickname", str "Al") ]
              (world_of accepting_remote) (lit "https://api.hubapi.com")
              eq_refl) as (Hcalls & _).
  - discriminate.
  - discriminate.
  - rewrite Hcalls. reflexivity.
Defined.

(* ================================================================== *)
(** * The batch route, end to end *)

Lemma batch_validate_miss_at (contact : jsval) (rest : list jsval) (i : Z)
    (w : world) :
  required_fields_present contact = Some false ->
  batch_validate (contact :: rest) i w =
  (Ok (Some (bad_request (missing_at i))), w).
Proof.
  destruct contact; try discriminate; cbn [required_fields_present];
    intros H; cbn [batch_validate]; unfold bind, lift; cbn [get_field];
    try reflexivity.
  injection H as H.
  destruct (truthy (obj_get fields "firstName"));
    destruct (truthy (obj_get fields "lastName"));
    destruct (truthy (obj_get fields "email")); try discriminate;
    reflexivity.
Qed.

Lemma batch_validate_first_miss_at (before after : list jsval)
    (contact : jsval) (i : Z) (w : world) :
  Forall (fun c => required_fields_present c = Some true) before ->
  required_fields_present contact = Some false ->
  batch_validate (before ++ contact :: after) i w =
  (Ok (Some (bad_request (missing_at (i + Z.of_nat (length before))))), w).
Proof.
  intros H Hmiss. revert i. induction H as [|c before Hc _ IH]; intros i.
  - cbn [app length]. rewrite Z.add_0_r. apply batch_validate_miss_at.
    exact Hmiss.
  - cbn [app]. rewrite (batch_validate_pass c _ i w Hc), IH.
    do 4 f_equal. cbn [length]. f_equal. lia.
Qed.

(** The batch route validates before it sends anything: when some
    element misses a required field, the answer is 400, the message
    names the index of the first such element, and no remote call is
    made, also for the elements before it. *)
Theorem batch_route_names_first_offender (before after : list jsval)
    (contact : jsval) (w : world) :
  Forall (fun c => required_fields_present c = Some true) before ->
  required_fields_present contact = Some false ->
  post_batch (JObj [("contacts", JArr (before ++ contact :: after))]) w =
  (Ok (bad_request
         (lit "Contact at index " ++ lit (pretty (Z.of_nat (length before)))
          ++ lit " is missing required fields (firstName, lastName, email)")),
   w).
Proof.
  intros H Hmiss.
  unfold post_batch, try_catch, bind at 1, lift.
  cbn [get_field obj_get obj_lookup String.eqb Ascii.eqb Bool.eqb truthy
       is_array negb orb array_items].
  unfold bind at 1.
  rewrite (batch_validate_first_miss_at before after contact 0 w H Hmiss).
  reflexivity.
Qed.

Lemma batch_route_names_first_offender_witness :
  post_batch
    (JObj [("contacts",
             JArr [ contact_with_bad_email; contact_with_empty_phone;
                    JObj [("firstName", str "C"); ("email", str "c@d.io")];
                    JObj [] ])])
    (world_of accepting_remote)
  = (Ok (bad_request
           (lit "Contact at index 2 is missing required fields (firstName, lastName, email)")),
     world_of accepting_remote).
Proof.
  apply (batch_route_names_first_offender
           [contact_with_bad_email; contact_with_empty_phone] [JObj []]
           (JObj [("firstName", str "C"); ("email", str "c@d.io")])).
  - repeat constructor.
  - reflexivity.
Defined.

Lemma batch_inputs_entries (elements : list obj) (w : world) :
  batch_inputs (map JObj elements) w = (Ok (map batch_entry elements), w).
Proof.
  induction elements as [|o elements IH]; [reflexivity|].
  cbn [map batch_inputs]. unfold bind at 1.
  change (batch_input (JObj o) w) with (Ok (batch_entry o), w).
  cbv beta iota. unfold bind at 1. rewrite IH. reflexivity.
Qed.

Lemma shape_created (created : list obj) :
  shape_contacts [ ("contactId", "id"); ("properties", "properties") ]
    (JArr (map JObj created))
  = Ok (map created_contact created).
Proof.
  cbn [shape_contacts]. induction created as [|c created IH]; [reflexivity|].
  cbn [map]. rewrite mapM_cons. rewrite IH. reflexivity.
Qed.

Lemma post_batch_run (elements : list obj) (w : world) (url0 : jsstring) :
  Forall (fun o => required_fields_present (JObj o) = Some true) elements ->
  to_string (baseUrl w) = Ok url0 ->
  let rq := batch_request url0 elements in
  post_batch (JObj [("contacts", JArr (map JObj elements))]) w =
  (Ok (match remote w (calls w) rq with
       | Rejected e => server_error (service_failure (EAxios e))
       | Resolved r =>
           match get_field (rs_data r) "results" with
           | Throw e => server_error (service_failure e)
           | Ok results =>
               match get_field results "length" with
               | Throw e => server_error (service_failure e)
               | Ok _ =>
                   match shape_contacts
                           [ ("contactId", "id"); ("properties", "properties") ]
                           results with
                   | Throw e => server_error e
                   | Ok created =>
                       mkReply 201
                         (JObj [ ("success", JBool true);
                                 ("message",
                                   JStr (lit "Contacts created successfully"));
                                 ("data",
                                   JObj [ ("created", array_length created);
                                          ("contacts", JArr created) ]) ])
                   end
               end
           end
       end),
   record_call w rq).
Proof.
  intros Hall Hbase rq.
  assert (Forall (fun c => required_fields_present c = Some true)
            (map JObj elements)) as Hall'.
  { apply List.Forall_forall. intros c Hc. apply in_map_iff in Hc.
    destruct Hc as (o & <- & Ho).
    exact (proj1 (List.Forall_forall _ _) Hall o Ho). }
  unfold post_batch, try_catch, bind at 1, lift.
  cbn [get_field obj_get obj_lookup String.eqb Ascii.eqb Bool.eqb truthy
       is_array negb orb array_items].
  unfold bind at 1. rewrite (batch_validate_all _ 0 w Hall').
  unfold bind at 1, batchCreateContacts, try_catch, bind at 1.
  rewrite batch_inputs_entries.
  unfold bind, get_baseUrl, text, lift. rewrite Hbase. unfold axios.
  fold (batch_request url0 elements). fold rq.
  destruct (remote w (calls w) rq) as [r|e]; [|reflexivity].
  destruct (get_field (rs_data r) "results") as [results|]; [|reflexivity].
  destruct (get_field results "length"); [|reflexivity].
  unfold ret. cbv beta iota.
  cbn [obj_get obj_lookup String.eqb Ascii.eqb Bool.eqb].
  destruct (shape_contacts _ results); reflexivity.
Qed.

(** A batch whose elements all have the three required fields goes to
    the remote side in one POST with one input per element, in order,
    each holding the nine mapped fields of its element.  A response
    whose [results] is an array of objects is answered 201 with their
    number and, for each, its [id] and [properties]; a rejected call is
    answered 500. *)
Theorem batch_route_one_request (elements : list obj) (w : world)
    (url0 : jsstring) :
  Forall (fun o => required_fields_present (JObj o) = Some true) elements ->
  to_string (baseUrl w) = Ok url0 ->
  let rq := batch_request url0 elements in
  calls (snd (post_batch (JObj [("contacts", JArr (map JObj elements))]) w))
  = calls w ++ [rq]
  /\ (forall r d created,
        remote w (calls w) rq = Resolved r ->
        rs_data r = JObj d ->
        obj_get d "results" = JArr (map JObj created) ->
        fst (post_batch (JObj [("contacts", JArr (map JObj elements))]) w) =
        Ok (mkReply 201
              (JObj [ ("success", JBool true);
                      ("message", JStr (lit "Contacts created successfully"));
                      ("data",
                        JObj [ ("created",
                                 JNum (Z.of_nat (length created)));
                               ("contacts",
                                 JArr (map created_contact created)) ]) ])))
  /\ (forall e,
        remote w (calls w) rq = Rejected e ->
        status_of (post_batch (JObj [("contacts", JArr (map JObj elements))]) w)
        = Some 500).
Proof.
  intros Hall Hbase rq.
  rewrite (post_batch_run elements w url0 Hall Hbase). fold rq.
  split; [reflexivity|]. split.
  - intros r d created -> Hd Hresults. rewrite Hd. cbn [get_field fst].
    rewrite Hresults. cbn [get_field]. rewrite shape_created.
    unfold array_length. rewrite length_map. reflexivity.
  - intros e ->. reflexivity.
Qed.

Lemma batch_route_one_request_witness :
  calls (snd (post_batch
                (JObj [("contacts",
                         JArr (map JObj
                                 [[ ("firstName", str "A");
                                    ("lastName", str "B");
                                    ("email", str "a@b.co") ]]))])
                (world_of accepting_remote)))
  = [batch_request (lit "https://api.hubapi.com")
       [[ ("firstName", str "A"); ("lastName", str "B");
          ("email", str "a@b.co") ]]].
Proof.
  destruct (batch_route_one_request
              [[ ("firstName", str "A"); ("lastName", str "B");
                 ("email", str "a@b.co") ]]
              (world_of accepting_remote) (lit "https://api.hubapi.com"))
    as (Hcalls & _).
  - repeat constructor.
  - reflexivity.
  - rewrite Hcalls. reflexivity.
Defined.

(* ================================================================== *)
(** * The loaded configuration *)

Lemma validate_token_shape (v : jsval) :
  validate_token v = None ->
  exists s, v = JStr s /\ (20 <= length s)%nat
            /\ startsWith s (lit "pat-") = true.
Proof.
  unfold validate_token. destruct (truthy v); cbn [negb]; [|discriminate].
  destruct v; cbn [is_string negb string_of]; try discriminate.
  destruct (Z.of_nat (length s) <? 20) eqn:Hlen; [discriminate|].
  destruct (startsWith s (lit "pat-")) eqn:Hpre; cbn [negb]; [|discriminate].
  intros _. exists s. split; [reflexivity|]. split; [lia|exact Hpre].
Qed.

Lemma validate_base_url_shape (s : jsstring) :
  truthy (JStr s) = true ->
  validate_base_url (JStr s) = None -> startsWith s (lit "https://") = true.
Proof.
  unfold validate_base_url. intros ->. cbn [string_of andb].
  destruct (startsWith s (lit "https://")); cbn [negb];
    [reflexivity|discriminate].
Qed.

Lemma validate_port_shape (s : jsstring) :
  truthy (JStr s) = true ->
  validate_port (JStr s) = None ->
  exists p, parseInt s = Some p /\ 1 <= p <= 65535.
Proof.
  unfold validate_port. intros ->. cbn [string_of andb].
  destruct (parseInt s) as [p|]; cbn [isNaN port_out_of_range]; [|discriminate].
  destruct (p <? 1) eqn:H1; [discriminate|].
  destruct (65535 <? p) eqn:H2; [discriminate|].
  intros _. exists p. split; [reflexivity|lia].
Qed.

Lemma optional_value_truthy (env : environment) (name : string) (d : jsstring) :
  truthy (JStr d) = true ->
  exists s, js_or (env_get env name) (JStr d) = JStr s
            /\ truthy (JStr s) = true.
Proof.
  intros Hd. unfold js_or.
  destruct (env_get_shape env name) as [-> | [s ->]]; [eauto|].
  destruct (truthy (JStr s)) eqn:E; eauto.
Qed.

Lemma loaded_config_shape (env : environment) (printed : list jsstring)
    (cfg : config) :
  load_config env = (printed, Ok cfg) ->
  (exists s, cfg_accessToken cfg = JStr s /\ (20 <= length s)%nat
             /\ startsWith s (lit "pat-") = true)
  /\ ((validate_base_url (base_url_value env) <> None ->
       cfg_baseUrl cfg = JUndefined)
      /\ (validate_base_url (base_url_value env) = None ->
          exists s, cfg_baseUrl cfg = JStr s
                    /\ startsWith s (lit "https://") = true))
  /\ ((validate_port (port_value env) <> None -> cfg_port cfg = None)
      /\ (validate_port (port_value env) = None ->
          exists p, cfg_port cfg = Some p /\ 1 <= p <= 65535)).
Proof.
  rewrite load_config_cases. cbv zeta.
  destruct (validate_token (token_value env)) eqn:Htok; [discriminate|].
  intros [= _ <-]. cbn [cfg_accessToken cfg_baseUrl cfg_port].
  split; [exact (validate_token_shape _ Htok)|]. split.
  - destruct (validate_base_url (base_url_value env)) eqn:Hurl;
      (split; [intros; congruence || reflexivity|]); [discriminate|].
    intros _. unfold base_url_value in *.
    destruct (optional_value_truthy env "HUBSPOT_BASE_URL"
                (lit "https://api.hubapi.com") eq_refl) as (s & Hs & Ht).
    rewrite Hs in *. exists s. split; [reflexivity|].
    exact (validate_base_url_shape s Ht Hurl).
  - destruct (validate_port (port_value env)) eqn:Hport;
      (split; [intros; congruence || reflexivity|]); [discriminate|].
    intros _. unfold port_value in *.
    destruct (optional_value_truthy env "PORT" (lit "3000") eq_refl)
      as (s & Hs & Ht).
    rewrite Hs in *. cbn [string_of].
    exact (validate_port_shape s Ht Hport).
Qed.

(** Whatever the environment, a configuration that loads holds a token
    that is a string of at least 20 characters starting with [pat-]; a
    base URL that starts with [https://], or none at all; and a port
    between 1 and 65535, or [NaN]. *)
Theorem loaded_config_invariant (env : environment) (printed : list jsstring)
    (cfg : config) :
  load_config env = (printed, Ok cfg) ->
  (exists s, cfg_accessToken cfg = JStr s /\ (20 <= length s)%nat
             /\ startsWith s (lit "pat-") = true)
  /\ (cfg_baseUrl cfg = JUndefined
      \/ exists s, cfg_baseUrl cfg = JStr s
                   /\ startsWith s (lit "https://") = true)
  /\ (cfg_port cfg = None
      \/ exists p, cfg_port cfg = Some p /\ 1 <= p <= 65535).
Proof.
  intros Hload.
  destruct (loaded_config_shape env printed cfg Hload)
    as (Htoken & (Hbad_url & Hgood_url) & (Hbad_port & Hgood_port)).
  split; [exact Htoken|]. split.
  - destruct (validate_base_url (base_url_value env)) eqn:Hurl.
    + left. apply Hbad_url. discriminate.
    + right. apply Hgood_url. reflexivity.
  - destruct (validate_port (port_value env)) eqn:Hport.
    + left. apply Hbad_port. discriminate.
    + right. apply Hgood_port. reflexivity.
Qed.

Lemma loaded_config_invariant_witness :
  exists p, cfg_port (mkConfig (str "pat-na1-0123456789abcdef")
                        (str "https://api.hubapi.com") (Some 8080)) = Some p
            /\ 1 <= p <= 65535.
Proof.
  destruct (loaded_config_invariant env_with_port []
              (mkConfig (str "pat-na1-0123456789abcdef")
                 (str "https://api.hubapi.com") (Some 8080)))
    as (_ & _ & [Hnone | Hport]).
  - vm_compute. reflexivity.
  - discriminate Hnone.
  - exact Hport.
Defined.

Lemma no_warning_run (env : environment) :
  validate_base_url (base_url_value env) = None ->
  validate_port (port_value env) = None ->
  v_warnings (run_validation env) = [].
Proof.
  intros Hurl Hport.
  unfold run_validation, REQUIRED_ENV_VARS, OPTIONAL_ENV_VARS.
  cbn [fold_left]. unfold check_optional, check_required.
  cbn [ev_name ev_validator ev_default ev_description].
  fold (token_value env) (base_url_value env) (port_value env).
  rewrite Hurl, Hport.
  destruct (validate_token (token_value env)); reflexivity.
Qed.

(** With a valid token, optional settings that are unset or empty are
    replaced by their defaults without any warning: the configuration
    holds the base URL [https://api.hubapi.com] and the port 3000. *)
Theorem unset_optionals_take_defaults (env : environment) :
  validate_token (token_value env) = None ->
  truthy (env_get env "HUBSPOT_BASE_URL") = false ->
  truthy (env_get env "PORT") = false ->
  load_config env =
  ([], Ok (mkConfig (token_value env) (JStr (lit "https://api.hubapi.com"))
             (Some 3000))).
Proof.
  intros Htok Hurl Hport.
  assert (base_url_value env = JStr (lit "https://api.hubapi.com")) as Hb
    by (unfold base_url_value, js_or; rewrite Hurl; reflexivity).
  assert (port_value env = JStr (lit "3000")) as Hp
    by (unfold port_value, js_or; rewrite Hport; reflexivity).
  rewrite load_config_cases. cbv zeta.
  rewrite no_warning_run by (rewrite ?Hb, ?Hp; reflexivity).
  rewrite Htok, Hb, Hp. reflexivity.
Qed.

Lemma unset_optionals_take_defaults_witness :
  load_config env_with_empty_optionals =
  ([], Ok (mkConfig (str "pat-na1-0123456789abcdef")
             (str "https://api.hubapi.com") (Some 3000))).
Proof.
  apply (unset_optionals_take_defaults env_with_empty_optionals);
    reflexivity.
Defined.

(** Only the token can stop the configuration from loading: loading
    throws exactly when the token fails its validator, always with the
    message [Environment validation failed: 1 error(s) found]; the base
    URL and the port never make it throw. *)
Theorem token_is_the_only_fatal_setting (env : environment) :
  (validate_token (token_value env) <> None <->
   snd (load_config env) =
   Throw (EError (lit "Environment validation failed: 1 error(s) found")))
  /\ (validate_token (token_value env) = None <->
      exists cfg, snd (load_config env) = Ok cfg).
Proof.
  rewrite load_config_cases. cbv zeta.
  destruct (validate_token (token_value env)); cbn [snd]; split; split.
  - reflexivity.
  - discriminate.
  - discriminate.
  - intros [cfg Hcfg]. discriminate.
  - congruence.
  - discriminate.
  - eexists. reflexivity.
  - reflexivity.
Qed.

(** The runtime check on a configuration that loaded: it returns [true]
    when the base URL passed its validator, and fails with a TypeError,
    not with its own HTTPS message, when the base URL was rejected, the
    configuration holding none then; its two [Configuration error]
    messages cannot occur. *)
Theorem runtime_check_after_load (env : environment) (printed : list jsstring)
    (cfg : config) :
  load_config env = (printed, Ok cfg) ->
  (validate_base_url (base_url_value env) = None ->
   config_validate cfg = Ok true)
  /\ (validate_base_url (base_url_value env) <> None ->
      config_validate cfg =
      Throw (ETypeError
               (lit "Cannot read properties of undefined (reading 'startsWith')")))
  /\ (forall message, config_validate cfg <> Throw (EError message)).
Proof.
  intros Hload.
  destruct (loaded_config_shape env printed cfg Hload)
    as ((t & Ht & Hlen & _) & Hurl & _).
  assert (truthy (cfg_accessToken cfg) = true) as Htruthy.
  { rewrite Ht. destruct t; [cbn in Hlen; lia | reflexivity]. }
  unfold config_validate. rewrite Htruthy. cbn [negb].
  destruct (validate_base_url (base_url_value env)) eqn:Hv.
  - destruct Hurl as [Hu _]. rewrite Hu by congruence.
    split; [congruence|]. split; [reflexivity|]. discriminate.
  - destruct Hurl as [_ Hu]. destruct (Hu eq_refl) as (s & Hs & Hhttps).
    rewrite Hs, Hhttps. cbn [negb].
    split; [reflexivity|]. split; [congruence|]. discriminate.
Qed.

Lemma runtime_check_after_load_witness :
  config_validate (mkConfig (str "pat-na1-0123456789abcdef")
                     (str "https://api.hubapi.com") (Some 8080))
  = Ok true.
Proof.
  destruct (runtime_check_after_load env_with_port []
              (mkConfig (str "pat-na1-0123456789abcdef")
                 (str "https://api.hubapi.com") (Some 8080)))
    as (Hgood & _).
  - vm_compute. reflexivity.
  - apply Hgood. reflexivity.
Defined.

(* ================================================================== *)
(** * Reading a contact that exists *)

Lemma names_text (names : list jsstring) :
  to_string (JArr (map JStr names)) = Ok (join (lit ",") names).
Proof.
  cbn [to_string].
  assert (mapM (fun e => match e with
                         | JUndefined | JNull => Ok []
                         | _ => to_string e
                         end) (map JStr names) = Ok names) as ->.
  { induction names as [|n names IH]; [reflexivity|].
    cbn [map]. rewrite mapM_cons, IH. reflexivity. }
  reflexivity.
Qed.

Lemma getContact_run (id url0 : jsstring) (properties : jsval)
    (param : jsstring) (w : world) :
  to_string (baseUrl w) = Ok url0 ->
  (if truthy properties
   then (if is_array properties then join_comma properties
         else text properties)
   else join_comma (JArr defaultProps)) w = (Ok param, w) ->
  let rq :=
    mkRequest GET
      ((url0 ++ endpoints_contacts ++ lit "/" ++ id)
       ++ lit "?properties=" ++ param) JUndefined in
  let handled (error : exn) : result obj :=
    if bool_decide (exn_status error = Some 404)
    then Ok (contact_not_found id)
    else Throw (service_failure error) in
  getContact id properties w =
  (match remote w (calls w) rq with
   | Rejected e => handled (EAxios e)
   | Resolved r =>
       match get_field (rs_data r) "id" with
       | Throw e => handled e
       | Ok _ =>
           match get_field (rs_data r) "properties" with
           | Throw e => handled e
           | Ok _ => Ok [ ("success", JBool true); ("contact", rs_data r) ]
           end
       end
   end, record_call w rq).
Proof.
  intros Hbase Hparam rq handled.
  unfold getContact, try_catch, bind at 1, get_baseUrl.
  unfold bind at 1, text at 1, lift at 1. rewrite Hbase.
  unfold bind at 1. rewrite Hparam.
  unfold bind, axios, lift. fold rq. unfold handled.
  destruct (remote w (calls w) rq) as [r|e].
  - destruct (get_field (rs_data r) "id");
      [|destruct (bool_decide _); reflexivity].
    destruct (get_field (rs_data r) "properties");
      [reflexivity | destruct (bool_decide _); reflexivity].
  - destruct (bool_decide _); reflexivity.
Qed.

(** The properties a read asks for: given an array of names,
    [getContact] asks for exactly these, joined by commas (for the empty
    array, for none); given nothing, [null] or the empty string, it asks
    for the nine default properties. *)
Theorem read_asks_for_given_properties (id url0 : jsstring) (w : world) :
  to_string (baseUrl w) = Ok url0 ->
  (forall names,
     calls (snd (getContact id (JArr (map JStr names)) w)) =
     calls w ++ [read_request url0 id names])
  /\ (forall properties,
        truthy properties = false ->
        calls (snd (getContact id properties w)) =
        calls w ++ [contact_request url0 id]).
Proof.
  intros Hbase. split.
  - intros names.
    rewrite (getContact_run id url0 (JArr (map JStr names))
               (join (lit ",") names) w Hbase).
    + reflexivity.
    + cbn [truthy is_array]. unfold join_comma, text, lift.
      rewrite names_text. reflexivity.
  - intros properties Hfalsy.
    rewrite (getContact_run id url0 properties
               (lit "firstname,lastname,email,phone,hubspot_owner_id,candidate_experience,candidate_date_of_joining,candidate_name,candidate_past_company")
               w Hbase).
    + reflexivity.
    + rewrite Hfalsy. reflexivity.
Qed.

Lemma read_asks_for_given_properties_witness :
  calls (snd (getContact (lit "42") (JArr (map JStr [lit "email"; lit "phone"]))
                (world_of accepting_remote)))
  = [mkRequest GET
       (lit "https://api.hubapi.com/crm/v3/objects/contacts/42?properties=email,phone")
       JUndefined].
Proof.
  destruct (read_asks_for_given_properties (lit "42")
              (lit "https://api.hubapi.com") (world_of accepting_remote)
              eq_refl) as (Hnames & _).
  rewrite Hnames. reflexivity.
Defined.

(** A contact that exists: when the read resolves with an object, the
    read route answers 200 with its [id] under [contactId] and its
    [properties], [createdAt] and [updatedAt], after one GET for the
    nine default properties. *)
Theorem read_route_found (id url0 : jsstring) (w : world) (r : http_response)
    (d : obj) :
  to_string (baseUrl w) = Ok url0 ->
  remote w (calls w) (contact_request url0 id) = Resolved r ->
  rs_data r = JObj d ->
  get_contact id w =
  (Ok (mkReply 200
         (JObj [ ("success", JBool true);
                 ("data",
                   JObj [ ("contactId", obj_get d "id");
                          ("properties", obj_get d "properties");
                          ("createdAt", obj_get d "createdAt");
                          ("updatedAt", obj_get d "updatedAt") ]) ])),
   record_call w (contact_request url0 id)).
Proof.
  intros Hbase Hresolved Hd.
  unfold get_contact, try_catch, bind at 1.
  rewrite (getContact_run id url0 JNull
             (lit "firstname,lastname,email,phone,hubspot_owner_id,candidate_experience,candidate_date_of_joining,candidate_name,candidate_past_company")
             w Hbase eq_refl).
  fold (contact_request url0 id). rewrite Hresolved, Hd. reflexivity.
Qed.

Lemma read_route_found_witness :
  status_of (get_contact (lit "42") (world_of accepting_remote)) = Some 200.
Proof.
  unfold status_of.
  rewrite (read_route_found (lit "42") (lit "https://api.hubapi.com")
             (world_of accepting_remote)
             (mkResponse 200
                (JObj [ ("id", str "101"); ("properties", JObj []);
                        ("results", JArr []); ("total", JNum 0) ]))
             [ ("id", str "101"); ("properties", JObj []);
               ("results", JArr []); ("total", JNum 0) ]
             eq_refl eq_refl eq_refl).
  reflexivity.
Defined.
